(** * Semantic video-transcript index (Youtube/server_3.py)

    A shallow embedding of the FAISS tools of the YouTube MCP server:
    [index_video], [semantic_search], [fetch_and_index_transcript],
    [bulk_index_channel_videos], together with the transcript tools they
    call ([check_transcript_availability], [get_video_transcript]) and the
    two YouTube wrappers they depend on ([get_video_details],
    [get_latest_videos_from_channel]).

    The module-level globals [index] and [video_store] become the fields of
    an explicit [State]; every tool is a computation in a state-and-exception
    monad.  The network services (YouTube Data API, the caption service) are
    answers drawn from a world [W] that every call may change, so nothing is
    assumed about two calls agreeing.  A floating-point number is the
    rational it denotes: the embeddings and the distances of the index are
    exact, and the score that [semantic_search] computes from a distance
    goes through the roundings of numpy's float32.  A Python str is its
    UTF-8 encoding, [len] counting code points. *)

From Stdlib Require Import List ZArith QArith Qround Qabs Qpower String Ascii
  Bool Lia Lqa Sorted Permutation.
Import ListNotations.
Open Scope string_scope.
Open Scope Z_scope.

Set Implicit Arguments.

(** ** Python values *)

(** The dict-shaped results of the tools.  A dict keeps its insertion
    order, as Python's does. *)
#[warnings="-register-all"]
Inductive value : Type :=
| VNone
| VBool (b : bool)
| VInt (n : Z)
| VFloat (q : Q)
| VStr (s : string)
| VList (l : list value)
| VDict (d : list (string * value)).

(** An exception is observed by the handlers only through [str(e)]. *)
Definition Exn := string.

Module Py.

(** [k in d] *)
Fixpoint assoc_mem (k : string) (d : list (string * value)) : bool :=
  match d with
  | [] => false
  | (k', _) :: d' => if String.eqb k k' then true else assoc_mem k d'
  end.

Fixpoint assoc_find (k : string) (d : list (string * value)) : option value :=
  match d with
  | [] => None
  | (k', v) :: d' => if String.eqb k k' then Some v else assoc_find k d'
  end.

Definition is_dict (v : value) : bool :=
  match v with VDict _ => true | _ => false end.

(** ["key" in v] for a dict [v]; the tools apply it to dicts only. *)
Definition contains_key (k : string) (v : value) : bool :=
  match v with
  | VDict d => assoc_mem k d
  | _ => false
  end.

Definition KeyError (k : string) : Exn := "'" ++ k ++ "'".
Definition IndexError : Exn := "list index out of range".
Definition TypeError : Exn := "TypeError".
Definition AssertionError : Exn := "".

(** [v[k]] with a string key: raises KeyError when the key is absent. *)
Definition getitem (v : value) (k : string) : Exn + value :=
  match v with
  | VDict d =>
      match assoc_find k d with
      | Some x => inr x
      | None => inl (KeyError k)
      end
  | _ => inl TypeError
  end.

(** [v.get(k)] and [v.get(k, default)]: total. *)
Definition get (v : value) (k : string) (default : value) : value :=
  match v with
  | VDict d =>
      match assoc_find k d with
      | Some x => x
      | None => default
      end
  | _ => default
  end.

(** [l[i]] on a list, with Python's negative indices. *)
Definition list_getitem (l : list value) (i : Z) : Exn + value :=
  let n := Z.of_nat (List.length l) in
  let j := if i <? 0 then i + n else i in
  if (j <? 0) || (n <=? j) then inl IndexError
  else match nth_error l (Z.to_nat j) with
       | Some x => inr x
       | None => inl IndexError
       end.

Definition len_list {A} (l : list A) : Z := Z.of_nat (List.length l).

(** A str is held as its UTF-8 encoding, one [ascii] per byte.  A byte
    10xxxxxx continues the code point begun before it. *)
Definition is_continuation (c : ascii) : bool :=
  match c with
  | Ascii _ _ _ _ _ _ b6 b7 => b7 && negb b6
  end.

Fixpoint code_points (s : string) : nat :=
  match s with
  | EmptyString => O
  | String c s' =>
      if is_continuation c then code_points s' else S (code_points s')
  end.

(** [len(s)] on a str: the number of code points, not of bytes. *)
Definition len_str (s : string) : Z := Z.of_nat (code_points s).

(** [needle in hay] on strings. *)
Fixpoint str_contains (needle hay : string) : bool :=
  if String.prefix needle hay then true
  else match hay with
       | EmptyString => false
       | String _ hay' => str_contains needle hay'
       end.

(** [not video_id] for an optional string argument: [None] and [""] are
    falsy. *)
Definition truthy_str (s : option string) : option string :=
  match s with
  | Some (String c r) => Some (String c r)
  | _ => None
  end.

(** [np.rint]: round to the nearest integer, a tie to the even one. *)
Definition rint (q : Q) : Z :=
  let f := Qfloor q in
  match Qcompare (q - inject_Z f) (1 # 2) with
  | Lt => f
  | Gt => f + 1
  | Eq => if Z.even f then f else f + 1
  end.

(** [round(x, 2)] without rounding errors: scale, [rint], unscale. *)
Definition round2 (q : Q) : Q := Qred (Qmake (rint (q * 100)) 100).

End Py.

(** ** numpy's float32

    IEEE 754 binary32 with rounding to nearest, ties to even: a 24-bit
    significand, subnormal numbers down to 2^-149.  A finite float is the
    rational it denotes; infinities and NaN are left out (the score of
    [semantic_search] stays between 0 and 10000 on the way). *)

Module Float32.

Definition pow2 (e : Z) : Q := (2 ^ e)%Q.

(** [floor(log2 x)] for a positive [x]. *)
Definition ilog2 (x : Q) : Z :=
  let e := Z.log2 (Qnum x) - Z.log2 (Zpos (Qden x)) in
  if Qle_bool (pow2 e) x then e else e - 1.

(** The exponent of the last bit of the significand that takes [x]. *)
Definition exponent (x : Q) : Z := Z.max (ilog2 (Qabs x) - 23) (-149).

(** The float nearest to [x]. *)
Definition round (x : Q) : Q :=
  let q := exponent x in
  Qred (inject_Z (Py.rint (x / pow2 q)) * pow2 q).

(** The arithmetic of two floats: the exact result, rounded. *)
Definition add (x y : Q) : Q := round (x + y).
Definition mul (x y : Q) : Q := round (x * y).
Definition div (x y : Q) : Q := round (x / y).

(** [round(x, 2)] on a float32, which is [np.round(x, 2)]: multiply by
    100.0, [rint], divide by 100.0, each in float32. *)
Definition round2 (x : Q) : Q := div (inject_Z (Py.rint (mul x 100))) 100.

End Float32.

(** ** The vector index

    [faiss.IndexFlatL2(dimension)] is an external library. *)

Definition Vector := list Q.

Module Faiss.

Record IndexFlatL2 := mkIndex {
  d : nat;                (* dimension fixed at construction *)
  xb : list Vector        (* stored vectors; the id of a vector is its position *)
}.

Definition ntotal (ix : IndexFlatL2) : Z := Z.of_nat (List.length (xb ix)).

Definition new (dimension : nat) : IndexFlatL2 := mkIndex dimension [].

(** Modelled from the spec: the index's native distance metric (FAISS
    itself is not part of the repository), squared Euclidean distance. *)
Fixpoint l2sqr (x y : Vector) : Q :=
  match x, y with
  | a :: x', b :: y' => (a - b) * (a - b) + l2sqr x' y'
  | _, _ => 0
  end.

(** Modelled from the spec: the vector index's [add] (FAISS itself is not
    part of the repository).  [add(vector) -> id] stores the vector
    verbatim under the next sequential id; a vector of another dimension
    is rejected and leaves the index as it was. *)
Definition add (ix : IndexFlatL2) (v : Vector) : Exn + IndexFlatL2 :=
  if Nat.eqb (List.length v) (d ix)
  then inr (mkIndex (d ix) (xb ix ++ [v]))
  else inl Py.AssertionError.

(** Modelled from the spec: one step of the index's linear scan (FAISS
    itself is not part of the repository).  A hit is a pair (id, distance);
    a new hit goes behind every hit that is at most as far, so a scan in id
    order leaves ties in id order. *)
Fixpoint insert_hit (h : Z * Q) (hits : list (Z * Q)) : list (Z * Q) :=
  match hits with
  | [] => [h]
  | h' :: rest =>
      if Qle_bool (snd h') (snd h) then h' :: insert_hit h rest
      else h :: hits
  end.

(** Modelled from the spec: the index's full linear scan (FAISS itself is
    not part of the repository), over the stored vectors in id order. *)
Fixpoint scan (q : Vector) (vs : list Vector) (next_id : Z)
    (hits : list (Z * Q)) : list (Z * Q) :=
  match vs with
  | [] => hits
  | v :: vs' => scan q vs' (next_id + 1) (insert_hit (next_id, l2sqr q v) hits)
  end.

(** Modelled from the spec: the vector index's [search] (FAISS itself is
    not part of the repository).  [search(queryVector, k)] is a full
    linear scan returning (id, distance) in ascending distance, ties by
    lower id; [k <= 0] yields no results and [k] is clamped to the count.
    The result is the pair of arrays [(D, I)] the caller unpacks. *)
Definition search (ix : IndexFlatL2) (q : Vector) (k : Z)
    : Exn + (list Q * list Z) :=
  if Nat.eqb (List.length q) (d ix)
  then let hits := firstn (Z.to_nat k) (scan q (xb ix) 0 []) in
       inr (map snd hits, map fst hits)
  else inl Py.AssertionError.

End Faiss.

(** ** The caption library

    [youtube_transcript_api] is an external library; its network calls
    ([list_transcripts], a track's [fetch]) are collaborators below, its
    track selection is pure. *)

Module YouTubeTranscriptApi.

Record Transcript := mkTranscript {
  of_video : string;
  language : string;
  language_code : string;
  is_generated : bool;
  is_translatable : bool
}.

Record Segment := mkSegment {
  text : string;
  start : Q;
  duration : Q
}.

Section Find.

(** [str(e)] of the exception raised when no track matches the
    requested language codes. *)
Variable NoTranscriptFound : list string -> Exn.

(** Modelled from the spec: the captioning collaborator's lookup of one
    language code among the tracks of one kind (the library is not part of
    the repository): the first track reported with that code. *)
Fixpoint track_with (generated : bool) (code : string)
    (tracks : list Transcript) : option Transcript :=
  match tracks with
  | [] => None
  | t :: rest =>
      if String.eqb (language_code t) code && Bool.eqb (is_generated t) generated
      then Some t
      else track_with generated code rest
  end.

(** Modelled from the spec: the captioning collaborator's lookup of the
    requested codes, in order, among the tracks of one kind (the library is
    not part of the repository). *)
Fixpoint first_of_kind (generated : bool) (codes : list string)
    (tracks : list Transcript) : option Transcript :=
  match codes with
  | [] => None
  | code :: codes' =>
      match track_with generated code tracks with
      | Some t => Some t
      | None => first_of_kind generated codes' tracks
      end
  end.

(** Modelled from the spec: the captioning collaborator's lookup of the
    requested languages among all tracks (the library is not part of the
    repository): "the first collaborator-reported match wins", that is the
    first track, in the order reported, whose language code is one of the
    requested. *)
Definition first_of_any (codes : list string) (tracks : list Transcript)
    : option Transcript :=
  find (fun t => existsb (String.eqb (language_code t)) codes) tracks.

(** Modelled from the spec: the captioning collaborator's failure when no
    track matches (the library is not part of the repository). *)
Definition or_raise (codes : list string) (r : option Transcript)
    : Exn + Transcript :=
  match r with
  | Some t => inr t
  | None => inl (NoTranscriptFound codes)
  end.

(** Modelled from the spec: the captioning collaborator's selection of a
    manually created track (the library is not part of the repository).
    The requested codes are tried in order and the first track reported for
    a code wins; with no match the call fails with NoTranscriptFound. *)
Definition find_manually_created_transcript (codes : list string)
    (tracks : list Transcript) : Exn + Transcript :=
  or_raise codes (first_of_kind false codes tracks).

(** Modelled from the spec: the captioning collaborator's selection of an
    auto-generated track (the library is not part of the repository), as
    for the manually created ones. *)
Definition find_generated_transcript (codes : list string)
    (tracks : list Transcript) : Exn + Transcript :=
  or_raise codes (first_of_kind true codes tracks).

(** Modelled from the spec: the captioning collaborator's selection of a
    track of either kind (the library is not part of the repository): the
    first reported track of a requested language wins; with no match the
    call fails with NoTranscriptFound. *)
Definition find_transcript (codes : list string)
    (tracks : list Transcript) : Exn + Transcript :=
  or_raise codes (first_of_any codes tracks).

End Find.

End YouTubeTranscriptApi.
Import YouTubeTranscriptApi.

(** ** The YouTube Data API responses *)

Record VideoResource := mkVideoResource {
  snippet_title : string;
  snippet_description : string;
  snippet_channelTitle : string;
  snippet_publishedAt : string;
  statistics : list (string * value)
}.

Record SearchItem := mkSearchItem {
  item_videoId : string;
  item_title : string;
  item_publishedAt : string;
  item_description : string
}.

(** ** Collaborators

    Everything the server reaches outside its own process.  A network call
    takes the world and returns an answer (or the text of the exception it
    raised) with the world after the call.  [None] for a response is one
    without an "items" key. *)
Record Collaborators (W : Type) := mkCollaborators {
  videos_list : string -> W -> (Exn + option (list VideoResource)) * W;
  search_list : string -> Z -> W -> (Exn + option (list SearchItem)) * W;
  list_transcripts : string -> W -> (Exn + list Transcript) * W;
  fetch : Transcript -> W -> (Exn + list Segment) * W;
  encode : string -> Exn + Vector;                 (* model.encode([text]) *)
  format_transcript : list Segment -> string;      (* TextFormatter *)
  NoTranscriptFound : list string -> Exn
}.

(** ** Outcomes *)

Inductive outcome (A : Type) : Type :=
| Return (a : A)
| Raise (e : Exn).
Arguments Return {A} a.
Arguments Raise {A} e.

Definition dimension : nat := 384.
Definition DEFAULT_CHANNEL_ID : string := "UCX6OQ3DkcsbYNE6H8uQQuVA".

(** Truthiness of the values the tools test. *)
Definition truthy (v : value) : bool :=
  match v with
  | VNone => false
  | VBool b => b
  | VInt n => negb (n =? 0)
  | VFloat q => negb (Qeq_bool q 0)
  | VStr s => negb (String.eqb s "")
  | VList l => match l with [] => false | _ => true end
  | VDict d => match d with [] => false | _ => true end
  end.

(** [round((1 / (1 + D[0][i])) * 100, 2)], where [D[0][i]] is a
    [np.float32]: every operation is float32's. *)
Definition similarity_score (distance : Q) : Q :=
  Float32.round2
    (Float32.mul (Float32.div 1 (Float32.add 1 distance)) 100).

(** The spec's wording of the score, [round(100 / (1 + distance), 2)], in
    exact arithmetic. *)
Definition similarity_spec (distance : Q) : Q :=
  Py.round2 (100 / (1 + distance))%Q.

(** ** The server *)

Declare Scope tool_scope.
Delimit Scope tool_scope with tool.

Section Server.

Context {W : Type}.
Variable C : Collaborators W.

(** The process state: the two module-level globals and the world. *)
Record State := mkState {
  index : Faiss.IndexFlatL2;
  video_store : list value;
  world : W
}.

Definition initial (w : W) : State := mkState (Faiss.new dimension) [] w.

(** A computation may raise; what it did to the state before stays. *)
Definition M (A : Type) : Type := State -> outcome A * State.

Definition ret {A} (a : A) : M A := fun st => (Return a, st).

Definition raise {A} (e : Exn) : M A := fun st => (Raise e, st).

Definition bind {A B} (m : M A) (k : A -> M B) : M B :=
  fun st =>
    match m st with
    | (Return a, st') => k a st'
    | (Raise e, st') => (Raise e, st')
    end.

(** [try: m except Exception as e: handler e] *)
Definition try_except {A} (m : M A) (handler : Exn -> M A) : M A :=
  fun st =>
    match m st with
    | (Return a, st') => (Return a, st')
    | (Raise e, st') => handler e st'
    end.

(** A pure step that may raise. *)
Definition lift {A} (r : Exn + A) : M A :=
  match r with
  | inl e => raise e
  | inr a => ret a
  end.

(** A network call. *)
Definition call {A} (f : W -> (Exn + A) * W) : M A :=
  fun st =>
    let (r, w') := f (world st) in
    let st' := mkState (index st) (video_store st) w' in
    match r with
    | inl e => (Raise e, st')
    | inr a => (Return a, st')
    end.

Local Notation "x <- m ;; k" := (bind m (fun x => k))
  (at level 100, m at next level, right associativity) : tool_scope.
Local Notation "m ;;; k" := (bind m (fun _ => k))
  (at level 100, right associativity) : tool_scope.
Local Open Scope tool_scope.

(** The two writes to the globals. *)
Definition index_add (embedding : Vector) : M unit :=
  fun st =>
    match Faiss.add (index st) embedding with
    | inl e => (Raise e, st)
    | inr ix => (Return tt, mkState ix (video_store st) (world st))
    end.

Definition video_store_append (record : value) : M unit :=
  fun st =>
    (Return tt, mkState (index st) (video_store st ++ [record]) (world st)).

Definition get_state : M State := fun st => (Return st, st).

(** Arguments arriving as Python values. *)
Definition as_str (v : value) : M string :=
  match v with
  | VStr s => ret s
  | _ => raise Py.TypeError
  end.

Definition as_opt_str (v : value) : M (option string) :=
  match v with
  | VNone => ret None
  | VStr s => ret (Some s)
  | _ => raise Py.TypeError
  end.

Definition as_list (v : value) : M (list value) :=
  match v with
  | VList l => ret l
  | _ => raise Py.TypeError
  end.

(** *** YouTube wrappers *)

Definition watch_url (video_id : string) : string :=
  "https://www.youtube.com/watch?v=" ++ video_id.

Definition video_data_of (item : SearchItem) : value :=
  VDict [ ("title", VStr (item_title item));
          ("video_id", VStr (item_videoId item));
          ("url", VStr (watch_url (item_videoId item)));
          ("published", VStr (item_publishedAt item));
          ("description", VStr (item_description item)) ].

Definition get_latest_videos_from_channel (channel_id : string)
    (max_results : Z) : M value :=
  try_except
    (response <- call (search_list C channel_id max_results) ;;
     let items := match response with Some l => l | None => [] end in
     ret (VList (map video_data_of items)))
    (fun e => ret (VDict [("error", VStr e)])).

Definition get_video_details (video_id : string) : M value :=
  try_except
    (response <- call (videos_list C video_id) ;;
     match response with
     | None | Some [] => ret (VDict [("error", VStr "Video not found")])
     | Some (item :: _) =>
         let stats := VDict (statistics item) in
         ret (VDict [ ("title", VStr (snippet_title item));
                      ("description", VStr (snippet_description item));
                      ("channel", VStr (snippet_channelTitle item));
                      ("published", VStr (snippet_publishedAt item));
                      ("views", Py.get stats "viewCount" (VStr "0"));
                      ("likes", Py.get stats "likeCount" (VStr "0"));
                      ("comments", Py.get stats "commentCount" (VStr "0"));
                      ("url", VStr (watch_url video_id)) ])
     end)
    (fun e => ret (VDict [("error", VStr e)])).

(** *** Transcript tools *)

Definition transcript_info (t : Transcript) : value :=
  VDict [ ("language", VStr (language t));
          ("language_code", VStr (language_code t));
          ("is_generated", VBool (is_generated t));
          ("is_translatable", VBool (is_translatable t)) ].

Definition check_transcript_availability (video_id : option string) : M value :=
  match Py.truthy_str video_id with
  | None =>
      ret (VDict [("error",
        VStr "You must provide a video_id to check transcript availability")])
  | Some vid =>
      try_except
        (transcript_list <- call (list_transcripts C vid) ;;
         let available_transcripts := map transcript_info transcript_list in
         ret (VDict [ ("video_id", VStr vid);
                      ("has_transcripts",
                         VBool (0 <? Py.len_list available_transcripts));
                      ("available_transcripts", VList available_transcripts);
                      ("count", VInt (Py.len_list available_transcripts)) ]))
        (fun e =>
           ret (VDict [ ("video_id", VStr vid);
                        ("has_transcripts", VBool false);
                        ("error", VStr e) ]))
  end.

(** Modelled from the spec: the captioning collaborator's
    [get_transcript(video_id, languages=languages)] (the library is not part
    of the repository): list the tracks, pick one of the requested
    languages, fetch it. *)
Definition get_transcript (video_id : string) (languages : list string)
    : M (list Segment) :=
  transcript_list <- call (list_transcripts C video_id) ;;
  transcript <- lift (find_transcript (NoTranscriptFound C) languages transcript_list) ;;
  call (fetch C transcript).

(** The [languages is None] branch.  [inl] is the early [return] of the
    innermost [else]; [inr] is [transcript_data]. *)
Definition default_transcript_data (video_id : string)
    : M (value + list Segment) :=
  transcript_list <- call (list_transcripts C video_id) ;;
  try_except
    (transcript <- lift (find_manually_created_transcript
                           (NoTranscriptFound C) ["en"] transcript_list) ;;
     transcript_data <- call (fetch C transcript) ;;
     ret (inr transcript_data))
    (fun _ =>
       try_except
         (transcript <- lift (find_generated_transcript
                                (NoTranscriptFound C) ["en"] transcript_list) ;;
          transcript_data <- call (fetch C transcript) ;;
          ret (inr transcript_data))
         (fun _ =>
            match transcript_list with
            | first :: _ =>
                transcript_data <- call (fetch C first) ;;
                ret (inr transcript_data)
            | [] =>
                ret (inl (VDict [("error",
                  VStr ("No transcripts available for video " ++ video_id))]))
            end)).

Definition transcript_error (video_id : string) (error_msg : string) : value :=
  if Py.str_contains "TranscriptsDisabled" error_msg then
    VDict [("error", VStr ("Transcripts are disabled for video " ++ video_id))]
  else if Py.str_contains "NoTranscriptFound" error_msg then
    VDict [("error", VStr ("No transcript found for video " ++ video_id
                             ++ " in requested languages"))]
  else if Py.str_contains "VideoUnavailable" error_msg then
    VDict [("error", VStr ("Video " ++ video_id ++ " is unavailable"))]
  else
    VDict [("error", VStr ("Failed to get transcript for " ++ video_id
                             ++ ": " ++ error_msg))].

Definition transcript_result_of (video_id : string)
    (transcript_data : list Segment) : value :=
  let transcript_text := format_transcript C transcript_data in
  VDict [ ("video_id", VStr video_id);
          ("transcript", VStr transcript_text);
          ("length", VInt (Py.len_str transcript_text));
          ("segments", VInt (Py.len_list transcript_data)) ].

Definition get_video_transcript (video_id : option string)
    (languages : option (list string)) : M value :=
  match Py.truthy_str video_id with
  | None =>
      ret (VDict [("error",
        VStr "You must provide a video_id (e.g., 'rfscVS0vtbw')")])
  | Some vid =>
      try_except
        (r <- match languages with
              | None => default_transcript_data vid
              | Some ls =>
                  transcript_data <- get_transcript vid ls ;;
                  ret (inr transcript_data)
              end ;;
         match r with
         | inl early => ret early
         | inr transcript_data => ret (transcript_result_of vid transcript_data)
         end)
        (fun error_msg => ret (transcript_error vid error_msg))
  end.

(** *** FAISS tools *)

Definition index_video (title transcript : string) (video_id : option string)
    : M value :=
  embedding <- lift (encode C transcript) ;;
  index_add embedding ;;;
  video_store_append
    (VDict [ ("title", VStr title);
             ("transcript", VStr transcript);
             ("video_id", match video_id with Some s => VStr s | None => VNone end) ]) ;;;
  ret (VDict [("status", VStr "indexed"); ("title", VStr title)]).

(** One pass of the loop [for i, idx in enumerate(I[0])]: the record
    joined to neighbour [idx], or nothing when the guard
    [idx < len(video_store)] fails. *)
Definition join_one (store : list value) (return_full_transcript : bool)
    (D0 : list Q) (i : nat) (idx : Z) : Exn + option value :=
  if idx <? Py.len_list store then
    match Py.list_getitem store idx with
    | inl e => inl e
    | inr record =>
        match Py.getitem record "title" with
        | inl e => inl e
        | inr title =>
            match Py.getitem record "video_id" with
            | inl e => inl e
            | inr vid =>
                let url := Py.get record "url" VNone in
                match nth_error D0 i with
                | None => inl Py.IndexError
                | Some dist =>
                    let video_data :=
                      [ ("title", title); ("video_id", vid); ("url", url);
                        ("similarity_score", VFloat (similarity_score dist)) ] in
                    if return_full_transcript then
                      match Py.getitem record "transcript" with
                      | inl e => inl e
                      | inr tr => inr (Some (VDict (video_data ++ [("transcript", tr)])))
                      end
                    else inr (Some (VDict video_data))
                end
            end
        end
    end
  else inr None.

Fixpoint join_results (store : list value) (return_full_transcript : bool)
    (D0 : list Q) (I0 : list Z) (i : nat) (results : list value)
    : Exn + list value :=
  match I0 with
  | [] => inr results
  | idx :: I0' =>
      match join_one store return_full_transcript D0 i idx with
      | inl e => inl e
      | inr None =>
          join_results store return_full_transcript D0 I0' (S i) results
      | inr (Some video_data) =>
          join_results store return_full_transcript D0 I0' (S i)
            (results ++ [video_data])
      end
  end.

Definition semantic_search (query : string) (top_k : Z)
    (return_full_transcript : bool) : M value :=
  st <- get_state ;;
  if Py.len_list (video_store st) =? 0 then
    ret (VDict [("error", VStr "No videos indexed yet. Use index_video first.")])
  else
    query_embedding <- lift (encode C query) ;;
    DI <- lift (Faiss.search (index st) query_embedding
                  (Z.min top_k (Py.len_list (video_store st)))) ;;
    results <- lift (join_results (video_store st) return_full_transcript
                       (fst DI) (snd DI) 0 []) ;;
    ret (VList results).

Definition fetch_and_index_transcript (video_id : string)
    (languages : option (list string)) : M value :=
  try_except
    (video_details <- get_video_details video_id ;;
     if Py.contains_key "error" video_details then ret video_details else
     transcript_result <- get_video_transcript (Some video_id) languages ;;
     if Py.contains_key "error" transcript_result then ret transcript_result else
     transcript_value <- lift (Py.getitem transcript_result "transcript") ;;
     transcript_text <- as_str transcript_value ;;
     embedding <- lift (encode C transcript_text) ;;
     index_add embedding ;;;
     title <- lift (Py.getitem video_details "title") ;;
     url <- lift (Py.getitem video_details "url") ;;
     video_store_append
       (VDict [ ("title", title);
                ("transcript", VStr transcript_text);
                ("video_id", VStr video_id);
                ("url", url) ]) ;;;
     title' <- lift (Py.getitem video_details "title") ;;
     ret (VDict [ ("status", VStr "indexed");
                  ("video_id", VStr video_id);
                  ("title", title');
                  ("transcript_length", VInt (Py.len_str transcript_text));
                  ("segments", Py.get transcript_result "segments" (VInt 0)) ]))
    (fun e =>
       ret (VDict [("error",
         VStr ("Failed to fetch and index transcript for " ++ video_id
                 ++ ": " ++ e))])).

(** The loop-carried variables of [bulk_index_channel_videos]. *)
Record Tally := mkTally {
  indexed_count : Z;
  failed_count : Z;
  results : list value
}.

(** The body of [for video in videos]. *)
Definition bulk_step (video : value) (acc : Tally) : M Tally :=
  vid_arg <- lift (Py.getitem video "video_id") ;;
  vid_opt <- as_opt_str vid_arg ;;
  availability <- check_transcript_availability vid_opt ;;
  if truthy (Py.get availability "has_transcripts" (VBool false)) then
    vid_arg' <- lift (Py.getitem video "video_id") ;;
    vid <- as_str vid_arg' ;;
    result <- fetch_and_index_transcript vid None ;;
    if Py.contains_key "error" result then
      v <- lift (Py.getitem video "video_id") ;;
      t <- lift (Py.getitem video "title") ;;
      err <- lift (Py.getitem result "error") ;;
      ret (mkTally (indexed_count acc) (failed_count acc + 1)
             (results acc ++ [VDict [ ("video_id", v); ("title", t);
                                       ("status", VStr "failed");
                                       ("error", err) ]]))
    else
      v <- lift (Py.getitem video "video_id") ;;
      t <- lift (Py.getitem video "title") ;;
      ret (mkTally (indexed_count acc + 1) (failed_count acc)
             (results acc ++ [VDict [ ("video_id", v); ("title", t);
                                       ("status", VStr "indexed");
                                       ("transcript_length",
                                          Py.get result "transcript_length" (VInt 0)) ]]))
  else
    v <- lift (Py.getitem video "video_id") ;;
    t <- lift (Py.getitem video "title") ;;
    ret (mkTally (indexed_count acc) (failed_count acc + 1)
           (results acc ++ [VDict [ ("video_id", v); ("title", t);
                                     ("status", VStr "no_transcript");
                                     ("error", VStr "No transcripts available") ]])).

Fixpoint bulk_loop (videos : list value) (acc : Tally) : M Tally :=
  match videos with
  | [] => ret acc
  | video :: rest =>
      acc' <- bulk_step video acc ;;
      bulk_loop rest acc'
  end.

Definition bulk_index_channel_videos (channel_id : string) (max_videos : Z)
    : M value :=
  try_except
    (videos <- get_latest_videos_from_channel channel_id max_videos ;;
     if Py.is_dict videos && Py.contains_key "error" videos then ret videos
     else
       video_list <- as_list videos ;;
       acc <- bulk_loop video_list (mkTally 0 0 []) ;;
       ret (VDict [ ("status", VStr "completed");
                    ("indexed", VInt (indexed_count acc));
                    ("failed", VInt (failed_count acc));
                    ("total_attempted", VInt (Py.len_list video_list));
                    ("details", VList (results acc)) ]))
    (fun e => ret (VDict [("error", VStr e)])).

(** *** Tool calls and reachable states *)

Inductive Call : Type :=
| CallIndexVideo (title transcript : string) (video_id : option string)
| CallSemanticSearch (query : string) (top_k : Z) (return_full_transcript : bool)
| CallFetchAndIndex (video_id : string) (languages : option (list string))
| CallBulkIndex (channel_id : string) (max_videos : Z)
| CallCheckAvailability (video_id : option string)
| CallGetTranscript (video_id : option string) (languages : option (list string))
| CallGetDetails (video_id : string)
| CallLatestVideos (channel_id : string) (max_results : Z).

Definition run (c : Call) : M value :=
  match c with
  | CallIndexVideo title transcript video_id => index_video title transcript video_id
  | CallSemanticSearch query top_k full => semantic_search query top_k full
  | CallFetchAndIndex video_id languages => fetch_and_index_transcript video_id languages
  | CallBulkIndex channel_id max_videos => bulk_index_channel_videos channel_id max_videos
  | CallCheckAvailability video_id => check_transcript_availability video_id
  | CallGetTranscript video_id languages => get_video_transcript video_id languages
  | CallGetDetails video_id => get_video_details video_id
  | CallLatestVideos channel_id max_results =>
      get_latest_videos_from_channel channel_id max_results
  end.

(** The states the process can be in: it starts with an empty index and
    an empty store and then serves tool calls; the remaining tools of the
    server, and time passing, touch the world only. *)
Inductive reachable : State -> Prop :=
| reach_initial (w : W) : reachable (initial w)
| reach_call (st : State) (c : Call) :
    reachable st -> reachable (snd (run c st))
| reach_world (st : State) (w : W) :
    reachable st -> reachable (mkState (index st) (video_store st) w).

End Server.

Arguments initial {W} w.
Arguments reachable {W} C st.

(** ** Vocabulary of the properties *)

Section Vocabulary.

Context {W : Type}.
Variable C : Collaborators W.

(** The state after a network call: the globals as they were. *)
Definition set_world (st : @State W) (w : W) : @State W :=
  mkState (index st) (video_store st) w.

(** [index] and [video_store] are the same in both states. *)
Definition same_db (st st' : @State W) : Prop :=
  index st' = index st /\ video_store st' = video_store st.

Definition opt_str (s : option string) : value :=
  match s with Some x => VStr x | None => VNone end.

(** The two shapes of a stored record, with the transcript each carries:
    the one [index_video] appends has no "url" key, the one
    [fetch_and_index_transcript] appends has one. *)
Inductive stored_record : value -> string -> Prop :=
| stored_by_index_video (title transcript : string) (video_id : option string) :
    stored_record
      (VDict [ ("title", VStr title); ("transcript", VStr transcript);
               ("video_id", opt_str video_id) ])
      transcript
| stored_by_fetch (title transcript video_id : string) :
    stored_record
      (VDict [ ("title", VStr title); ("transcript", VStr transcript);
               ("video_id", VStr video_id);
               ("url", VStr (watch_url video_id)) ])
      transcript.

(** Position [i] of the index holds the embedding of record [i]. *)
Definition aligned (v : Vector) (record : value) : Prop :=
  exists transcript, stored_record record transcript /\ encode C transcript = inr v.

Definition paired (st : @State W) : Prop :=
  Faiss.d (index st) = dimension /\
  Forall (fun v => List.length v = dimension) (Faiss.xb (index st)) /\
  Forall2 aligned (Faiss.xb (index st)) (video_store st).

(** [st'] is [st] with as many vectors as records appended, pairwise
    aligned. *)
Definition grows (st st' : @State W) : Prop :=
  Faiss.d (index st') = Faiss.d (index st) /\
  exists vs records,
    Faiss.xb (index st') = (Faiss.xb (index st) ++ vs)%list /\
    video_store st' = (video_store st ++ records)%list /\
    Forall (fun v => List.length v = Faiss.d (index st)) vs /\
    Forall2 aligned vs records.

(** [st'] is [st] with one vector and one record appended, both under the
    id [length (video_store st)]. *)
Definition appended (st st' : @State W) (v : Vector) (record : value) : Prop :=
  Faiss.d (index st') = Faiss.d (index st) /\
  Faiss.xb (index st') = (Faiss.xb (index st) ++ [v])%list /\
  video_store st' = (video_store st ++ [record])%list /\
  nth_error (Faiss.xb (index st')) (List.length (video_store st)) = Some v /\
  nth_error (video_store st') (List.length (video_store st)) = Some record.

(** What [fetch_and_index_transcript] stores and returns on success. *)
Definition fetched_record (video_id title transcript : string) : value :=
  VDict [ ("title", VStr title); ("transcript", VStr transcript);
          ("video_id", VStr video_id); ("url", VStr (watch_url video_id)) ].

Definition indexed_result (video_id title transcript : string)
    (segments : Z) : value :=
  VDict [ ("status", VStr "indexed"); ("video_id", VStr video_id);
          ("title", VStr title);
          ("transcript_length", VInt (Py.len_str transcript));
          ("segments", VInt segments) ].

(** What [index_video] stores. *)
Definition indexed_record (title transcript : string)
    (video_id : option string) : value :=
  VDict [ ("title", VStr title); ("transcript", VStr transcript);
          ("video_id", opt_str video_id) ].

(** The entry of [details] that a bulk run files for a candidate. *)
Inductive detail_for (item : SearchItem) : value -> Prop :=
| detail_indexed (transcript_length : value) :
    detail_for item
      (VDict [ ("video_id", VStr (item_videoId item));
               ("title", VStr (item_title item));
               ("status", VStr "indexed");
               ("transcript_length", transcript_length) ])
| detail_failed (error : value) :
    detail_for item
      (VDict [ ("video_id", VStr (item_videoId item));
               ("title", VStr (item_title item));
               ("status", VStr "failed");
               ("error", error) ])
| detail_no_transcript :
    detail_for item
      (VDict [ ("video_id", VStr (item_videoId item));
               ("title", VStr (item_title item));
               ("status", VStr "no_transcript");
               ("error", VStr "No transcripts available") ]).

(** Order of the hits of a search: nearer first, equal distances by id. *)
Definition hit_before (h1 h2 : Z * Q) : Prop :=
  (snd h1 < snd h2)%Q \/ ((snd h1 == snd h2)%Q /\ fst h1 < fst h2).

(** A hit names a stored vector and carries its distance to the query. *)
Definition hit_of (q : Vector) (vs : list Vector) (h : Z * Q) : Prop :=
  0 <= fst h /\
  exists v, nth_error vs (Z.to_nat (fst h)) = Some v /\ snd h = Faiss.l2sqr q v.

(** Every stored vector with its id (counted from [next_id]) and its
    distance to the query, in id order. *)
Fixpoint all_hits (q : Vector) (vs : list Vector) (next_id : Z) : list (Z * Q) :=
  match vs with
  | [] => []
  | v :: vs' => (next_id, Faiss.l2sqr q v) :: all_hits q vs' (next_id + 1)
  end.

(** The hits of a search are the [n] first of the stored vectors in the
    order [hit_before]. *)
Definition nearest (q : Vector) (vs : list Vector) (n : nat)
    (hits : list (Z * Q)) : Prop :=
  List.length hits = n /\
  exists others,
    Permutation (hits ++ others) (all_hits q vs 0) /\
    StronglySorted hit_before (hits ++ others).

(** The hits of [Faiss.search] for [k] neighbours, as (id, distance). *)
Definition search_hits (ix : Faiss.IndexFlatL2) (q : Vector) (k : Z)
    : list (Z * Q) :=
  firstn (Z.to_nat k) (Faiss.scan q (Faiss.xb ix) 0 []).

(** What [semantic_search] reports for a hit on [record]. *)
Definition video_data (return_full_transcript : bool) (record : value)
    (distance : Q) : value :=
  VDict ([ ("title", Py.get record "title" VNone);
           ("video_id", Py.get record "video_id" VNone);
           ("url", Py.get record "url" VNone);
           ("similarity_score", VFloat (similarity_score distance)) ]
         ++ if return_full_transcript
            then [("transcript", Py.get record "transcript" VNone)]
            else []).

Definition report (return_full_transcript : bool) (store : list value)
    (h : Z * Q) : value :=
  video_data return_full_transcript
    (nth (Z.to_nat (fst h)) store VNone) (snd h).

(** *** The resolver in the spec's words

    An ordered list of strategies, each yielding a transcript or nothing,
    stopping at the first success. *)

Definition manual_en (tracks : list Transcript) : option Transcript :=
  find (fun t => String.eqb (language_code t) "en" && negb (is_generated t)) tracks.

Definition generated_en (tracks : list Transcript) : option Transcript :=
  find (fun t => String.eqb (language_code t) "en" && is_generated t) tracks.

Definition attempt (t : option Transcript) (w : W) : option (list Segment) * W :=
  match t with
  | None => (None, w)
  | Some t =>
      match fetch C t w with
      | (inr data, w') => (Some data, w')
      | (inl _, w') => (None, w')
      end
  end.

Definition resolve_spec (video_id : string) (w : W) : value * W :=
  match list_transcripts C video_id w with
  | (inl e, w1) => (transcript_error video_id e, w1)
  | (inr tracks, w1) =>
      match attempt (manual_en tracks) w1 with
      | (Some data, w2) => (transcript_result_of C video_id data, w2)
      | (None, w2) =>
          match attempt (generated_en tracks) w2 with
          | (Some data, w3) => (transcript_result_of C video_id data, w3)
          | (None, w3) =>
              match tracks with
              | first :: _ =>
                  match fetch C first w3 with
                  | (inr data, w4) => (transcript_result_of C video_id data, w4)
                  | (inl e, w4) => (transcript_error video_id e, w4)
                  end
              | [] =>
                  (VDict [("error",
                     VStr ("No transcripts available for video " ++ video_id))], w3)
              end
          end
      end
  end.

(** *** The bulk report in the spec's words *)

Definition status_of (detail : value) : value := Py.get detail "status" VNone.

Definition has_status (s : string) (detail : value) : bool :=
  match status_of detail with
  | VStr x => String.eqb x s
  | _ => false
  end.

Definition count_status (s : string) (details : list value) : Z :=
  Z.of_nat (List.length (filter (has_status s) details)).

(** A BulkIngestionReport as the spec lists it: a failed count that
    leaves the no_transcript items to a count of their own. *)
Definition separate_counts (report : value) : Prop :=
  exists details,
    Py.get report "details" VNone = VList details /\
    Py.get report "failed" VNone = VInt (count_status "failed" details) /\
    exists key, key <> "failed" /\
      Py.getitem report key = inr (VInt (count_status "no_transcript" details)).

End Vocabulary.

(** ** A stub world

    Video "A" has a manual English track, "B" lists no tracks, "C" lists a
    generated English track whose download fails, "E" lists a French, a
    generated English and a manual English track, "F" a French track only.
    Discovery returns A, B, C.  The world is a call counter. *)

Module Stub.

Definition en_manual (v : string) : Transcript :=
  mkTranscript v "English" "en" false true.
Definition en_generated (v : string) : Transcript :=
  mkTranscript v "English (auto-generated)" "en" true true.
Definition fr_manual (v : string) : Transcript :=
  mkTranscript v "French" "fr" false true.

Definition tracks_of (v : string) : list Transcript :=
  if String.eqb v "A" then [en_manual v]
  else if String.eqb v "C" then [en_generated v]
  else if String.eqb v "E" then [fr_manual v; en_generated v; en_manual v]
  else if String.eqb v "F" then [fr_manual v]
  else [].

Definition stub_videos_list (v : string) (w : nat)
    : (Exn + option (list VideoResource)) * nat :=
  (inr (Some [mkVideoResource ("Title of " ++ v) "" "chan" "2024" []]), S w).

Definition stub_search_list (channel : string) (n : Z) (w : nat)
    : (Exn + option (list SearchItem)) * nat :=
  (inr (Some [ mkSearchItem "A" "Video A" "2024" "";
               mkSearchItem "B" "Video B" "2024" "";
               mkSearchItem "C" "Video C" "2024" "" ]), S w).

Definition stub_list_transcripts (v : string) (w : nat)
    : (Exn + list Transcript) * nat :=
  (inr (tracks_of v), S w).

Definition stub_fetch (t : Transcript) (w : nat)
    : (Exn + list Segment) * nat :=
  if String.eqb (of_video t) "C" then (inl "connection reset", S w)
  else (inr [mkSegment ("words of " ++ of_video t ++ " in " ++ language_code t) 0 1], S w).

(** A deterministic encoder: the text's length in the first component. *)
Definition stub_encode (s : string) : Exn + Vector :=
  inr (inject_Z (Z.of_nat (String.length s)) :: repeat 0%Q (dimension - 1)).

Definition stub_format (segs : list Segment) : string :=
  String.concat " " (map text segs).

(** The message of the caption library's NoTranscriptFound: it words the
    cause and does not name the exception's class. *)
Definition no_transcript_found (codes : list string) : Exn :=
  "Could not retrieve a transcript for the video! This is most likely "
  ++ "caused by: No transcripts were found for any of the requested "
  ++ "language codes: " ++ String.concat ", " codes.

Definition collaborators : Collaborators nat :=
  mkCollaborators stub_videos_list stub_search_list stub_list_transcripts
    stub_fetch stub_encode stub_format no_transcript_found.

Definition start : @State nat := initial 0%nat.

(** The stub encoder's vector for a text of [n] characters. *)
Definition vector_of (n : Z) : Vector :=
  inject_Z n :: repeat 0%Q (dimension - 1).

(** After [index_video("T", "hello world")]. *)
Definition one : @State nat :=
  snd (index_video collaborators "T" "hello world" None start).

(** ... and then [fetch_and_index_transcript("A")]. *)
Definition two : @State nat :=
  snd (fetch_and_index_transcript collaborators "A" None one).

(** After [index_video("S", "hello world")], and after a second video
    with the same transcript. *)
Definition older : @State nat :=
  snd (index_video collaborators "S" "hello world" None start).

Definition both : @State nat :=
  snd (index_video collaborators "T" "hello world" None older).

End Stub.

(** ** The remaining tools of the server

    The YouTube wrappers that neither read nor write the index:
    [search_youtube], [get_channel_stats], [get_channel_id_by_username],
    [get_video_stats], [compare_video_stats], [search_and_analyze_videos],
    [find_videos_with_transcripts], [get_video_comments]. *)

Module PyMore.

(** [d[k] = v] on a dict: an existing key keeps its place, a new key goes
    last. *)
Fixpoint assoc_set (k : string) (v : value) (d : list (string * value))
    : list (string * value) :=
  match d with
  | [] => [(k, v)]
  | (k', x) :: d' =>
      if String.eqb k k' then (k', v) :: d' else (k', x) :: assoc_set k v d'
  end.

(** [copy = d.copy(); copy[k] = v] *)
Definition copy_setitem (d : value) (k : string) (v : value) : Exn + value :=
  match d with
  | VDict l => inr (VDict (assoc_set k v l))
  | _ => inl Py.TypeError
  end.

(** One step of a stable sort in descending key order: the new element goes
    behind every element whose key is at least its own. *)
Fixpoint insert_desc (x : Z * value) (l : list (Z * value)) : list (Z * value) :=
  match l with
  | [] => [x]
  | y :: l' => if fst x <=? fst y then y :: insert_desc x l' else x :: l
  end.

(** [sorted(l, key=..., reverse=True)] on elements paired with their keys.
    Python's sort is stable, also with [reverse=True]; a stable sort has one
    result, the one insertion in list order gives. *)
Definition sorted_desc (l : list (Z * value)) : list (Z * value) :=
  fold_left (fun acc x => insert_desc x acc) l [].

(** [l[0] if l else None] *)
Definition first_or_none (l : list (Z * value)) : value :=
  match l with
  | [] => VNone
  | x :: _ => snd x
  end.

End PyMore.

(** Items of the further YouTube Data API responses. *)
Record QueryItem := mkQueryItem {
  q_title : string;
  q_videoId : string;
  q_channelTitle : string;
  q_publishedAt : string;
  q_description : string
}.

Record ChannelHit := mkChannelHit {
  hit_channelId : string;
  hit_title : string
}.

Record CommentItem := mkCommentItem {
  authorDisplayName : string;
  textDisplay : string;
  likeCount : Z;
  comment_publishedAt : string
}.

(** The further requests of the server, and Python's [int()], which the
    tools apply to what the API sent.  A statistics object is the dict the
    API returned. *)
Record YouTubeApi (W : Type) := mkYouTubeApi {
  (* search().list(q=..., type="video", order="relevance") *)
  search_list_query : string -> Z -> W -> (Exn + option (list QueryItem)) * W;
  (* search().list(q=..., type="channel", maxResults=1) *)
  search_list_channels : string -> W -> (Exn + option (list ChannelHit)) * W;
  (* channels().list(part="statistics") *)
  channels_list : string -> W -> (Exn + option (list (list (string * value)))) * W;
  (* videos().list(part="statistics") *)
  videos_list_statistics :
    string -> W -> (Exn + option (list (list (string * value)))) * W;
  (* commentThreads().list(...) *)
  comment_threads_list : string -> Z -> W -> (Exn + option (list CommentItem)) * W;
  (* int(x) *)
  int_of : value -> Exn + Z
}.

Section MoreTools.

Context {W : Type}.
Variable C : Collaborators W.
Variable Y : YouTubeApi W.

Local Notation "x <- m ;; k" := (bind m (fun x => k))
  (at level 100, m at next level, right associativity) : tool_scope.
Local Open Scope tool_scope.

Definition search_result_of (item : QueryItem) : value :=
  VDict [ ("title", VStr (q_title item));
          ("video_id", VStr (q_videoId item));
          ("url", VStr (watch_url (q_videoId item)));
          ("channel", VStr (q_channelTitle item));
          ("published", VStr (q_publishedAt item));
          ("description", VStr (q_description item)) ].

Definition search_youtube (query : string) (max_results : Z) : @M W value :=
  response <- call (search_list_query Y query max_results) ;;
  let items := match response with Some l => l | None => [] end in
  ret (VList (map search_result_of items)).

Definition get_channel_stats (channel_id : string) : @M W value :=
  response <- call (channels_list Y channel_id) ;;
  match response with
  | None | Some [] => ret (VDict [("error", VStr "Channel not found")])
  | Some (statistics :: _) =>
      let stats := VDict statistics in
      ret (VDict [ ("subscribers", Py.get stats "subscriberCount" VNone);
                   ("views", Py.get stats "viewCount" VNone);
                   ("videos", Py.get stats "videoCount" VNone) ])
  end.

Definition get_channel_id_by_username (username : string) : @M W value :=
  try_except
    (response <- call (search_list_channels Y username) ;;
     match response with
     | Some (hit :: _) =>
         ret (VDict [ ("channel_id", VStr (hit_channelId hit));
                      ("channel_title", VStr (hit_title hit)) ])
     | _ =>
         ret (VDict [("error", VStr ("Channel '" ++ username ++ "' not found"))])
     end)
    (fun e => ret (VDict [("error", VStr e)])).

Definition get_video_stats (video_id : string) : @M W value :=
  try_except
    (response <- call (videos_list_statistics Y video_id) ;;
     match response with
     | None | Some [] => ret (VDict [("error", VStr "Video not found")])
     | Some (statistics :: _) =>
         let stats := VDict statistics in
         ret (VDict [ ("views", Py.get stats "viewCount" VNone);
                      ("likes", Py.get stats "likeCount" VNone);
                      ("comments", Py.get stats "commentCount" VNone) ])
     end)
    (fun e => ret (VDict [("error", VStr e)])).

(** The [try] body of one pass of [compare_video_stats]: the entry to
    append, or none when the video was not found. *)
Definition compare_entry (video_id : string) : @M W (option value) :=
  response <- call (videos_list C video_id) ;;
  match response with
  | Some (item :: _) =>
      let stats := VDict (statistics item) in
      views <- lift (int_of Y (Py.get stats "viewCount" (VInt 0))) ;;
      likes <- lift (int_of Y (Py.get stats "likeCount" (VInt 0))) ;;
      comments <- lift (int_of Y (Py.get stats "commentCount" (VInt 0))) ;;
      ret (Some (VDict [ ("video_id", VStr video_id);
                         ("title", VStr (snippet_title item));
                         ("views", VInt views);
                         ("likes", VInt likes);
                         ("comments", VInt comments);
                         ("url", VStr (watch_url video_id)) ]))
  | _ => ret None
  end.

Fixpoint compare_loop (video_ids : list string) (results : list value)
    : @M W (list value) :=
  match video_ids with
  | [] => ret results
  | video_id :: rest =>
      results' <-
        try_except
          (entry <- compare_entry video_id ;;
           ret (match entry with
                | Some e => results ++ [e]
                | None => results
                end)%list)
          (fun e =>
             ret (results ++ [VDict [ ("video_id", VStr video_id);
                                       ("error", VStr e) ]])%list) ;;
      compare_loop rest results'
  end.

Definition compare_video_stats (video_ids : list string) : @M W value :=
  results <- compare_loop video_ids [] ;;
  ret (VList results).

(** The loop of [search_and_analyze_videos]: the details of every search
    result that has some. *)
Fixpoint analyze_loop (search_results : list value) (analyzed_videos : list value)
    : @M W (list value) :=
  match search_results with
  | [] => ret analyzed_videos
  | video :: rest =>
      vid_arg <- lift (Py.getitem video "video_id") ;;
      vid <- as_str vid_arg ;;
      video_details <- get_video_details C vid ;;
      if negb (Py.contains_key "error" video_details)
      then analyze_loop rest (analyzed_videos ++ [video_details])%list
      else analyze_loop rest analyzed_videos
  end.

(** The keys [int(x.get(field, 0))] of a sort, each with its element; the
    first key that cannot be computed raises. *)
Fixpoint keyed (field : string) (videos : list value) : Exn + list (Z * value) :=
  match videos with
  | [] => inr []
  | x :: rest =>
      match int_of Y (Py.get x field (VInt 0)) with
      | inl e => inl e
      | inr k =>
          match keyed field rest with
          | inl e => inl e
          | inr l => inr ((k, x) :: l)
          end
      end
  end.

(** [sorted(videos, key=lambda x: int(x.get(field, 0)), reverse=True)] *)
Definition sorted_by (field : string) (videos : list value)
    : @M W (list (Z * value)) :=
  ks <- lift (keyed field videos) ;;
  ret (PyMore.sorted_desc ks).

Definition search_and_analyze_videos (query : string) (max_results : Z)
    : @M W value :=
  try_except
    (search_results <- search_youtube query max_results ;;
     results <- as_list search_results ;;
     analyzed_videos <- analyze_loop results [] ;;
     by_views <- sorted_by "views" analyzed_videos ;;
     by_likes <- sorted_by "likes" analyzed_videos ;;
     by_comments <- sorted_by "comments" analyzed_videos ;;
     ret (VDict [ ("query", VStr query);
                  ("total_videos", VInt (Py.len_list analyzed_videos));
                  ("most_viewed", PyMore.first_or_none by_views);
                  ("most_liked", PyMore.first_or_none by_likes);
                  ("most_commented", PyMore.first_or_none by_comments);
                  ("all_videos", VList analyzed_videos) ]))
    (fun e => ret (VDict [("error", VStr e)])).

(** The body of the loop of [find_videos_with_transcripts]. *)
Definition find_step (video : value) (videos_with_transcripts : list value)
    : @M W (list value) :=
  vid_arg <- lift (Py.getitem video "video_id") ;;
  vid_opt <- as_opt_str vid_arg ;;
  availability <- check_transcript_availability C vid_opt ;;
  if truthy (Py.get availability "has_transcripts" (VBool false)) then
    info <- lift (Py.getitem availability "available_transcripts") ;;
    video_info <- lift (PyMore.copy_setitem video "transcript_info" info) ;;
    ret (videos_with_transcripts ++ [video_info])%list
  else ret videos_with_transcripts.

Fixpoint find_loop (videos : list value) (videos_with_transcripts : list value)
    : @M W (list value) :=
  match videos with
  | [] => ret videos_with_transcripts
  | video :: rest =>
      acc <- find_step video videos_with_transcripts ;;
      find_loop rest acc
  end.

Definition find_videos_with_transcripts (query channel_id : option string)
    (max_results : Z) : @M W value :=
  try_except
    (videos <-
       match Py.truthy_str query with
       | Some q => search_youtube q max_results
       | None =>
           match Py.truthy_str channel_id with
           | Some c => get_latest_videos_from_channel C c max_results
           | None => get_latest_videos_from_channel C DEFAULT_CHANNEL_ID max_results
           end
       end ;;
     if Py.is_dict videos && Py.contains_key "error" videos then ret videos
     else
       video_list <- as_list videos ;;
       videos_with_transcripts <- find_loop video_list [] ;;
       ret (VDict [ ("total_checked", VInt (Py.len_list video_list));
                    ("videos_with_transcripts",
                       VInt (Py.len_list videos_with_transcripts));
                    ("videos", VList videos_with_transcripts) ]))
    (fun e => ret (VDict [("error", VStr e)])).

Definition comment_of (c : CommentItem) : value :=
  VDict [ ("author", VStr (authorDisplayName c));
          ("text", VStr (textDisplay c));
          ("likes", VInt (likeCount c));
          ("published", VStr (comment_publishedAt c)) ].

Definition get_video_comments (video_id : string) (max_results : Z)
    : @M W value :=
  response <- call (comment_threads_list Y video_id max_results) ;;
  let items := match response with Some l => l | None => [] end in
  ret (VList (map comment_of items)).

End MoreTools.

(** ** Vocabulary of the further properties *)

Section MoreVocabulary.

Context {W : Type}.
Variable C : Collaborators W.
Variable Y : YouTubeApi W.

(** The videos that [find_videos_with_transcripts] checks: the results of
    the keyword search when a query is given, else the latest videos of the
    channel given, else those of the default channel. *)
Definition discovered (query channel_id : option string) (max_results : Z)
    (w : W) : Exn + list value :=
  match Py.truthy_str query with
  | Some q =>
      match fst (search_list_query Y q max_results w) with
      | inl e => inl e
      | inr response =>
          inr (map search_result_of match response with Some l => l | None => [] end)
      end
  | None =>
      let channel := match Py.truthy_str channel_id with
                     | Some c => c
                     | None => DEFAULT_CHANNEL_ID
                     end in
      match fst (search_list C channel max_results w) with
      | inl e => inl e
      | inr response =>
          inr (map video_data_of match response with Some l => l | None => [] end)
      end
  end.

(** [needle] occurs in [hay]. *)
Definition occurs_in (needle hay : string) : Prop :=
  exists before after, hay = (before ++ needle ++ after)%string.

(** [sub] is [l] with some elements left out, the others in their order. *)
Inductive subsequence {A : Type} : list A -> list A -> Prop :=
| subsequence_nil : subsequence [] []
| subsequence_take (x : A) (sub l : list A) :
    subsequence sub l -> subsequence (x :: sub) (x :: l)
| subsequence_skip (x : A) (sub l : list A) :
    subsequence sub l -> subsequence sub (x :: l).

(** The "similarity_score" of a reported entry, 0 when there is none. *)
Definition score_of (reported : value) : Q :=
  match Py.get reported "similarity_score" VNone with
  | VFloat q => q
  | _ => 0%Q
  end.

(** The entry of [compare_video_stats] for a video whose lookup raised. *)
Definition compare_error (video_id : string) (e : Exn) : value :=
  VDict [("video_id", VStr video_id); ("error", VStr e)].

(** The "video_id" a result entry carries. *)
Definition video_id_of (entry : value) : value := Py.get entry "video_id" VNone.

(** The entry of [compare_video_stats] for a video that was found. *)
Definition compare_stats (video_id title : string) (views likes comments : Z)
    : value :=
  VDict [ ("video_id", VStr video_id); ("title", VStr title);
          ("views", VInt views); ("likes", VInt likes);
          ("comments", VInt comments); ("url", VStr (watch_url video_id)) ].

(** [found] is the candidate [video] with "transcript_info" set. *)
Definition with_transcript_info (video found : value) : Prop :=
  exists d info,
    video = VDict d /\
    found = VDict (PyMore.assoc_set "transcript_info" info d).

(** The details that [search_and_analyze_videos] keeps of the search
    results [items], from state to state: what [get_video_details] returns
    for each result in turn, one without an "error" key being kept and one
    with it dropped. *)
Inductive analyzed : list QueryItem -> @State W -> list value -> @State W -> Prop :=
| analyzed_nil (st : @State W) : analyzed [] st [] st
| analyzed_kept (item : QueryItem) (items : list QueryItem)
    (st st1 st2 : @State W) (details : value) (all : list value) :
    get_video_details C (q_videoId item) st = (Return details, st1) ->
    Py.contains_key "error" details = false ->
    analyzed items st1 all st2 ->
    analyzed (item :: items) st (details :: all) st2
| analyzed_dropped (item : QueryItem) (items : list QueryItem)
    (st st1 st2 : @State W) (details : value) (all : list value) :
    get_video_details C (q_videoId item) st = (Return details, st1) ->
    Py.contains_key "error" details = true ->
    analyzed items st1 all st2 ->
    analyzed (item :: items) st all st2.

(** [int(x.get(field, 0))] has a value. *)
Definition convertible (int : value -> Exn + Z) (field : string) (x : value)
    : Prop :=
  exists k, int (Py.get x field (VInt 0)) = inr k.

(** [int(x.get(field, 0))] raises [e] for some [x] of [videos], and not
    for an earlier one. *)
Definition first_rejected (int : value -> Exn + Z) (field : string)
    (videos : list value) (e : Exn) : Prop :=
  exists before x after,
    videos = (before ++ x :: after)%list /\
    Forall (convertible int field) before /\
    int (Py.get x field (VInt 0)) = inl e.

(** [top] is the first of [videos] among those with the greatest count
    [int(x.get(field, 0))]; [None] when there is no video. *)
Definition top_by (int : value -> Exn + Z) (field : string)
    (videos : list value) (top : value) : Prop :=
  match videos with
  | [] => top = VNone
  | _ :: _ =>
      exists before after k,
        videos = (before ++ top :: after)%list /\
        int (Py.get top field (VInt 0)) = inr k /\
        Forall (fun x => exists kx,
                    int (Py.get x field (VInt 0)) = inr kx /\ kx < k) before /\
        Forall (fun x => exists kx,
                    int (Py.get x field (VInt 0)) = inr kx /\ kx <= k) after
  end.

End MoreVocabulary.

(** ** A stub of the further requests *)

Module StubApi.

(** Decimal digits only. *)
Fixpoint digits (s : string) (acc : Z) : option Z :=
  match s with
  | EmptyString => Some acc
  | String c rest =>
      let n := Z.of_nat (nat_of_ascii c) - 48 in
      if (0 <=? n) && (n <=? 9) then digits rest (acc * 10 + n) else None
  end.

Definition stub_int (v : value) : Exn + Z :=
  match v with
  | VInt n => inr n
  | VStr (String c r) =>
      match digits (String c r) 0 with
      | Some n => inr n
      | None => inl "invalid literal for int()"
      end
  | _ => inl "invalid literal for int()"
  end.

Definition stub_search_query (q : string) (n : Z) (w : nat)
    : (Exn + option (list QueryItem)) * nat :=
  (inr (Some [ mkQueryItem "Video A" "A" "chan" "2024" "";
               mkQueryItem "Video B" "B" "chan" "2024" "";
               mkQueryItem "Video E" "E" "chan" "2024" "" ]), S w).

Definition stub_search_channels (u : string) (w : nat)
    : (Exn + option (list ChannelHit)) * nat :=
  (inr (Some [mkChannelHit "UC1" u]), S w).

Definition stub_channels (c : string) (w : nat)
    : (Exn + option (list (list (string * value)))) * nat :=
  (inr (Some [[("viewCount", VStr "12"); ("videoCount", VStr "3")]]), S w).

Definition stub_video_statistics (v : string) (w : nat)
    : (Exn + option (list (list (string * value)))) * nat :=
  (inr (Some [[("viewCount", VStr "7")]]), S w).

Definition stub_comments (v : string) (n : Z) (w : nat)
    : (Exn + option (list CommentItem)) * nat :=
  (inr (Some [mkCommentItem "ann" "nice" 2 "2024"]), S w).

Definition api : YouTubeApi nat :=
  mkYouTubeApi stub_search_query stub_search_channels stub_channels
    stub_video_statistics stub_comments stub_int.

(** Videos "X" (not found), "Y" (the request fails) and any other (found,
    with the view count "5" for "A" and "9" otherwise). *)
Definition stub_videos_list (v : string) (w : nat)
    : (Exn + option (list VideoResource)) * nat :=
  if String.eqb v "X" then (inr (Some []), S w)
  else if String.eqb v "Y" then (inl "quota exceeded", S w)
  else (inr (Some [mkVideoResource ("Title of " ++ v) "" "chan" "2024"
                     [("viewCount", VStr (if String.eqb v "A" then "5" else "9"))]]),
        S w).

(** Listing the tracks of video "D" fails; the others are as before. *)
Definition stub_list_transcripts (v : string) (w : nat)
    : (Exn + list Transcript) * nat :=
  if String.eqb v "D" then (inl "TranscriptsDisabled for D", S w)
  else Stub.stub_list_transcripts v w.

Definition collaborators : Collaborators nat :=
  mkCollaborators stub_videos_list Stub.stub_search_list
    stub_list_transcripts Stub.stub_fetch Stub.stub_encode
    Stub.stub_format Stub.no_transcript_found.

End StubApi.

(** * Properties *)

Unset Implicit Arguments.
Local Open Scope list_scope.

(** ** Python helpers *)

Section Helpers.

Lemma prefix_occurs (needle hay : string) :
  String.prefix needle hay = true <-> exists after, hay = (needle ++ after)%string.
Proof.
  revert hay. induction needle as [| a needle IH]; intros hay.
  - destruct hay; cbn; (split; [intros _; eexists; reflexivity | reflexivity]).
  - destruct hay as [| b hay]; cbn [String.prefix String.append].
    + split; [discriminate | intros (after & H); discriminate].
    + destruct (ascii_dec a b) as [-> | Hne].
      * rewrite IH. split; intros (after & H); exists after; congruence.
      * split; [discriminate | intros (after & H); congruence].
Qed.

Lemma str_contains_occurs (needle hay : string) :
  Py.str_contains needle hay = true <-> occurs_in needle hay.
Proof.
  unfold occurs_in. induction hay as [| c hay IH]; cbn [Py.str_contains].
  - destruct (String.prefix needle "") eqn:E.
    + split; [intros _ | reflexivity].
      apply prefix_occurs in E. destruct E as (after & H).
      exists ""%string, after. exact H.
    + split; [discriminate |].
      intros (before & after & H). exfalso.
      destruct before; cbn in H; [| discriminate].
      assert (String.prefix needle "" = true)
        by (apply prefix_occurs; exists after; exact H).
      congruence.
  - destruct (String.prefix needle (String c hay)) eqn:E.
    + split; [intros _ | reflexivity].
      apply prefix_occurs in E. destruct E as (after & H).
      exists ""%string, after. exact H.
    + rewrite IH. split.
      * intros (before & after & ->). exists (String c before), after. reflexivity.
      * intros (before & after & H). destruct before as [| b before]; cbn in H.
        -- exfalso.
           assert (String.prefix needle (String c hay) = true)
             by (apply prefix_occurs; exists after; exact H).
           congruence.
        -- injection H as _ H. exists before, after. exact H.
Qed.

Lemma str_contains_not_occurs (needle hay : string) :
  Py.str_contains needle hay = false <-> ~ occurs_in needle hay.
Proof.
  rewrite <- str_contains_occurs. destruct (Py.str_contains needle hay);
    split; intros H; try reflexivity; try discriminate; congruence.
Qed.

(** [len] counts code points: the two bytes of an accented letter count
    once, and on ASCII text [len] is the number of bytes. *)
Lemma len_str_code_points :
  let e_acute := String (ascii_of_nat 195) (String (ascii_of_nat 169) "") in
  Py.len_str ("caf" ++ e_acute) = 4 /\
  String.length ("caf" ++ e_acute) = 5%nat /\
  Py.len_str "hello world" = 11.
Proof. repeat split. Qed.

End Helpers.

(** ** Rounding to an integer *)

Section Rint.

Local Open Scope Q_scope.

Lemma rint_comp (x y : Q) : (x == y)%Q -> Py.rint x = Py.rint y.
Proof.
  intros H. unfold Py.rint. rewrite (Qfloor_comp _ _ H).
  assert (Hc : ((x - inject_Z (Qfloor y)) ?= (1 # 2))%Q
               = ((y - inject_Z (Qfloor y)) ?= (1 # 2))%Q).
  { apply Qcompare_comp; [rewrite H |]; reflexivity. }
  rewrite Hc. reflexivity.
Qed.

Lemma rint_bounds (x : Q) :
  (Qfloor x <= Py.rint x <= Qfloor x + 1)%Z.
Proof.
  unfold Py.rint.
  destruct (Qcompare _ _); [destruct (Z.even _) | |]; lia.
Qed.

Lemma rint_monotone (x y : Q) : (x <= y)%Q -> (Py.rint x <= Py.rint y)%Z.
Proof.
  intros Hxy.
  pose proof (Qfloor_resp_le _ _ Hxy) as Hf.
  pose proof (rint_bounds x) as Bx. pose proof (rint_bounds y) as By.
  destruct (Z.eq_dec (Qfloor x) (Qfloor y)) as [E | NE]; [| lia].
  unfold Py.rint in *. rewrite <- E in *.
  set (f := Qfloor x) in *.
  assert (Hd : (x - inject_Z f <= y - inject_Z f)%Q).
  { apply Qplus_le_compat; [exact Hxy | apply Qle_refl]. }
  destruct (Qcompare_spec (x - inject_Z f) (1 # 2)) as [Ex | Lx | Gx];
    destruct (Qcompare_spec (y - inject_Z f) (1 # 2)) as [Ey | Ly | Gy];
    try destruct (Z.even f); try lia; exfalso; apply (Qlt_irrefl (1 # 2));
    first [ rewrite Ex in Hd; eapply Qle_lt_trans; eassumption
          | rewrite Ey in Hd; eapply Qlt_le_trans; eassumption
          | eapply Qlt_le_trans; [exact Gx |];
            eapply Qle_trans; [exact Hd |]; apply Qlt_le_weak; exact Ly ].
Qed.

Lemma rint_integer (n : Z) : Py.rint (inject_Z n) = n.
Proof.
  unfold Py.rint. rewrite Qfloor_Z.
  destruct (Qcompare_spec (inject_Z n - inject_Z n) (1 # 2)) as [E | L | G].
  - exfalso. assert (H : inject_Z n - inject_Z n == 0) by ring.
    rewrite H in E. discriminate E.
  - reflexivity.
  - exfalso. assert (H : inject_Z n - inject_Z n == 0) by ring.
    rewrite H in G. discriminate G.
Qed.

Lemma rint_error (x : Q) : Qabs (inject_Z (Py.rint x) - x) <= 1 # 2.
Proof.
  apply Qabs_Qle_condition.
  pose proof (Qfloor_le x) as Hlo. pose proof (Qlt_floor x) as Hhi.
  rewrite inject_Z_plus in Hhi. change (inject_Z 1) with 1 in Hhi.
  unfold Py.rint.
  destruct (Qcompare_spec (x - inject_Z (Qfloor x)) (1 # 2)) as [E | L | G];
    [destruct (Z.even (Qfloor x)) | |];
    rewrite ?inject_Z_plus; change (inject_Z 1) with 1; lra.
Qed.

End Rint.

(** ** Single precision *)

Section SinglePrecision.

Import Float32.
Local Open Scope Q_scope.

Lemma pow2_pos (e : Z) : 0 < pow2 e.
Proof. apply Qpower_0_lt. reflexivity. Qed.

Lemma pow2_add (a b : Z) : pow2 (a + b) == pow2 a * pow2 b.
Proof. apply Qpower_plus. discriminate. Qed.

Lemma pow2_le (a b : Z) : (a <= b)%Z -> pow2 a <= pow2 b.
Proof. intros H. apply Qpower_le_compat_l; [exact H | discriminate]. Qed.

Lemma pow2_lt (a b : Z) : (a < b)%Z -> pow2 a < pow2 b.
Proof. intros H. apply Qpower_lt_compat_l; [exact H | reflexivity]. Qed.

Lemma pow2_lt_inv (a b : Z) : pow2 a < pow2 b -> (a < b)%Z.
Proof. intros H. eapply Qpower_lt_compat_l_inv; [exact H | reflexivity]. Qed.

Lemma pow2_Z (e : Z) : (0 <= e)%Z -> pow2 e == inject_Z (2 ^ e).
Proof. intros H. unfold pow2. rewrite (Zpower_Qpower 2 e H). reflexivity. Qed.

Lemma pow2_succ (e : Z) : pow2 (e + 1) == 2 * pow2 e.
Proof. rewrite pow2_add. change (pow2 1) with 2. ring. Qed.

(** A positive integer lies between two powers of two. *)
Lemma log2_Q (n : Z) :
  (0 < n)%Z ->
  pow2 (Z.log2 n) <= inject_Z n /\ inject_Z n < pow2 (Z.log2 n + 1).
Proof.
  intros Hn. destruct (Z.log2_spec n Hn) as [Hlo Hhi].
  pose proof (Z.log2_nonneg n) as H0.
  rewrite !pow2_Z by lia. rewrite <- Zle_Qle, <- Zlt_Qlt.
  split; [exact Hlo |]. replace (Z.log2 n + 1)%Z with (Z.succ (Z.log2 n)) by lia.
  exact Hhi.
Qed.

Lemma ilog2_spec (x : Q) :
  0 < x -> pow2 (ilog2 x) <= x /\ x < pow2 (ilog2 x + 1).
Proof.
  intros Hx. destruct x as [n d].
  assert (Hn : (0 < n)%Z).
  { unfold Qlt in Hx; cbn [Qnum Qden] in Hx. lia. }
  destruct (log2_Q n Hn) as [Hn1 Hn2].
  destruct (log2_Q (Zpos d) eq_refl) as [Hd1 Hd2].
  assert (Hx' : (n # d) * inject_Z (Zpos d) == inject_Z n).
  { unfold Qeq, Qmult, inject_Z; cbn [Qnum Qden]. rewrite Pos.mul_1_r, Z.mul_1_r.
    reflexivity. }
  assert (Hdpos : 0 < inject_Z (Zpos d)) by reflexivity.
  unfold ilog2; cbn [Qnum Qden].
  set (ln := Z.log2 n) in *. set (ld := Z.log2 (Zpos d)) in *.
  set (D := inject_Z (Zpos d)) in *. set (N := inject_Z n) in *.
  assert (Hup : (n # d) < pow2 (ln - ld + 1)).
  { apply (Qmult_lt_r _ _ D Hdpos). rewrite Hx'.
    apply Qlt_le_trans with (pow2 (ln + 1)); [exact Hn2 |].
    replace (ln + 1)%Z with ((ln - ld + 1) + ld)%Z by lia. rewrite pow2_add.
    apply Qmult_le_l; [apply pow2_pos | exact Hd1]. }
  assert (Hdn : pow2 (ln - ld - 1) <= (n # d)).
  { apply (Qmult_le_r _ _ D Hdpos). rewrite Hx'.
    apply Qle_trans with (pow2 ln); [| exact Hn1].
    replace ln with ((ln - ld - 1) + (ld + 1))%Z at 2 by lia. rewrite pow2_add.
    apply Qmult_le_l; [apply pow2_pos | apply Qlt_le_weak; exact Hd2]. }
  destruct (Qle_bool (pow2 (ln - ld)) (n # d)) eqn:E.
  - apply Qle_bool_iff in E. split; assumption.
  - split; [exact Hdn |].
    replace (ln - ld - 1 + 1)%Z with (ln - ld)%Z by lia.
    apply Qnot_le_lt. intros H. apply Qle_bool_iff in H. congruence.
Qed.

Lemma ilog2_unique (x : Q) (e : Z) :
  pow2 e <= x -> x < pow2 (e + 1) -> ilog2 x = e.
Proof.
  intros Hlo Hhi.
  assert (Hx : 0 < x) by (eapply Qlt_le_trans; [apply pow2_pos | exact Hlo]).
  destruct (ilog2_spec x Hx) as [Hlo' Hhi'].
  assert (H1 : (ilog2 x < e + 1)%Z).
  { apply pow2_lt_inv. eapply Qle_lt_trans; eassumption. }
  assert (H2 : (e < ilog2 x + 1)%Z).
  { apply pow2_lt_inv. eapply Qle_lt_trans; eassumption. }
  lia.
Qed.

Lemma ilog2_comp (x y : Q) : 0 < x -> x == y -> ilog2 x = ilog2 y.
Proof.
  intros Hx E. destruct (ilog2_spec x Hx) as [Hlo Hhi].
  symmetry. apply ilog2_unique; rewrite <- E; assumption.
Qed.

Lemma ilog2_monotone (x y : Q) : 0 < x -> x <= y -> (ilog2 x <= ilog2 y)%Z.
Proof.
  intros Hx Hxy.
  assert (Hy : 0 < y) by (eapply Qlt_le_trans; eassumption).
  destruct (ilog2_spec x Hx) as [Hlo _]. destruct (ilog2_spec y Hy) as [_ Hhi].
  assert (H : (ilog2 x < ilog2 y + 1)%Z).
  { apply pow2_lt_inv. eapply Qle_lt_trans; [exact Hlo |].
    eapply Qle_lt_trans; eassumption. }
  lia.
Qed.

Lemma round_value (x : Q) :
  round x == inject_Z (Py.rint (x / pow2 (exponent x))) * pow2 (exponent x).
Proof. unfold round. apply Qred_correct. Qed.

Lemma exponent_positive (x : Q) :
  0 < x -> exponent x = Z.max (ilog2 x - 23) (-149).
Proof.
  intros Hx. unfold exponent. f_equal. f_equal.
  symmetry. apply ilog2_comp; [exact Hx |].
  symmetry. apply Qabs_pos. apply Qlt_le_weak; exact Hx.
Qed.

Lemma round_of_zero (x : Q) : x == 0 -> round x = 0.
Proof.
  intros H. unfold round.
  rewrite (rint_comp (x / pow2 (exponent x)) (inject_Z 0)).
  - rewrite rint_integer.
    transitivity (Qred 0); [apply Qred_complete; ring | reflexivity].
  - generalize (pow2 (exponent x)). intros p. rewrite H.
    change (inject_Z 0) with 0. unfold Qdiv. ring.
Qed.

Lemma round_comp (x y : Q) : x == y -> round x = round y.
Proof.
  intros E. destruct (Qeq_dec x 0) as [Hz | Hnz].
  - rewrite (round_of_zero x Hz), (round_of_zero y); [reflexivity |].
    rewrite <- E. exact Hz.
  - assert (Hq : exponent x = exponent y).
    { unfold exponent. f_equal. f_equal. apply ilog2_comp.
      - destruct (Qlt_le_dec 0 (Qabs x)) as [H | H]; [exact H | exfalso].
        apply Hnz. pose proof (Qabs_nonneg x) as H0.
        assert (Ha : Qabs x == 0) by (apply Qle_antisym; assumption).
        destruct (Qabs_Qle_condition x 0) as [Hc _].
        destruct Hc as [Hc1 Hc2]; [rewrite Ha; apply Qle_refl |].
        apply Qle_antisym; assumption.
      - rewrite E. reflexivity. }
    unfold round. rewrite <- Hq.
    rewrite (rint_comp (x / pow2 (exponent x)) (y / pow2 (exponent x)))
      by (apply Qdiv_comp; [exact E | reflexivity]).
    reflexivity.
Qed.

Lemma round_nonneg (x : Q) : 0 <= x -> 0 <= round x.
Proof.
  intros Hx. rewrite round_value.
  apply Qmult_le_0_compat; [| apply Qlt_le_weak, pow2_pos].
  change 0 with (inject_Z 0). rewrite <- Zle_Qle.
  rewrite <- (rint_integer 0). apply rint_monotone.
  change (inject_Z 0) with 0. apply Qle_shift_div_l; [apply pow2_pos |].
  rewrite Qmult_0_l. exact Hx.
Qed.

(** Rounding keeps the order: the representable numbers are the same for
    both arguments. *)
Lemma round_monotone (x y : Q) : 0 <= x -> x <= y -> round x <= round y.
Proof.
  intros H0 Hxy.
  destruct (Qeq_dec x 0) as [Hz | Hnz].
  { rewrite (round_of_zero x Hz). apply round_nonneg.
    eapply Qle_trans; eassumption. }
  assert (Hx : 0 < x).
  { apply Qnot_le_lt. intros H. apply Hnz. apply Qle_antisym; assumption. }
  assert (Hy : 0 < y) by (eapply Qlt_le_trans; eassumption).
  pose proof (ilog2_monotone x y Hx Hxy) as He.
  destruct (ilog2_spec x Hx) as [Hxlo Hxhi].
  destruct (ilog2_spec y Hy) as [Hylo Hyhi].
  rewrite !round_value, (exponent_positive x Hx), (exponent_positive y Hy).
  set (ex := ilog2 x) in *. set (ey := ilog2 y) in *.
  set (qx := Z.max (ex - 23) (-149)). set (qy := Z.max (ey - 23) (-149)).
  destruct (Z.eq_dec qx qy) as [Eq | Neq].
  - rewrite Eq. apply Qmult_le_r; [apply pow2_pos |].
    rewrite <- Zle_Qle. apply rint_monotone.
    apply Qmult_le_r; [apply Qinv_lt_0_compat, pow2_pos | exact Hxy].
  - assert (Hlt : (ex < ey)%Z) by lia.
    assert (Hq1 : (0 <= ey - qx)%Z) by lia.
    assert (Hq2 : (0 <= ey - qy)%Z) by lia.
    assert (Hx2 : pow2 ey == pow2 (ey - qx) * pow2 qx).
    { rewrite <- pow2_add. replace (ey - qx + qx)%Z with ey by lia. reflexivity. }
    assert (Hy2 : pow2 ey == pow2 (ey - qy) * pow2 qy).
    { rewrite <- pow2_add. replace (ey - qy + qy)%Z with ey by lia. reflexivity. }
    apply Qle_trans with (pow2 ey).
    + rewrite Hx2. apply Qmult_le_r; [apply pow2_pos |].
      rewrite (pow2_Z _ Hq1), <- Zle_Qle.
      rewrite <- (rint_integer (2 ^ (ey - qx))). apply rint_monotone.
      rewrite <- (pow2_Z _ Hq1).
      apply Qle_shift_div_r; [apply pow2_pos |].
      rewrite <- Hx2.
      apply Qlt_le_weak. eapply Qlt_le_trans; [exact Hxhi |].
      apply pow2_le. lia.
    + rewrite Hy2 at 1. apply Qmult_le_r; [apply pow2_pos |].
      rewrite (pow2_Z _ Hq2), <- Zle_Qle.
      rewrite <- (rint_integer (2 ^ (ey - qy))) at 1. apply rint_monotone.
      rewrite <- (pow2_Z _ Hq2).
      apply Qle_shift_div_l; [apply pow2_pos |].
      rewrite <- Hy2. exact Hylo.
Qed.

(** Rounding moves a number by half a unit of its last place at most. *)
Lemma round_error (x : Q) :
  Qabs (round x - x) <= pow2 (exponent x - 1).
Proof.
  rewrite round_value. set (q := exponent x).
  pose proof (pow2_pos q) as Hq.
  assert (E : inject_Z (Py.rint (x / pow2 q)) * pow2 q - x
              == (inject_Z (Py.rint (x / pow2 q)) - x / pow2 q) * pow2 q).
  { field. intros H. rewrite H in Hq. discriminate Hq. }
  rewrite E, Qabs_Qmult, (Qabs_pos (pow2 q)) by (apply Qlt_le_weak; exact Hq).
  apply Qle_trans with ((1 # 2) * pow2 q).
  - apply Qmult_le_r; [exact Hq | apply rint_error].
  - replace q with ((q - 1) + 1)%Z at 1 by lia. rewrite pow2_succ.
    apply Qle_lteq. right. ring.
Qed.

(** The model on floats one knows: 0.1f and 1/3 are the nearest
    24-bit fractions, 2^24 + 1 is a tie and goes to the even neighbour,
    half the smallest subnormal goes to zero. *)
Lemma round_known_values :
  round (1 # 10) = (13421773 # 134217728) /\
  round (1 # 3) = (11184811 # 33554432) /\
  round 16777217 = 16777216 /\
  round 16777219 = 16777220 /\
  round (pow2 (-150)) = 0 /\
  round (3 * pow2 (-150)) = Qred (pow2 (-148)).
Proof. repeat split; vm_compute; reflexivity. Qed.

End SinglePrecision.

(** ** The similarity score *)

Section Scores.

Import Float32.
Local Open Scope Q_scope.

Lemma round_near_normal (x : Q) :
  1 <= x -> Qabs (round x - x) <= (1 # 16777216) * x.
Proof.
  intros H1.
  assert (Hx : 0 < x) by (eapply Qlt_le_trans; [| exact H1]; reflexivity).
  eapply Qle_trans; [apply round_error |].
  rewrite (exponent_positive x Hx).
  destruct (ilog2_spec x Hx) as [Hlo _].
  assert (He : (0 <= ilog2 x)%Z).
  { assert (H : (0 < ilog2 x + 1)%Z); [| lia].
    apply pow2_lt_inv. change (pow2 0) with 1.
    eapply Qle_lt_trans; [exact H1 |]. apply (proj2 (ilog2_spec x Hx)). }
  replace (Z.max (ilog2 x - 23) (-149) - 1)%Z with (-24 + ilog2 x)%Z by lia.
  rewrite pow2_add. change (pow2 (-24)) with (1 # 16777216).
  apply Qmult_le_l; [reflexivity | exact Hlo].
Qed.

Lemma round_near (x bound : Q) :
  0 <= x -> x <= bound ->
  Qabs (round x - x) <= (1 # 16777216) * bound + pow2 (-150).
Proof.
  intros H0 Hb. pose proof (pow2_pos (-150)) as Heta.
  destruct (Qeq_dec x 0) as [Hz | Hnz].
  { rewrite (round_of_zero x Hz). apply Qabs_Qle_condition. lra. }
  assert (Hx : 0 < x).
  { apply Qnot_le_lt. intros H. apply Hnz. apply Qle_antisym; assumption. }
  eapply Qle_trans; [apply round_error |].
  rewrite (exponent_positive x Hx).
  destruct (ilog2_spec x Hx) as [Hlo _].
  destruct (Z.le_ge_cases (-149) (ilog2 x - 23)) as [Hn | Hs].
  - replace (Z.max (ilog2 x - 23) (-149) - 1)%Z with (-24 + ilog2 x)%Z by lia.
    rewrite pow2_add. change (pow2 (-24)) with (1 # 16777216).
    assert (H : (1 # 16777216) * pow2 (ilog2 x) <= (1 # 16777216) * bound).
    { apply Qmult_le_l; [reflexivity |]. eapply Qle_trans; eassumption. }
    lra.
  - replace (Z.max (ilog2 x - 23) (-149) - 1)%Z with (-150)%Z by lia.
    lra.
Qed.

Lemma inv_near (t a : Q) :
  1 <= t -> 1 <= a -> Qabs (a - t) <= (1 # 16777216) * t ->
  Qabs (/ a - / t) <= 1 # 16777216.
Proof.
  intros Ht Ha Hat.
  assert (Ht0 : 0 < t) by lra. assert (Ha0 : 0 < a) by lra.
  pose proof (Qinv_lt_0_compat _ Ht0) as Hit.
  pose proof (Qinv_lt_0_compat _ Ha0) as Hia.
  assert (Hia1 : / a <= 1).
  { apply Qle_shift_inv_r; [exact Ha0 | lra]. }
  assert (E : / a - / t == (t - a) * (/ a * / t)).
  { field. split; intros H; lra. }
  rewrite E, Qabs_Qmult.
  assert (Hp : 0 <= / a * / t) by (apply Qmult_le_0_compat; lra).
  rewrite (Qabs_pos _ Hp), (Qabs_Qminus t a).
  apply Qle_trans with ((1 # 16777216) * t * (/ a * / t)).
  - apply Qmult_le_compat_r; assumption.
  - assert (E2 : (1 # 16777216) * t * (/ a * / t) == (1 # 16777216) * / a).
    { field. split; intros H; lra. }
    rewrite E2. lra.
Qed.

Lemma round_between (x lo hi : Q) :
  0 <= lo -> lo <= x -> x <= hi -> round lo <= round x /\ round x <= round hi.
Proof.
  intros H0 Hlo Hhi. split; apply round_monotone; lra.
Qed.

Lemma similarity_score_unfold (distance : Q) :
  similarity_score distance =
    round (inject_Z (Py.rint
             (round (round (round (1 / round (1 + distance)) * 100) * 100)))
           / 100).
Proof. reflexivity. Qed.

Lemma similarity_score_comp (d1 d2 : Q) :
  d1 == d2 -> similarity_score d1 = similarity_score d2.
Proof.
  intros E. rewrite !similarity_score_unfold.
  rewrite (round_comp (1 + d1) (1 + d2)) by (rewrite E; reflexivity).
  reflexivity.
Qed.

Lemma similarity_score_zero (distance : Q) :
  (distance == 0)%Q -> similarity_score distance = 100%Q.
Proof.
  intros H. rewrite (similarity_score_comp distance 0 H). reflexivity.
Qed.

(** The score as a function of the rounded sum [1 + distance]. *)
Lemma score_steps_monotone (a1 a2 : Q) :
  1 <= a1 -> a1 <= a2 ->
  let s := fun a =>
    round (inject_Z (Py.rint (round (round (round (1 / a) * 100) * 100))) / 100) in
  0 <= s a2 /\ s a2 <= s a1.
Proof.
  intros H1 H12 s. subst s. cbv beta.
  assert (Ha1 : 0 < a1) by lra. assert (Ha2 : 0 < a2) by lra.
  assert (Hy : 0 <= 1 / a2 /\ 1 / a2 <= 1 / a1).
  { split.
    - apply Qle_shift_div_l; [exact Ha2 | lra].
    - apply Qle_shift_div_l; [exact Ha1 |].
      unfold Qdiv. rewrite Qmult_1_l, Qmult_comm.
      apply Qle_shift_div_r; [exact Ha2 | lra]. }
  destruct Hy as [Hy0 Hy].
  pose proof (round_nonneg _ Hy0) as Hb0.
  pose proof (round_monotone _ _ Hy0 Hy) as Hb.
  set (b1 := round (1 / a1)) in *. set (b2 := round (1 / a2)) in *.
  assert (Hc0 : 0 <= round (b2 * 100)) by (apply round_nonneg; lra).
  assert (Hc : round (b2 * 100) <= round (b1 * 100))
    by (apply round_monotone; lra).
  set (c1 := round (b1 * 100)) in *. set (c2 := round (b2 * 100)) in *.
  assert (He0 : 0 <= round (c2 * 100)) by (apply round_nonneg; lra).
  assert (He : round (c2 * 100) <= round (c1 * 100))
    by (apply round_monotone; lra).
  set (e1 := round (c1 * 100)) in *. set (e2 := round (c2 * 100)) in *.
  assert (Hr0 : (0 <= Py.rint e2)%Z).
  { rewrite <- (rint_integer 0). apply rint_monotone. exact He0. }
  assert (Hr : (Py.rint e2 <= Py.rint e1)%Z) by (apply rint_monotone; exact He).
  rewrite Zle_Qle in Hr0, Hr. change (inject_Z 0) with 0 in Hr0.
  split; [apply round_nonneg | apply round_monotone];
    unfold Qdiv; change (/ 100) with (1 # 100); lra.
Qed.

Lemma similarity_score_antitone (d1 d2 : Q) :
  (0 <= d1)%Q -> (d1 <= d2)%Q ->
  (similarity_score d2 <= similarity_score d1)%Q.
Proof.
  intros H0 H12. rewrite !similarity_score_unfold.
  apply (score_steps_monotone (round (1 + d1)) (round (1 + d2))).
  - change 1 with (round 1) at 1. apply round_monotone; lra.
  - apply round_monotone; lra.
Qed.

Lemma similarity_score_bounds (distance : Q) :
  (0 <= distance)%Q ->
  (0 <= similarity_score distance)%Q /\ (similarity_score distance <= 100)%Q.
Proof.
  intros H0. split.
  - rewrite similarity_score_unfold.
    apply (score_steps_monotone (round 1) (round (1 + distance))).
    + apply Qle_refl.
    + apply round_monotone; lra.
  - change 100%Q with (similarity_score 0%Q).
    apply similarity_score_antitone; [apply Qle_refl | exact H0].
Qed.

(** The score is [100 / (1 + distance)] to two decimals, up to the
    rounding of the five single-precision operations. *)
Lemma similarity_score_accuracy (distance : Q) :
  0 <= distance ->
  Qabs (similarity_score distance - 100 / (1 + distance)) <= 51 # 10000.
Proof.
  intros H0. rewrite similarity_score_unfold.
  set (t := 1 + distance). assert (Ht : 1 <= t) by (subst t; lra).
  assert (Eta : pow2 (-150) <= 1 # 1000000000).
  { unfold Qle. vm_compute. discriminate. }
  pose proof (pow2_pos (-150)) as Eta0.
  set (eta := pow2 (-150)) in *.
  (* a = fl(1 + d) *)
  pose proof (round_near_normal t Ht) as Ea.
  assert (Ha : 1 <= round t).
  { change 1 with (round 1) at 1. apply round_monotone; lra. }
  set (a := round t) in *.
  pose proof (inv_near t a Ht Ha Ea) as Ey.
  assert (Ha0 : 0 < a) by lra.
  assert (Hy : 0 <= 1 / a /\ 1 / a <= 1).
  { split.
    - apply Qle_shift_div_l; [exact Ha0 | lra].
    - apply Qle_shift_div_r; [exact Ha0 | lra]. }
  assert (Hya : 1 / a == / a) by (unfold Qdiv; ring).
  (* b = fl(1 / a) *)
  pose proof (round_near (1 / a) 1 (proj1 Hy) (proj2 Hy)) as Eb.
  destruct (round_between (1 / a) 0 1 (Qle_refl 0) (proj1 Hy) (proj2 Hy))
    as [Hb0 Hb1].
  change (round 0) with 0 in Hb0. change (round 1) with 1 in Hb1.
  set (b := round (1 / a)) in *.
  (* c = fl(b * 100) *)
  assert (Hc : 0 <= b * 100 /\ b * 100 <= 100) by lra.
  pose proof (round_near (b * 100) 100 (proj1 Hc) (proj2 Hc)) as Ec.
  destruct (round_between (b * 100) 0 100 (Qle_refl 0) (proj1 Hc) (proj2 Hc))
    as [Hc0 Hc1].
  change (round 0) with 0 in Hc0. change (round 100) with 100 in Hc1.
  set (c := round (b * 100)) in *.
  (* e = fl(c * 100) *)
  assert (He : 0 <= c * 100 /\ c * 100 <= 10000) by lra.
  pose proof (round_near (c * 100) 10000 (proj1 He) (proj2 He)) as Ee.
  destruct (round_between (c * 100) 0 10000 (Qle_refl 0) (proj1 He) (proj2 He))
    as [He0 He1].
  change (round 0) with 0 in He0. change (round 10000) with 10000 in He1.
  set (e := round (c * 100)) in *.
  (* r = rint(e) *)
  pose proof (rint_error e) as Er.
  assert (Hr0 : (0 <= Py.rint e)%Z).
  { rewrite <- (rint_integer 0). apply rint_monotone. exact He0. }
  assert (Hr1 : (Py.rint e <= 10000)%Z).
  { rewrite <- (rint_integer 10000). apply rint_monotone. exact He1. }
  rewrite Zle_Qle in Hr0, Hr1.
  change (inject_Z 0) with 0 in Hr0. change (inject_Z 10000) with 10000 in Hr1.
  set (r := inject_Z (Py.rint e)) in *.
  (* s = fl(r / 100) *)
  assert (Hs : 0 <= r / 100 /\ r / 100 <= 100)
    by (unfold Qdiv; change (/ 100) with (1 # 100); lra).
  pose proof (round_near (r / 100) 100 (proj1 Hs) (proj2 Hs)) as Es.
  set (s := round (r / 100)) in *.
  assert (Hdiv : 100 / t == 100 * / t) by (unfold Qdiv; ring).
  rewrite Hdiv.
  apply Qabs_Qle_condition in Ey, Eb, Ec, Ee, Er, Es.
  apply Qabs_Qle_condition.
  rewrite Hya in Eb.
  set (ia := / a) in *. set (it := / t) in *.
  unfold Qdiv in Es. change (/ 100) with (1 # 100) in Es.
  change (pow2 (-150)) with eta in Eb, Ec, Ee, Es.
  lra.
Qed.

Lemma round2_error (x : Q) : Qabs (Py.round2 x - x) <= 1 # 200.
Proof.
  unfold Py.round2. rewrite Qred_correct, Qmake_Qdiv.
  pose proof (rint_error (x * 100)) as H.
  apply Qabs_Qle_condition in H. apply Qabs_Qle_condition.
  unfold Qdiv. change (/ inject_Z 100) with (1 # 100). lra.
Qed.

(** ... and so it differs from the score of the spec, rounded exactly, by
    one unit of the second decimal at most (and the float's own error). *)
Lemma similarity_score_near_spec (distance : Q) :
  0 <= distance ->
  Qabs (similarity_score distance - similarity_spec distance) <= 101 # 10000.
Proof.
  intros H0. pose proof (similarity_score_accuracy distance H0) as H1.
  pose proof (round2_error (100 / (1 + distance))) as H2.
  fold (similarity_spec distance) in H2.
  apply Qabs_Qle_condition in H1, H2. apply Qabs_Qle_condition. lra.
Qed.

End Scores.

(** ** The flat index *)

Section FlatIndex.

Lemma l2sqr_nonneg (x y : Vector) : (0 <= Faiss.l2sqr x y)%Q.
Proof.
  revert y. induction x as [| a x IH]; intros [| b y]; cbn [Faiss.l2sqr];
    try apply Qle_refl.
  rewrite <- (Qplus_0_l 0). apply Qplus_le_compat; [| apply IH].
  destruct (Qlt_le_dec (a - b) 0) as [Hneg | Hpos].
  - setoid_replace ((a - b) * (a - b))%Q with ((- (a - b)) * (- (a - b)))%Q by ring.
    apply Qmult_le_0_compat; apply (Qopp_le_compat (a - b) 0);
      apply Qlt_le_weak; exact Hneg.
  - apply Qmult_le_0_compat; exact Hpos.
Qed.

Lemma l2sqr_self (x : Vector) : (Faiss.l2sqr x x == 0)%Q.
Proof.
  induction x as [| a x IH]; cbn [Faiss.l2sqr]; [reflexivity |].
  rewrite IH. ring.
Qed.

Lemma insert_hit_perm (h : Z * Q) (hits : list (Z * Q)) :
  Permutation (Faiss.insert_hit h hits) (h :: hits).
Proof.
  induction hits as [| h' rest IH]; cbn [Faiss.insert_hit].
  - apply Permutation_refl.
  - destruct (Qle_bool (snd h') (snd h)).
    + eapply perm_trans; [apply perm_skip, IH | apply perm_swap].
    + apply Permutation_refl.
Qed.

Lemma hit_before_le (h1 h2 : Z * Q) : hit_before h1 h2 -> (snd h1 <= snd h2)%Q.
Proof.
  intros [Hlt | [Heq _]]; [apply Qlt_le_weak; exact Hlt |].
  rewrite Heq. apply Qle_refl.
Qed.

Lemma insert_hit_sorted (h : Z * Q) (hits : list (Z * Q)) :
  StronglySorted hit_before hits ->
  Forall (fun h' => fst h' < fst h) hits ->
  StronglySorted hit_before (Faiss.insert_hit h hits).
Proof.
  induction hits as [| h' rest IH]; intros Hs Hid; cbn [Faiss.insert_hit].
  - repeat constructor.
  - apply StronglySorted_inv in Hs. destruct Hs as [Hs Hh'].
    apply Forall_cons_iff in Hid. destruct Hid as [Hid' Hid].
    destruct (Qle_bool (snd h') (snd h)) eqn:Ele.
    + constructor; [apply IH; assumption |].
      eapply Permutation_Forall; [symmetry; apply insert_hit_perm |].
      constructor; [| exact Hh'].
      apply Qle_bool_iff, Qle_lteq in Ele.
      destruct Ele as [Hlt | Heq]; [left; exact Hlt | right; split; assumption].
    + assert (Hlt : (snd h < snd h')%Q).
      { apply Qnot_le_lt. intros Hle. apply Qle_bool_iff in Hle. congruence. }
      constructor; [constructor; assumption |].
      constructor; [left; exact Hlt |].
      eapply Forall_impl; [| exact Hh'].
      intros r Hr. left. eapply Qlt_le_trans; [exact Hlt |].
      apply hit_before_le; exact Hr.
Qed.

Lemma scan_spec (q : Vector) (vs : list Vector) :
  forall (next_id : Z) (hits : list (Z * Q)),
    StronglySorted hit_before hits ->
    Forall (fun h => fst h < next_id) hits ->
    StronglySorted hit_before (Faiss.scan q vs next_id hits) /\
    Permutation (Faiss.scan q vs next_id hits) (hits ++ all_hits q vs next_id).
Proof.
  induction vs as [| v vs IH]; intros next_id hits Hs Hid;
    cbn [Faiss.scan all_hits].
  - rewrite app_nil_r. split; [exact Hs | apply Permutation_refl].
  - destruct (IH (next_id + 1)
                (Faiss.insert_hit (next_id, Faiss.l2sqr q v) hits))
      as [Hs' Hp'].
    + apply insert_hit_sorted; assumption.
    + eapply Permutation_Forall; [symmetry; apply insert_hit_perm |].
      constructor; [cbn; lia |].
      eapply Forall_impl; [| exact Hid]. cbn beta. intros; lia.
    + split; [exact Hs' |].
      eapply perm_trans; [exact Hp' |].
      eapply perm_trans;
        [apply Permutation_app_tail, insert_hit_perm |].
      cbn [app]. apply Permutation_middle.
Qed.

Lemma all_hits_length (q : Vector) (vs : list Vector) (next_id : Z) :
  List.length (all_hits q vs next_id) = List.length vs.
Proof.
  revert next_id. induction vs as [| v vs IH]; intros next_id; cbn; congruence.
Qed.

Lemma all_hits_in (q : Vector) (vs : list Vector) :
  forall (next_id : Z) (h : Z * Q),
    In h (all_hits q vs next_id) ->
    exists i v, fst h = next_id + Z.of_nat i /\
                nth_error vs i = Some v /\ snd h = Faiss.l2sqr q v.
Proof.
  induction vs as [| v vs IH]; intros next_id h; cbn [all_hits In].
  - intros [].
  - intros [<- | Hin].
    + exists 0%nat, v. cbn. repeat split. lia.
    + destruct (IH _ _ Hin) as (i & v' & Hi & Hn & Hd).
      exists (S i), v'. cbn [nth_error]. repeat split; try assumption. lia.
Qed.

Lemma all_hits_hit_of (q : Vector) (vs : list Vector) (h : Z * Q) :
  In h (all_hits q vs 0) ->
  hit_of q vs h /\ fst h < Z.of_nat (List.length vs).
Proof.
  intros Hin. destruct (all_hits_in _ _ _ _ Hin) as (i & v & Hi & Hn & Hd).
  assert (Hlt : (i < List.length vs)%nat).
  { apply nth_error_Some. congruence. }
  split; [split; [lia |] | lia].
  exists v. rewrite Hi, Z.add_0_l, Nat2Z.id. split; assumption.
Qed.

Lemma search_hits_nearest (ix : Faiss.IndexFlatL2) (q : Vector) (k : Z) :
  k <= Faiss.ntotal ix ->
  nearest q (Faiss.xb ix) (Z.to_nat k) (search_hits ix q k).
Proof.
  intros Hk. unfold nearest, search_hits.
  destruct (scan_spec q (Faiss.xb ix) 0 [] (SSorted_nil _) (Forall_nil _))
    as [Hs Hp]. cbn [app] in Hp.
  split.
  - rewrite length_firstn, (Permutation_length Hp), all_hits_length.
    unfold Faiss.ntotal in Hk. lia.
  - exists (skipn (Z.to_nat k) (Faiss.scan q (Faiss.xb ix) 0 [])).
    rewrite firstn_skipn. split; assumption.
Qed.

End FlatIndex.

(** ** The tools *)

Section Properties.

Context {W : Type}.
Variable C : Collaborators W.

Local Abbreviation State := (@State W).

(** ** The tools that only read *)

Lemma set_world_twice (st : State) (w w' : W) :
  set_world (set_world st w) w' = set_world st w'.
Proof. reflexivity. Qed.

Lemma same_db_set_world (st : State) (w : W) : same_db st (set_world st w).
Proof. split; reflexivity. Qed.

Lemma call_run {A} (f : W -> (Exn + A) * W) (st : State) :
  call f st =
    (match fst (f (world st)) with inl e => Raise e | inr a => Return a end,
     set_world st (snd (f (world st)))).
Proof.
  unfold call, set_world. destruct (f (world st)) as [[e | a] w']; reflexivity.
Qed.

Lemma get_video_details_returns (video_id : string) (st : State) :
  exists v w',
    get_video_details C video_id st = (Return v, set_world st w') /\
    (Py.contains_key "error" v = true \/
     exists title,
       Py.contains_key "error" v = false /\
       Py.getitem v "title" = inr (VStr title) /\
       Py.getitem v "url" = inr (VStr (watch_url video_id))).
Proof.
  unfold get_video_details, try_except, bind. rewrite call_run.
  destruct (videos_list C video_id (world st)) as [[e | [[| item rest] |]] w'];
    cbn [fst snd]; unfold ret;
    eexists; exists w'; (split; [reflexivity |]);
    try (left; reflexivity).
  right. exists (snippet_title item). repeat split.
Qed.

Lemma check_transcript_availability_returns (video_id : option string) (st : State) :
  exists v w',
    check_transcript_availability C video_id st = (Return v, set_world st w').
Proof.
  unfold check_transcript_availability.
  destruct (Py.truthy_str video_id) as [vid |].
  - unfold try_except, bind. rewrite call_run.
    destruct (list_transcripts C vid (world st)) as [[e | tl] w'];
      cbn [fst snd]; unfold ret; eexists; exists w'; reflexivity.
  - exists (VDict [("error",
      VStr "You must provide a video_id to check transcript availability")]),
      (world st).
    destruct st; reflexivity.
Qed.


(** Unfolds the monad one step at a time and splits on every answer of a
    collaborator. *)
Ltac monad_unfold :=
  unfold try_except, bind, lift, ret, raise, as_str, as_opt_str, as_list,
    get_state in *.

Ltac monad_simpl := repeat progress (monad_unfold; cbv beta iota).

Ltac split_call :=
  match goal with
  | |- context [call ?f ?s] =>
      rewrite (call_run f s);
      let e := fresh "e" in let a := fresh "a" in let w := fresh "w" in
      let E := fresh "Ecall" in
      destruct (f (world s)) as [[e | a] w] eqn:E;
      cbn [fst snd world index video_store set_world] in *
  end.

Lemma error_dict_has_error (msg : value) :
  Py.contains_key "error" (VDict [("error", msg)]) = true.
Proof. reflexivity. Qed.

Lemma transcript_error_has_error (video_id : string) (e : Exn) :
  exists msg, transcript_error video_id e = VDict [("error", VStr msg)].
Proof.
  unfold transcript_error.
  repeat match goal with
         | |- context [if ?b then _ else _] => destruct b
         end; eexists; reflexivity.
Qed.

Lemma get_video_transcript_returns (video_id : option string)
    (languages : option (list string)) (st : State) :
  exists v w',
    get_video_transcript C video_id languages st = (Return v, set_world st w') /\
    ((exists msg, v = VDict [("error", VStr msg)]) \/
     exists vid data, video_id = Some vid /\ v = transcript_result_of C vid data).
Proof.
  unfold get_video_transcript.
  destruct video_id as [[| c r] |]; cbn [Py.truthy_str].
  1, 3: (eexists; exists (world st); split;
         [destruct st; reflexivity | left; eexists; reflexivity]).
  assert (Herr : forall e w', exists v w'0,
             (Return (transcript_error (String c r) e), set_world st w') =
             (Return v, set_world st w'0) /\
             ((exists msg, v = VDict [("error", VStr msg)]) \/
              exists vid data, Some (String c r) = Some vid /\
                               v = transcript_result_of C vid data)).
  { intros e w'. eexists; exists w'; split; [reflexivity |].
    left. apply transcript_error_has_error. }
  assert (Hok : forall data w', exists v w'0,
             (Return (transcript_result_of C (String c r) data), set_world st w') =
             (Return v, set_world st w'0) /\
             ((exists msg, v = VDict [("error", VStr msg)]) \/
              exists vid data, Some (String c r) = Some vid /\
                               v = transcript_result_of C vid data)).
  { intros data w'. eexists; exists w'; split; [reflexivity |].
    right. eexists; eexists; split; reflexivity. }
  destruct languages as [ls |].
  - unfold get_transcript. monad_unfold.
    split_call; [apply Herr |].
    destruct (find_transcript (NoTranscriptFound C) ls a) as [e | t];
      [apply Herr |].
    split_call; [apply Herr | apply Hok].
  - unfold default_transcript_data. monad_unfold.
    split_call; [apply Herr |].
    destruct (find_manually_created_transcript (NoTranscriptFound C) ["en"] a)
      as [e | t].
    + destruct (find_generated_transcript (NoTranscriptFound C) ["en"] a)
        as [e' | t'].
      * destruct a as [| first rest].
        -- eexists; exists w; split; [reflexivity | left; eexists; reflexivity].
        -- split_call; [apply Herr | apply Hok].
      * split_call; [| apply Hok].
        destruct a as [| first rest].
        -- eexists; exists w0; split; [reflexivity | left; eexists; reflexivity].
        -- split_call; [apply Herr | apply Hok].
    + split_call; [| apply Hok].
      destruct (find_generated_transcript (NoTranscriptFound C) ["en"] a)
        as [e' | t'].
      * destruct a as [| first rest].
        -- eexists; exists w0; split; [reflexivity | left; eexists; reflexivity].
        -- split_call; [apply Herr | apply Hok].
      * split_call; [| apply Hok].
        destruct a as [| first rest].
        -- eexists; exists w1; split; [reflexivity | left; eexists; reflexivity].
        -- split_call; [apply Herr | apply Hok].
Qed.


(** ** Single-video ingestion *)

Lemma appended_intro (st : State) (v : Vector) (record : value) (w : W) :
  List.length (Faiss.xb (index st)) = List.length (video_store st) ->
  appended st
    (mkState (Faiss.mkIndex (Faiss.d (index st)) (Faiss.xb (index st) ++ [v]))
       (video_store st ++ [record]) w) v record.
Proof.
  intros Hlen. unfold appended; cbn [index video_store Faiss.d Faiss.xb].
  repeat split.
  - rewrite <- Hlen, nth_error_app2, Nat.sub_diag by lia. reflexivity.
  - rewrite nth_error_app2, Nat.sub_diag by lia. reflexivity.
Qed.

Lemma fetch_and_index_transcript_cases (video_id : string)
    (languages : option (list string)) (st : State) :
  exists v st',
    fetch_and_index_transcript C video_id languages st = (Return v, st') /\
    ((Py.contains_key "error" v = true /\ exists w', st' = set_world st w') \/
     (exists title data vec w',
        v = indexed_result video_id title (format_transcript C data)
              (Py.len_list data) /\
        encode C (format_transcript C data) = inr vec /\
        List.length vec = Faiss.d (index st) /\
        st' = mkState
                (Faiss.mkIndex (Faiss.d (index st)) (Faiss.xb (index st) ++ [vec]))
                (video_store st
                   ++ [fetched_record video_id title (format_transcript C data)])
                w')).
Proof.
  unfold fetch_and_index_transcript. monad_unfold.
  destruct (get_video_details_returns video_id st) as (details & w1 & E1 & H1).
  rewrite E1; cbv beta iota.
  destruct H1 as [Herr | (title & Hne & Htitle & Hurl)].
  { rewrite Herr. eexists; eexists; split; [reflexivity |].
    left; split; [exact Herr | exists w1; reflexivity]. }
  rewrite Hne.
  destruct (get_video_transcript_returns (Some video_id) languages (set_world st w1))
    as (tr & w2 & E2 & H2).
  rewrite E2; cbv beta iota. rewrite set_world_twice.
  destruct H2 as [(msg & ->) | (vid & data & Hvid & ->)].
  { cbn [Py.contains_key Py.assoc_mem String.eqb Ascii.eqb Bool.eqb].
    eexists; eexists; split; [reflexivity |].
    left; split; [reflexivity | exists w2; reflexivity]. }
  injection Hvid as <-.
  unfold transcript_result_of at 1.
  cbn [Py.contains_key Py.assoc_mem String.eqb Ascii.eqb Bool.eqb].
  unfold transcript_result_of at 1.
  cbn [Py.getitem Py.assoc_find String.eqb Ascii.eqb Bool.eqb].
  monad_unfold; cbv beta iota.
  destruct (encode C (format_transcript C data)) as [e | vec] eqn:Eenc.
  { eexists; eexists; split; [reflexivity |].
    left; split; [reflexivity | exists w2; reflexivity]. }
  unfold index_add, Faiss.add; cbn [index video_store world set_world].
  destruct (Nat.eqb (List.length vec) (Faiss.d (index st))) eqn:Edim.
  2: { eexists; eexists; split; [reflexivity |].
       left; split; [reflexivity | exists w2; reflexivity]. }
  rewrite Htitle, Hurl. unfold video_store_append.
  cbn [index video_store world].
  eexists; eexists; split; [reflexivity |].
  right. exists title, data, vec, w2.
  apply Nat.eqb_eq in Edim.
  repeat split; assumption.
Qed.


Lemma index_video_cases (title transcript : string) (video_id : option string)
    (st : State) :
  (exists e, index_video C title transcript video_id st = (Raise e, st)) \/
  (exists vec,
     encode C transcript = inr vec /\
     List.length vec = Faiss.d (index st) /\
     index_video C title transcript video_id st =
       (Return (VDict [("status", VStr "indexed"); ("title", VStr title)]),
        mkState
          (Faiss.mkIndex (Faiss.d (index st)) (Faiss.xb (index st) ++ [vec]))
          (video_store st ++ [indexed_record title transcript video_id])
          (world st))).
Proof.
  unfold index_video. monad_unfold.
  destruct (encode C transcript) as [e | vec] eqn:Eenc.
  { left; exists e; reflexivity. }
  unfold index_add, Faiss.add.
  destruct (Nat.eqb (List.length vec) (Faiss.d (index st))) eqn:Edim.
  - right. exists vec. apply Nat.eqb_eq in Edim.
    split; [reflexivity |]. split; [assumption |].
    unfold video_store_append, indexed_record, opt_str.
    cbn [index video_store world]. destruct video_id; reflexivity.
  - left; eexists; reflexivity.
Qed.

(** ** Growth of the index pair *)

Lemma grows_refl (st : State) : grows C st st.
Proof.
  split; [reflexivity |]. exists [], [].
  rewrite !app_nil_r. repeat split; constructor.
Qed.

Lemma grows_set_world (st : State) (w : W) : grows C st (set_world st w).
Proof.
  split; [reflexivity |]. exists [], [].
  cbn [set_world index video_store]. rewrite !app_nil_r.
  repeat split; constructor.
Qed.

Lemma grows_trans (st1 st2 st3 : State) :
  grows C st1 st2 -> grows C st2 st3 -> grows C st1 st3.
Proof.
  intros (Hd1 & vs1 & rs1 & Hx1 & Hs1 & Hl1 & Ha1)
         (Hd2 & vs2 & rs2 & Hx2 & Hs2 & Hl2 & Ha2).
  split; [congruence |].
  exists (vs1 ++ vs2)%list, (rs1 ++ rs2)%list.
  rewrite Hx2, Hx1, Hs2, Hs1, !app_assoc. repeat split.
  - apply Forall_app; split; [assumption |]. rewrite <- Hd1. assumption.
  - apply Forall2_app; assumption.
Qed.

Lemma grows_one (st : State) (vec : Vector) (record : value) (w : W) :
  List.length vec = Faiss.d (index st) ->
  aligned C vec record ->
  grows C st
    (mkState (Faiss.mkIndex (Faiss.d (index st)) (Faiss.xb (index st) ++ [vec]))
       (video_store st ++ [record]) w).
Proof.
  intros Hlen Hal. split; [reflexivity |]. exists [vec], [record].
  cbn [index video_store Faiss.xb Faiss.d].
  repeat split; repeat constructor; assumption.
Qed.

Lemma paired_grows (st st' : State) :
  paired C st -> grows C st st' -> paired C st'.
Proof.
  intros (Hd & Hlen & Hal) (Hd' & vs & rs & Hx & Hs & Hl & Ha).
  unfold paired. rewrite Hd', Hx, Hs. repeat split.
  - exact Hd.
  - apply Forall_app; split; [assumption |]. rewrite <- Hd. assumption.
  - apply Forall2_app; assumption.
Qed.

Lemma paired_same_length (st : State) :
  paired C st ->
  List.length (Faiss.xb (index st)) = List.length (video_store st).
Proof. intros (_ & _ & Hal). eapply Forall2_length; eassumption. Qed.

Lemma paired_initial (w : W) : paired C (initial w).
Proof. repeat split; constructor. Qed.

Lemma index_video_grows (title transcript : string) (video_id : option string)
    (st : State) :
  grows C st (snd (index_video C title transcript video_id st)).
Proof.
  destruct (index_video_cases title transcript video_id st)
    as [(e & ->) | (vec & Henc & Hlen & ->)]; cbn [snd].
  - apply grows_refl.
  - apply grows_one; [assumption |].
    exists transcript. split; [constructor | assumption].
Qed.

Lemma fetch_and_index_transcript_grows (video_id : string)
    (languages : option (list string)) (st : State) :
  grows C st (snd (fetch_and_index_transcript C video_id languages st)).
Proof.
  destruct (fetch_and_index_transcript_cases video_id languages st)
    as (v & st' & -> & [(_ & w' & ->) | (title & data & vec & w' & _ & Henc & Hlen & ->)]);
    cbn [snd].
  - apply grows_set_world.
  - apply grows_one; [assumption |].
    exists (format_transcript C data). split; [constructor | assumption].
Qed.

Lemma semantic_search_keeps_state (query : string) (top_k : Z) (full : bool)
    (st : State) :
  snd (semantic_search C query top_k full st) = st.
Proof.
  unfold semantic_search. monad_unfold.
  destruct (Py.len_list (video_store st) =? 0); [reflexivity |].
  destruct (encode C query) as [e | v]; [reflexivity |].
  destruct (Faiss.search _ _ _) as [e | DI]; [reflexivity |].
  destruct (join_results _ _ _ _ _ _); reflexivity.
Qed.

Lemma get_latest_videos_from_channel_returns (channel_id : string)
    (max_results : Z) (st : State) :
  get_latest_videos_from_channel C channel_id max_results st =
    (Return
       match fst (search_list C channel_id max_results (world st)) with
       | inl e => VDict [("error", VStr e)]
       | inr response =>
           VList (map video_data_of
                    match response with Some l => l | None => [] end)
       end,
     set_world st (snd (search_list C channel_id max_results (world st)))).
Proof.
  unfold get_latest_videos_from_channel, try_except, bind. rewrite call_run.
  destruct (search_list C channel_id max_results (world st)) as [[e | r] w'];
    reflexivity.
Qed.


(** ** Bulk ingestion *)

Lemma count_status_app (s : string) (l1 l2 : list value) :
  count_status s (l1 ++ l2) = count_status s l1 + count_status s l2.
Proof.
  unfold count_status. rewrite filter_app, length_app. lia.
Qed.

Lemma contains_key_getitem (k : string) (v : value) :
  Py.contains_key k v = true -> exists x, Py.getitem v k = inr x.
Proof.
  destruct v as [| | | | | | d]; cbn [Py.contains_key]; try discriminate.
  unfold Py.getitem. induction d as [| [k' x] d IH]; cbn [Py.assoc_mem Py.assoc_find].
  - discriminate.
  - destruct (String.eqb k k'); [intros _; eexists; reflexivity | exact IH].
Qed.

Ltac eval_counts :=
  repeat match goal with
         | |- context [count_status ?s [?d]] =>
             let n := eval cbv in (count_status s [d]) in
             change (count_status s [d]) with n
         end;
  rewrite ?Z.add_0_r, ?Z.add_0_l.

Lemma bulk_step_spec (item : SearchItem) (acc : Tally) (st : State) :
  exists detail st',
    bulk_step C (video_data_of item) acc st =
      (Return
         (mkTally
            (indexed_count acc + count_status "indexed" [detail])
            (failed_count acc + (count_status "failed" [detail]
                                 + count_status "no_transcript" [detail]))
            (results acc ++ [detail])),
       st') /\
    detail_for item detail /\
    grows C st st' /\
    Z.of_nat (List.length (video_store st')) =
      Z.of_nat (List.length (video_store st)) + count_status "indexed" [detail].
Proof.
  unfold bulk_step, video_data_of.
  cbn [Py.getitem Py.assoc_find String.eqb Ascii.eqb Bool.eqb].
  monad_simpl.
  destruct (check_transcript_availability_returns (Some (item_videoId item)) st)
    as (av & w1 & ->).
  cbv beta iota.
  destruct (truthy (Py.get av "has_transcripts" (VBool false))).
  - destruct (fetch_and_index_transcript_cases (item_videoId item) None
                (set_world st w1))
      as (v & st' & E & Hcase).
    pose proof (fetch_and_index_transcript_grows (item_videoId item) None
                  (set_world st w1)) as Hg.
    rewrite E in *; cbn [snd] in Hg. cbv beta iota.
    assert (Hgrows : grows C st st').
    { eapply grows_trans; [apply grows_set_world | exact Hg]. }
    destruct Hcase as [(Herr & w' & ->)
                      | (title & data & vec & w' & -> & Henc & Hlen & ->)].
    + rewrite Herr.
      destruct (contains_key_getitem "error" v Herr) as (err & ->).
      exists (VDict [ ("video_id", VStr (item_videoId item));
                      ("title", VStr (item_title item));
                      ("status", VStr "failed"); ("error", err) ]),
             (set_world (set_world st w1) w').
      eval_counts.
      split; [reflexivity |].
      split; [apply (detail_failed item err) |].
      split; [exact Hgrows | reflexivity].
    + cbn [indexed_result Py.contains_key Py.assoc_mem String.eqb Ascii.eqb
             Bool.eqb Py.get Py.assoc_find].
      eexists (VDict [ ("video_id", VStr (item_videoId item));
                       ("title", VStr (item_title item));
                       ("status", VStr "indexed");
                       ("transcript_length", _) ]), _.
      eval_counts.
      split; [reflexivity |].
      split; [apply detail_indexed |].
      split; [exact Hgrows |].
      cbn [video_store set_world]. rewrite length_app. cbn [List.length]. lia.
  - exists (VDict [ ("video_id", VStr (item_videoId item));
                    ("title", VStr (item_title item));
                    ("status", VStr "no_transcript");
                    ("error", VStr "No transcripts available") ]),
           (set_world st w1).
    eval_counts.
    split; [reflexivity |].
    split; [apply detail_no_transcript |].
    split; [apply grows_set_world | reflexivity].
Qed.

Lemma bulk_loop_spec (items : list SearchItem) :
  forall (acc : Tally) (st : State),
  exists details st',
    bulk_loop C (map video_data_of items) acc st =
      (Return
         (mkTally
            (indexed_count acc + count_status "indexed" details)
            (failed_count acc + (count_status "failed" details
                                 + count_status "no_transcript" details))
            (results acc ++ details)),
       st') /\
    Forall2 detail_for items details /\
    grows C st st' /\
    Z.of_nat (List.length (video_store st')) =
      Z.of_nat (List.length (video_store st)) + count_status "indexed" details.
Proof.
  induction items as [| item items IH]; intros acc st.
  - exists [], st. cbn [map bulk_loop]. unfold ret, count_status.
    cbn [filter List.length Z.of_nat]. rewrite !Z.add_0_r, app_nil_r.
    split; [destruct acc; reflexivity |].
    split; [constructor | split; [apply grows_refl | reflexivity]].
  - cbn [map bulk_loop]. unfold bind at 1.
    destruct (bulk_step_spec item acc st) as (detail & st1 & -> & Hd & Hg1 & Hn1).
    cbv beta iota.
    edestruct IH as (details & st' & -> & Hds & Hg & Hn).
    exists (detail :: details), st'.
    cbn [indexed_count failed_count results].
    split; [| split; [constructor; assumption |
                      split; [eapply grows_trans; eassumption |]]].
    + f_equal. change (detail :: details) with ([detail] ++ details)%list.
      rewrite !count_status_app, <- app_assoc. f_equal. f_equal; lia.
    + change (detail :: details) with ([detail] ++ details)%list.
      rewrite count_status_app. lia.
Qed.


Lemma detail_counts (items : list SearchItem) (details : list value) :
  Forall2 detail_for items details ->
  count_status "indexed" details
    + (count_status "failed" details + count_status "no_transcript" details)
  = Py.len_list items.
Proof.
  unfold Py.len_list.
  induction 1 as [| item detail items details Hd _ IH].
  - reflexivity.
  - change (detail :: details) with ([detail] ++ details)%list.
    rewrite !count_status_app. cbn [List.length]. rewrite Nat2Z.inj_succ.
    destruct Hd; eval_counts; lia.
Qed.

Lemma bulk_index_channel_videos_cases (channel_id : string) (max_videos : Z)
    (st : State) :
  exists v st',
    bulk_index_channel_videos C channel_id max_videos st = (Return v, st') /\
    grows C st st' /\
    match fst (search_list C channel_id max_videos (world st)) with
    | inl e => v = VDict [("error", VStr e)]
    | inr response =>
        let candidates := match response with Some l => l | None => [] end in
        exists details,
          v = VDict [ ("status", VStr "completed");
                      ("indexed", VInt (count_status "indexed" details));
                      ("failed", VInt (count_status "failed" details
                                       + count_status "no_transcript" details));
                      ("total_attempted", VInt (Py.len_list candidates));
                      ("details", VList details) ] /\
          Forall2 detail_for candidates details /\
          Z.of_nat (List.length (video_store st')) =
            Z.of_nat (List.length (video_store st))
            + count_status "indexed" details
    end.
Proof.
  unfold bulk_index_channel_videos, try_except, bind.
  rewrite get_latest_videos_from_channel_returns.
  destruct (search_list C channel_id max_videos (world st)) as [[e | response] w1];
    cbn [fst snd Py.is_dict Py.contains_key Py.assoc_mem String.eqb Ascii.eqb
           Bool.eqb andb as_list].
  - eexists; eexists. split; [reflexivity |].
    split; [apply grows_set_world | reflexivity].
  - unfold ret at 1. cbv beta iota.
    set (candidates := match response with Some l => l | None => [] end).
    destruct (bulk_loop_spec candidates (mkTally 0 0 []) (set_world st w1))
      as (details & st' & -> & Hds & Hg & Hn).
    cbn [indexed_count failed_count results app]. unfold ret.
    eexists; exists st'. split; [reflexivity |].
    split; [eapply grows_trans; [apply grows_set_world | exact Hg] |].
    exists details. split; [| split; [exact Hds | exact Hn]].
    unfold Py.len_list. rewrite length_map, !Z.add_0_l. reflexivity.
Qed.

(** ** Reachable states *)

Lemma run_grows (c : Call) (st : State) : grows C st (snd (run C c st)).
Proof.
  destruct c; cbn [run].
  - apply index_video_grows.
  - rewrite semantic_search_keeps_state. apply grows_refl.
  - apply fetch_and_index_transcript_grows.
  - destruct (bulk_index_channel_videos_cases channel_id max_videos st)
      as (v & st' & -> & Hg & _). exact Hg.
  - destruct (check_transcript_availability_returns video_id st) as (v & w' & ->).
    apply grows_set_world.
  - destruct (get_video_transcript_returns video_id languages st)
      as (v & w' & -> & _).
    apply grows_set_world.
  - destruct (get_video_details_returns video_id st) as (v & w' & -> & _).
    apply grows_set_world.
  - rewrite get_latest_videos_from_channel_returns. apply grows_set_world.
Qed.

Lemma reachable_paired (st : State) : reachable C st -> paired C st.
Proof.
  induction 1 as [w | st c _ IH | st w _ IH].
  - apply paired_initial.
  - eapply paired_grows; [exact IH | apply run_grows].
  - exact IH.
Qed.


(** ** Search *)

Lemma join_one_stored (store : list value) (full : bool) (D0 : list Q)
    (i : nat) (idx : Z) (dist : Q) (transcript : string) :
  0 <= idx < Py.len_list store ->
  stored_record (nth (Z.to_nat idx) store VNone) transcript ->
  nth_error D0 i = Some dist ->
  join_one store full D0 i idx =
    inr (Some (video_data full (nth (Z.to_nat idx) store VNone) dist)).
Proof.
  unfold Py.len_list. intros Hidx Hrec Hd. unfold join_one, Py.len_list.
  replace (idx <? Z.of_nat (List.length store)) with true
    by (symmetry; apply Z.ltb_lt; lia).
  unfold Py.list_getitem.
  replace (idx <? 0) with false by (symmetry; apply Z.ltb_ge; lia).
  replace (idx <? 0) with false by (symmetry; apply Z.ltb_ge; lia).
  replace (Z.of_nat (List.length store) <=? idx) with false
    by (symmetry; apply Z.leb_gt; lia).
  cbn [orb].
  rewrite (nth_error_nth' store VNone) by lia.
  rewrite Hd. unfold video_data.
  destruct Hrec; destruct full; reflexivity.
Qed.

Lemma join_results_stored (store : list value) (full : bool)
    (hits : list (Z * Q)) :
  forall (seen : list (Z * Q)) (acc : list value),
    Forall (fun h => 0 <= fst h < Py.len_list store /\
                     exists transcript,
                       stored_record (nth (Z.to_nat (fst h)) store VNone) transcript)
           hits ->
    join_results store full (map snd (seen ++ hits)) (map fst hits)
      (List.length seen) acc =
      inr (acc ++ map (report full store) hits).
Proof.
  induction hits as [| h hits IH]; intros seen acc Hv; cbn [map join_results].
  - rewrite app_nil_r. reflexivity.
  - apply Forall_cons_iff in Hv. destruct Hv as [(Hidx & tr & Hrec) Hv].
    rewrite (join_one_stored store full _ (List.length seen) (fst h) (snd h) tr
               Hidx Hrec).
    + replace (seen ++ h :: hits)%list with ((seen ++ [h]) ++ hits)%list
        by (rewrite <- app_assoc; reflexivity).
      replace (S (List.length seen)) with (List.length (seen ++ [h])%list)
        by (rewrite length_app; cbn; lia).
      rewrite (IH (seen ++ [h])%list _ Hv), <- app_assoc. reflexivity.
    + rewrite map_app, nth_error_app2 by (rewrite length_map; lia).
      rewrite length_map, Nat.sub_diag. reflexivity.
Qed.

Lemma paired_record (st : State) (i : nat) :
  paired C st -> (i < List.length (video_store st))%nat ->
  exists v transcript,
    nth_error (Faiss.xb (index st)) i = Some v /\
    List.length v = dimension /\
    stored_record (nth i (video_store st) VNone) transcript /\
    encode C transcript = inr v.
Proof.
  intros (_ & Hlen & Hal) Hi.
  assert (Hn : nth_error (video_store st) i = Some (nth i (video_store st) VNone))
    by (apply nth_error_nth'; exact Hi).
  revert Hlen Hn. generalize (nth i (video_store st) VNone) as record.
  clear Hi. revert i.
  induction Hal as [| v r vs rs Hvr _ IH]; intros [| i] record Hlen Hn;
    cbn [nth_error] in *; try discriminate.
  - injection Hn as <-. destruct Hvr as (tr & Hrec & Henc).
    exists v, tr. apply Forall_cons_iff in Hlen. tauto.
  - apply Forall_cons_iff in Hlen. apply IH; tauto.
Qed.

Lemma search_hits_stored (st : State) (q : Vector) (k : Z) :
  paired C st ->
  Forall (fun h => 0 <= fst h < Py.len_list (video_store st) /\
                   exists transcript,
                     stored_record (nth (Z.to_nat (fst h)) (video_store st) VNone)
                       transcript)
         (search_hits (index st) q k).
Proof.
  intros Hp. apply Forall_forall. intros h Hin.
  unfold search_hits in Hin.
  assert (Hin' : In h (Faiss.scan q (Faiss.xb (index st)) 0 [])).
  { rewrite <- (firstn_skipn (Z.to_nat k)). apply in_or_app. left; exact Hin. }
  clear Hin; rename Hin' into Hin.
  destruct (scan_spec q (Faiss.xb (index st)) 0 [] (SSorted_nil _) (Forall_nil _))
    as [_ Hperm]. cbn [app] in Hperm.
  apply (Permutation_in _ Hperm) in Hin.
  destruct (all_hits_hit_of _ _ _ Hin) as [[H0 _] Hlt].
  rewrite (paired_same_length st Hp) in Hlt.
  split; [unfold Py.len_list; lia |].
  destruct (paired_record st (Z.to_nat (fst h)) Hp) as (v & tr & _ & _ & Hrec & _);
    [lia |].
  exists tr; exact Hrec.
Qed.

Lemma semantic_search_cases (query : string) (top_k : Z) (full : bool)
    (st : State) (v : Vector) :
  paired C st ->
  video_store st <> [] ->
  encode C query = inr v ->
  List.length v = dimension ->
  semantic_search C query top_k full st =
    (Return
       (VList (map (report full (video_store st))
                 (search_hits (index st) v
                    (Z.min top_k (Py.len_list (video_store st)))))),
     st).
Proof.
  intros Hp Hne Henc Hdim. unfold semantic_search. monad_simpl.
  replace (Py.len_list (video_store st) =? 0) with false.
  2: { symmetry. apply Z.eqb_neq. unfold Py.len_list.
       destruct (video_store st); [congruence | cbn; lia]. }
  rewrite Henc. unfold Faiss.search.
  destruct Hp as (Hd & Hp'). rewrite Hd, Hdim, Nat.eqb_refl.
  cbn [fst snd].
  fold (search_hits (index st) v (Z.min top_k (Py.len_list (video_store st)))).
  pose proof (search_hits_stored st v
                (Z.min top_k (Py.len_list (video_store st)))
                (conj Hd Hp')) as Hv.
  pose proof (join_results_stored (video_store st) full _ [] [] Hv) as Hj.
  cbn [app List.length] in Hj. rewrite Hj. reflexivity.
Qed.


(** ** The index pair *)

(** C1.  In every reachable state the index holds as many vectors as the
    store holds records, and the vector at position [i] is the embedding
    of record [i]'s transcript.  A call of [index_video] or
    [fetch_and_index_transcript] that appends puts its vector and its
    record under the same id, the number of records stored before the
    call, whatever the vector is; a call that does not append leaves both
    as they were, so the ids handed out are 0, 1, 2, ... in call order. *)
Theorem index_and_store_stay_aligned (st : State) :
  reachable C st ->
  List.length (Faiss.xb (index st)) = List.length (video_store st) /\
  (forall i record,
      nth_error (video_store st) i = Some record ->
      exists v transcript,
        nth_error (Faiss.xb (index st)) i = Some v /\
        Py.getitem record "transcript" = inr (VStr transcript) /\
        encode C transcript = inr v) /\
  (forall title transcript video_id,
      let r := index_video C title transcript video_id st in
      match fst r with
      | Return _ =>
          exists v, appended st (snd r) v
                      (indexed_record title transcript video_id)
      | Raise _ => snd r = st
      end) /\
  (forall video_id languages,
      let r := fetch_and_index_transcript C video_id languages st in
      exists result,
        fst r = Return result /\
        if Py.contains_key "error" result then same_db st (snd r)
        else exists v record, appended st (snd r) v record).
Proof.
  intros Hreach. pose proof (reachable_paired st Hreach) as Hp.
  pose proof (paired_same_length st Hp) as Hlen.
  split; [exact Hlen |]. split; [| split].
  - intros i record Hi.
    assert (Hlt : (i < List.length (video_store st))%nat)
      by (apply nth_error_Some; congruence).
    destruct (paired_record st i Hp Hlt) as (v & tr & Hv & _ & Hrec & Henc).
    rewrite (nth_error_nth' _ VNone Hlt) in Hi. injection Hi as <-.
    exists v, tr. split; [exact Hv |]. split; [| exact Henc].
    destruct Hrec; reflexivity.
  - intros title transcript video_id r. subst r.
    destruct (index_video_cases title transcript video_id st)
      as [(e & ->) | (vec & _ & _ & ->)]; cbn [fst snd].
    + reflexivity.
    + exists vec. apply appended_intro. exact Hlen.
  - intros video_id languages r. subst r.
    destruct (fetch_and_index_transcript_cases video_id languages st)
      as (v & st' & -> & [(Herr & w' & ->)
                         | (title & data & vec & w' & -> & _ & _ & ->)]);
      cbn [fst snd]; eexists; (split; [reflexivity |]).
    + rewrite Herr. apply same_db_set_world.
    + cbn [indexed_result Py.contains_key Py.assoc_mem String.eqb Ascii.eqb
             Bool.eqb].
      eexists; eexists. apply appended_intro. exact Hlen.
Qed.

(** C5.  [fetch_and_index_transcript] always returns a result.  A result
    with an "error" key leaves [index] and [video_store] as they were: a
    failed metadata fetch is returned as it is and ends the call, so does a
    failed transcript resolution, and a failed encoding is turned into an
    error result.  A result without "error" has status "indexed" with the
    title and the transcript length, and then exactly one vector and one
    record were appended.  And the call does succeed whenever its steps do:
    once the metadata and the transcript came without "error", the outcome
    is decided by the encoder and the index alone, and on success the
    title returned and stored is the metadata's, the transcript stored is
    the resolver's, and the length returned is the number of characters of
    that transcript. *)
Theorem fetch_and_index_transcript_all_or_nothing (video_id : string)
    (languages : option (list string)) (st : State) :
  (exists result st',
      fetch_and_index_transcript C video_id languages st = (Return result, st') /\
      ((Py.contains_key "error" result = true /\ same_db st st') \/
       (exists title transcript segments vec,
           result = indexed_result video_id title transcript segments /\
           encode C transcript = inr vec /\
           Faiss.xb (index st') = Faiss.xb (index st) ++ [vec] /\
           video_store st' =
             video_store st ++ [fetched_record video_id title transcript]))) /\
  (forall details st1,
      get_video_details C video_id st = (Return details, st1) ->
      Py.contains_key "error" details = true ->
      fetch_and_index_transcript C video_id languages st = (Return details, st1)) /\
  (forall details st1 transcript_result st2,
      get_video_details C video_id st = (Return details, st1) ->
      Py.contains_key "error" details = false ->
      get_video_transcript C (Some video_id) languages st1
        = (Return transcript_result, st2) ->
      Py.contains_key "error" transcript_result = true ->
      fetch_and_index_transcript C video_id languages st
        = (Return transcript_result, st2)) /\
  (forall details st1 data st2 e,
      get_video_details C video_id st = (Return details, st1) ->
      Py.contains_key "error" details = false ->
      get_video_transcript C (Some video_id) languages st1
        = (Return (transcript_result_of C video_id data), st2) ->
      encode C (format_transcript C data) = inl e ->
      fetch_and_index_transcript C video_id languages st
        = (Return (VDict [("error",
             VStr ("Failed to fetch and index transcript for " ++ video_id
                     ++ ": " ++ e)%string)]), st2)) /\
  (forall details st1 transcript_result st2,
      get_video_details C video_id st = (Return details, st1) ->
      Py.contains_key "error" details = false ->
      get_video_transcript C (Some video_id) languages st1
        = (Return transcript_result, st2) ->
      Py.contains_key "error" transcript_result = false ->
      exists title transcript,
        Py.getitem details "title" = inr (VStr title) /\
        Py.getitem transcript_result "transcript" = inr (VStr transcript) /\
        match encode C transcript with
        | inl e =>
            fetch_and_index_transcript C video_id languages st
              = (Return (VDict [("error",
                   VStr ("Failed to fetch and index transcript for " ++ video_id
                           ++ ": " ++ e)%string)]), st2)
        | inr vec =>
            if Nat.eqb (List.length vec) (Faiss.d (index st)) then
              fetch_and_index_transcript C video_id languages st
                = (Return
                     (VDict [ ("status", VStr "indexed");
                              ("video_id", VStr video_id);
                              ("title", VStr title);
                              ("transcript_length", VInt (Py.len_str transcript));
                              ("segments",
                                 Py.get transcript_result "segments" (VInt 0)) ]),
                   mkState
                     (Faiss.mkIndex (Faiss.d (index st))
                        (Faiss.xb (index st) ++ [vec]))
                     (video_store st
                        ++ [fetched_record video_id title transcript])
                     (world st2))
            else
              fetch_and_index_transcript C video_id languages st
                = (Return (VDict [("error",
                     VStr ("Failed to fetch and index transcript for " ++ video_id
                             ++ ": " ++ Py.AssertionError)%string)]), st2)
        end).
Proof.
  split; [| split; [| split; [| split]]].
  - destruct (fetch_and_index_transcript_cases video_id languages st)
      as (v & st' & E & Hcase).
    exists v, st'. split; [exact E |].
    destruct Hcase as [(Herr & w' & ->)
                      | (title & data & vec & w' & -> & Henc & _ & ->)].
    + left. split; [exact Herr | apply same_db_set_world].
    + right. exists title, (format_transcript C data), (Py.len_list data), vec.
      repeat split. exact Henc.
  - intros details st1 E1 Herr.
    unfold fetch_and_index_transcript. monad_simpl.
    rewrite E1, Herr. reflexivity.
  - intros details st1 tr st2 E1 Hne E2 Herr.
    unfold fetch_and_index_transcript. monad_simpl.
    rewrite E1, Hne, E2, Herr. reflexivity.
  - intros details st1 data st2 e E1 Hne E2 Henc.
    unfold fetch_and_index_transcript. monad_simpl.
    rewrite E1, Hne, E2.
    cbn [transcript_result_of Py.contains_key Py.assoc_mem Py.getitem
           Py.assoc_find String.eqb Ascii.eqb Bool.eqb].
    rewrite Henc. reflexivity.
  - intros details st1 tr st2 E1 Hne E2 Hne2.
    destruct (get_video_details_returns video_id st) as (d' & w1 & E1' & H1).
    rewrite E1 in E1'. injection E1' as -> ->.
    destruct H1 as [Herr | (title & _ & Htitle & Hurl)]; [congruence |].
    destruct (get_video_transcript_returns (Some video_id) languages
                (set_world st w1)) as (tr' & w2 & E2' & H2).
    rewrite E2 in E2'. injection E2' as -> ->.
    destruct H2 as [(msg & ->) | (vid & data & Hvid & ->)];
      [discriminate Hne2 |].
    injection Hvid as <-.
    exists title, (format_transcript C data).
    split; [exact Htitle |]. split; [reflexivity |].
    unfold fetch_and_index_transcript. monad_simpl.
    rewrite E1, Hne, E2.
    cbn [transcript_result_of Py.contains_key Py.assoc_mem Py.getitem
           Py.assoc_find String.eqb Ascii.eqb Bool.eqb].
    destruct (encode C (format_transcript C data)) as [e | vec];
      [reflexivity |].
    unfold index_add, Faiss.add. cbn [index video_store world set_world].
    destruct (Nat.eqb (List.length vec) (Faiss.d (index st)));
      [| reflexivity].
    rewrite Htitle, Hurl. reflexivity.
Qed.

(** C8.  With no record stored, [semantic_search] returns the dict
    {"error": "No videos indexed yet. Use index_video first."} and leaves
    the state alone; that result is no list, so in particular not the
    empty list of matches. *)
Theorem semantic_search_empty_store (query : string) (top_k : Z) (full : bool)
    (ix : Faiss.IndexFlatL2) (w : W) :
  semantic_search C query top_k full (mkState ix [] w) =
    (Return (VDict [("error",
       VStr "No videos indexed yet. Use index_video first.")]),
     mkState ix [] w) /\
  Py.contains_key "error"
    (VDict [("error", VStr "No videos indexed yet. Use index_video first.")])
    = true /\
  forall results,
    fst (semantic_search C query top_k full (mkState ix [] w))
      <> Return (VList results).
Proof.
  split; [reflexivity |]. split; [reflexivity |].
  intros results. cbn. discriminate.
Qed.

(** C9.  [check_transcript_availability] returns a result for every
    argument and never raises; when listing the tracks fails it returns
    has_transcripts = False with the text of the failure under "error".
    Whatever it returns, [index] and [video_store] are as before: only the
    world has moved. *)
Theorem check_transcript_availability_reads_only (video_id : option string)
    (st : State) :
  exists result w',
    check_transcript_availability C video_id st
      = (Return result, set_world st w') /\
    same_db st (set_world st w') /\
    match Py.truthy_str video_id with
    | None =>
        result = VDict [("error",
          VStr "You must provide a video_id to check transcript availability")]
    | Some vid =>
        match fst (list_transcripts C vid (world st)) with
        | inl e =>
            result = VDict [ ("video_id", VStr vid);
                             ("has_transcripts", VBool false);
                             ("error", VStr e) ]
        | inr tracks =>
            result = VDict [ ("video_id", VStr vid);
                             ("has_transcripts",
                                VBool (0 <? Py.len_list tracks));
                             ("available_transcripts",
                                VList (map transcript_info tracks));
                             ("count", VInt (Py.len_list tracks)) ]
        end
    end.
Proof.
  unfold check_transcript_availability.
  destruct (Py.truthy_str video_id) as [vid |].
  - unfold try_except, bind. rewrite call_run.
    destruct (list_transcripts C vid (world st)) as [[e | tracks] w'];
      cbn [fst snd]; unfold ret; eexists; exists w';
      (split; [reflexivity |]); (split; [apply same_db_set_world |]).
    + reflexivity.
    + unfold Py.len_list. rewrite length_map. reflexivity.
  - eexists; exists (world st). split; [destruct st; reflexivity |].
    split; [apply same_db_set_world | reflexivity].
Qed.

(** C4, as the code has it.  A bulk run never raises and never stops
    early: for the candidate list that discovery returned it files one
    entry of [details] per candidate, in the candidates' order, each with
    status "indexed", "failed" or "no_transcript"; "total_attempted" is
    the number of candidates; "indexed" counts the entries with status
    "indexed", which is also the number of records appended; and the one
    count "failed" covers the entries with status "failed" and those with
    status "no_transcript" together, so indexed + failed =
    total_attempted. *)
Theorem bulk_index_channel_videos_report (channel_id : string)
    (max_videos : Z) (st : State) :
  exists report st',
    bulk_index_channel_videos C channel_id max_videos st = (Return report, st') /\
    match fst (search_list C channel_id max_videos (world st)) with
    | inl e => report = VDict [("error", VStr e)]
    | inr response =>
        let candidates := match response with Some l => l | None => [] end in
        exists details,
          report =
            VDict [ ("status", VStr "completed");
                    ("indexed", VInt (count_status "indexed" details));
                    ("failed", VInt (count_status "failed" details
                                     + count_status "no_transcript" details));
                    ("total_attempted", VInt (Py.len_list candidates));
                    ("details", VList details) ] /\
          Forall2 detail_for candidates details /\
          count_status "indexed" details
            + (count_status "failed" details
               + count_status "no_transcript" details)
            = Py.len_list candidates /\
          Z.of_nat (List.length (video_store st')) =
            Z.of_nat (List.length (video_store st))
            + count_status "indexed" details
    end.
Proof.
  destruct (bulk_index_channel_videos_cases channel_id max_videos st)
    as (v & st' & E & _ & Hcase).
  exists v, st'. split; [exact E |].
  destruct (fst (search_list C channel_id max_videos (world st)))
    as [e | response]; [exact Hcase |].
  destruct Hcase as (details & Hv & Hds & Hn).
  exists details. split; [exact Hv |]. split; [exact Hds |].
  split; [apply detail_counts; exact Hds | exact Hn].
Qed.


(** ** Ranking *)

Lemma StronglySorted_app_l {A} (R : A -> A -> Prop) (l1 l2 : list A) :
  StronglySorted R (l1 ++ l2) -> StronglySorted R l1.
Proof.
  induction l1 as [| a l1 IH]; cbn [app]; intros Hs; [constructor |].
  apply StronglySorted_inv in Hs. destruct Hs as [Hs Ha].
  constructor; [apply IH; exact Hs |].
  apply Forall_app in Ha. tauto.
Qed.

Lemma nearest_hits (q : Vector) (vs : list Vector) (n : nat)
    (hits : list (Z * Q)) :
  nearest q vs n hits ->
  StronglySorted hit_before hits /\
  Forall (fun h => hit_of q vs h /\ fst h < Z.of_nat (List.length vs)) hits.
Proof.
  intros (_ & others & Hperm & Hs).
  split; [eapply StronglySorted_app_l; exact Hs |].
  apply Forall_forall. intros h Hin.
  apply all_hits_hit_of. apply (Permutation_in _ Hperm).
  apply in_or_app; left; exact Hin.
Qed.

Lemma semantic_search_hits (st : State) (query : string) (top_k : Z)
    (full : bool) (v : Vector) :
  paired C st ->
  video_store st <> [] ->
  encode C query = inr v ->
  List.length v = dimension ->
  exists hits,
    semantic_search C query top_k full st =
      (Return (VList (map (report full (video_store st)) hits)), st) /\
    nearest v (Faiss.xb (index st))
      (Z.to_nat (Z.min top_k (Py.len_list (video_store st)))) hits.
Proof.
  intros Hp Hne Henc Hdim.
  exists (search_hits (index st) v (Z.min top_k (Py.len_list (video_store st)))).
  split; [apply semantic_search_cases; assumption |].
  apply search_hits_nearest. unfold Faiss.ntotal, Py.len_list.
  rewrite (paired_same_length st Hp). lia.
Qed.

(** C2.  On a reachable state with [n >= 1] records, whenever the query
    can be embedded, [semantic_search] with [top_k = k] returns the
    reports of a list of hits that has min(k, n) entries (none when
    k <= 0), each hit carrying the id of a stored vector and its true
    distance to the query, the hits ordered by non-decreasing distance
    with equal distances in id order, and no stored vector left out that
    would come before a returned one. *)
Theorem semantic_search_nearest_first (st : State) (query : string)
    (top_k : Z) (full : bool) (v : Vector) :
  reachable C st ->
  video_store st <> [] ->
  encode C query = inr v ->
  List.length v = dimension ->
  exists hits,
    semantic_search C query top_k full st =
      (Return (VList (map (report full (video_store st)) hits)), st) /\
    Z.of_nat (List.length (map (report full (video_store st)) hits)) =
      Z.max 0 (Z.min top_k (Py.len_list (video_store st))) /\
    (top_k <= 0 -> hits = []) /\
    StronglySorted hit_before hits /\
    Forall (hit_of v (Faiss.xb (index st))) hits /\
    nearest v (Faiss.xb (index st)) (List.length hits) hits.
Proof.
  intros Hreach Hne Henc Hdim.
  pose proof (reachable_paired st Hreach) as Hp.
  destruct (semantic_search_hits st query top_k full v Hp Hne Henc Hdim)
    as (hits & E & Hnear).
  exists hits. split; [exact E |].
  pose proof Hnear as (Hlen & _).
  destruct (nearest_hits _ _ _ _ Hnear) as [Hs Hhits].
  split; [rewrite length_map, Hlen; unfold Py.len_list; lia |].
  split.
  { intros Hk. apply length_zero_iff_nil. rewrite Hlen.
    unfold Py.len_list. lia. }
  split; [exact Hs |].
  split; [eapply Forall_impl; [| exact Hhits]; cbn beta; tauto |].
  rewrite Hlen. exact Hnear.
Qed.

(** C10.  On a reachable state, whenever the query can be embedded, the
    join of [semantic_search] succeeds for every neighbour: each id lies
    inside the store (an id beyond it would be skipped unread), and each
    report reads "url" with a default.  A
    record appended by [index_video] has no "url" and is reported with
    url = None; a record appended by [fetch_and_index_transcript] is
    reported with the url stored with it. *)
Theorem semantic_search_join_is_total (st : State) (query : string)
    (top_k : Z) (full : bool) (v : Vector) :
  reachable C st ->
  video_store st <> [] ->
  encode C query = inr v ->
  List.length v = dimension ->
  exists hits,
    semantic_search C query top_k full st =
      (Return (VList (map (report full (video_store st)) hits)), st) /\
    Forall
      (fun h =>
         0 <= fst h < Py.len_list (video_store st) /\
         let record := nth (Z.to_nat (fst h)) (video_store st) VNone in
         let reported := report full (video_store st) h in
         (exists title transcript video_id,
             record = indexed_record title transcript video_id /\
             Py.contains_key "url" record = false /\
             Py.getitem reported "url" = inr VNone) \/
         (exists title transcript video_id,
             record = fetched_record video_id title transcript /\
             Py.getitem reported "url" = inr (VStr (watch_url video_id))))
      hits /\
    (forall D0 i idx,
        Py.len_list (video_store st) <= idx ->
        join_one (video_store st) full D0 i idx = inr None).
Proof.
  intros Hreach Hne Henc Hdim.
  pose proof (reachable_paired st Hreach) as Hp.
  exists (search_hits (index st) v (Z.min top_k (Py.len_list (video_store st)))).
  split; [apply semantic_search_cases; assumption |].
  split.
  2: { intros D0 i idx Hidx. unfold join_one.
       replace (idx <? Py.len_list (video_store st)) with false
         by (symmetry; apply Z.ltb_ge; exact Hidx).
       reflexivity. }
  eapply Forall_impl; [| apply search_hits_stored; exact Hp].
  intros h (Hidx & tr & Hrec). split; [exact Hidx |].
  cbv zeta. unfold report.
  destruct Hrec as [title transcript video_id | title transcript video_id].
  - left. exists title, transcript, video_id.
    split; [reflexivity |]. split; [reflexivity |].
    destruct full; reflexivity.
  - right. exists title, transcript, video_id.
    split; [reflexivity |]. destruct full; reflexivity.
Qed.


Lemma all_hits_app (q : Vector) (vs1 vs2 : list Vector) :
  forall next_id,
    all_hits q (vs1 ++ vs2) next_id =
    all_hits q vs1 next_id
      ++ all_hits q vs2 (next_id + Z.of_nat (List.length vs1)).
Proof.
  induction vs1 as [| v vs1 IH]; intros next_id; cbn [app all_hits List.length].
  - rewrite Z.add_0_r. reflexivity.
  - rewrite IH. do 3 f_equal. lia.
Qed.

Lemma report_score (full : bool) (store : list value) (h : Z * Q) :
  Py.getitem (report full store h) "similarity_score"
    = inr (VFloat (similarity_score (snd h))).
Proof. unfold report, video_data. destruct full; reflexivity. Qed.

Lemma report_title (full : bool) (store : list value) (h : Z * Q) :
  Py.getitem (report full store h) "title"
    = inr (Py.get (nth (Z.to_nat (fst h)) store VNone) "title" VNone).
Proof. unfold report, video_data. destruct full; reflexivity. Qed.

(** C3, as the code has it.  After [index_video title transcript] has
    returned on a reachable state, [semantic_search transcript] with
    [top_k >= 1] returns a non-empty list whose first entry has
    similarity_score 100.0; that entry's title is [title] provided no
    vector stored before the call is at distance 0 from the embedding of
    [transcript] (so on a fresh index in particular).  The score is
    round((1 / (1 + distance)) * 100, 2) in single precision: within 0.0051
    of 100 / (1 + distance) and within 0.0101 of the spec's
    round(100 / (1 + distance), 2); it is 100.0 at distance 0 and does not
    increase when the distance grows. *)
Theorem index_video_then_search (st : State) (title transcript : string)
    (video_id : option string) (top_k : Z) (full : bool)
    (r : value) (st' : State) :
  reachable C st ->
  index_video C title transcript video_id st = (Return r, st') ->
  1 <= top_k ->
  (exists top rest,
      semantic_search C transcript top_k full st'
        = (Return (VList (top :: rest)), st') /\
      Py.getitem top "similarity_score" = inr (VFloat 100%Q) /\
      ((forall vec old,
           encode C transcript = inr vec ->
           In old (Faiss.xb (index st)) ->
           ~ (Faiss.l2sqr vec old == 0)%Q) ->
       Py.getitem top "title" = inr (VStr title))) /\
  (forall distance,
      (0 <= distance)%Q ->
      (Qabs (similarity_score distance - 100 / (1 + distance))
         <= 51 # 10000)%Q /\
      (Qabs (similarity_score distance - similarity_spec distance)
         <= 101 # 10000)%Q) /\
  similarity_score 0%Q = 100%Q /\
  (forall d1 d2,
      (0 <= d1)%Q -> (d1 <= d2)%Q ->
      (similarity_score d2 <= similarity_score d1)%Q).
Proof.
  intros Hreach Hidx Hk.
  split; [| split; [| split; [reflexivity | exact similarity_score_antitone]]].
  2: { intros distance H0.
       split; [apply similarity_score_accuracy | apply similarity_score_near_spec];
         exact H0. }
  pose proof (reachable_paired st Hreach) as Hp.
  pose proof (paired_same_length st Hp) as Hsame.
  pose proof (index_video_grows title transcript video_id st) as Hg.
  destruct (index_video_cases title transcript video_id st)
    as [(e & E) | (vec & Henc & Hlen & E)];
    rewrite E in Hidx; [discriminate |].
  rewrite E in Hg; cbn [snd] in Hg.
  injection Hidx as _ <-.
  set (rec := indexed_record title transcript video_id) in *.
  set (st' := mkState _ _ _) in *.
  pose proof (paired_grows st st' Hp Hg) as Hp'.
  assert (Hdim : List.length vec = dimension).
  { destruct Hp as (Hd & _). congruence. }
  assert (Hne : video_store st' <> []).
  { subst st'; cbn [video_store]. intros Habs.
    apply app_eq_nil in Habs. destruct Habs; discriminate. }
  destruct (semantic_search_hits st' transcript top_k full vec Hp' Hne Henc Hdim)
    as (hits & Esearch & Hnear).
  pose proof Hnear as (Hlen' & others & Hperm & Hs).
  destruct hits as [| h0 hits].
  { exfalso. cbn [List.length] in Hlen'. subst st'; cbn [video_store] in Hlen'.
    unfold Py.len_list in Hlen'. rewrite length_app in Hlen'.
    cbn [List.length] in Hlen'. lia. }
  cbn [map] in Esearch.
  exists (report full (video_store st') h0),
         (map (report full (video_store st')) hits).
  split; [exact Esearch |].
  (* the new vector is among the candidates, at distance 0 *)
  assert (Hxb : Faiss.xb (index st') = Faiss.xb (index st) ++ [vec])
    by reflexivity.
  rewrite Hxb in Hperm.
  assert (Hlast : In (Z.of_nat (List.length (Faiss.xb (index st))),
                      Faiss.l2sqr vec vec)
                     (h0 :: hits ++ others)).
  { apply (Permutation_in _ (Permutation_sym Hperm)).
    rewrite all_hits_app. apply in_or_app; right. left. reflexivity. }
  assert (Hh0 : In h0 (all_hits vec (Faiss.xb (index st) ++ [vec]) 0)).
  { apply (Permutation_in _ Hperm). left; reflexivity. }
  destruct (all_hits_in _ _ _ _ Hh0) as (i & v' & Hi & Hnth & Hd0).
  assert (Hzero : (snd h0 == 0)%Q).
  { apply Qle_antisym.
    - destruct Hlast as [Heq | Hin].
      + rewrite Heq. cbn [snd]. rewrite l2sqr_self. apply Qle_refl.
      + cbn [app] in Hs. apply StronglySorted_inv in Hs. destruct Hs as [_ Hall].
        rewrite Forall_forall in Hall. specialize (Hall _ Hin).
        apply hit_before_le in Hall. cbn [snd] in Hall.
        rewrite l2sqr_self in Hall. exact Hall.
    - rewrite Hd0. apply l2sqr_nonneg. }
  split.
  { rewrite report_score, (similarity_score_zero _ Hzero). reflexivity. }
  intros Hfresh. rewrite report_title.
  assert (Hi' : i = List.length (Faiss.xb (index st))).
  { assert (Hlt : (i < List.length (Faiss.xb (index st) ++ [vec]))%nat)
      by (apply nth_error_Some; congruence).
    rewrite length_app in Hlt; cbn [List.length] in Hlt.
    destruct (Nat.eq_dec i (List.length (Faiss.xb (index st)))) as [-> | Hneq];
      [reflexivity | exfalso].
    rewrite nth_error_app1 in Hnth by lia.
    apply nth_error_In in Hnth.
    apply (Hfresh vec v' Henc Hnth). rewrite <- Hd0. exact Hzero. }
  rewrite Hi, Z.add_0_l, Nat2Z.id, Hi', Hsame.
  subst st'; cbn [video_store].
  rewrite app_nth2, Nat.sub_diag by lia. reflexivity.
Qed.


(** ** Transcript resolution *)

Lemma track_with_some (generated : bool) (code : string)
    (tracks : list Transcript) (t : Transcript) :
  track_with generated code tracks = Some t ->
  In t tracks /\ language_code t = code /\ is_generated t = generated.
Proof.
  induction tracks as [| t' rest IH]; cbn [track_with]; [discriminate |].
  destruct (String.eqb (language_code t') code
            && Bool.eqb (is_generated t') generated) eqn:E.
  - intros [= <-]. apply andb_prop in E. destruct E as [E1 E2].
    apply String.eqb_eq in E1. apply Bool.eqb_prop in E2.
    split; [left; reflexivity | split; assumption].
  - intros H. destruct (IH H) as (Hin & Hrest). split; [right; exact Hin | exact Hrest].
Qed.

Lemma track_with_none (generated : bool) (code : string)
    (tracks : list Transcript) :
  (forall t, In t tracks -> language_code t <> code) ->
  track_with generated code tracks = None.
Proof.
  induction tracks as [| t' rest IH]; cbn [track_with]; intros H; [reflexivity |].
  replace (String.eqb (language_code t') code) with false.
  - cbn [andb]. apply IH. intros t Hin. apply H. right; exact Hin.
  - symmetry. apply String.eqb_neq. apply H. left; reflexivity.
Qed.

Lemma track_with_none_inv (code : string) (tracks : list Transcript) :
  track_with false code tracks = None ->
  track_with true code tracks = None ->
  forall t, In t tracks -> language_code t <> code.
Proof.
  induction tracks as [| t' rest IH]; cbn [track_with In]; [tauto |].
  intros Hm Hg t [<- | Hin] Hcode.
  - apply String.eqb_eq in Hcode. rewrite Hcode in Hm, Hg. cbn [andb] in Hm, Hg.
    destruct (is_generated t'); cbn [Bool.eqb] in Hm, Hg; discriminate.
  - destruct (String.eqb (language_code t') code
              && Bool.eqb (is_generated t') false); [discriminate |].
    destruct (String.eqb (language_code t') code
              && Bool.eqb (is_generated t') true); [discriminate |].
    exact (IH Hm Hg t Hin Hcode).
Qed.

Lemma requested_iff (languages : list string) (t : Transcript) :
  existsb (String.eqb (language_code t)) languages = true
  <-> In (language_code t) languages.
Proof.
  rewrite existsb_exists. split.
  - intros (code & Hin & E). apply String.eqb_eq in E. rewrite E. exact Hin.
  - intros Hin. exists (language_code t). split; [exact Hin | apply String.eqb_refl].
Qed.

Lemma first_of_any_none (languages : list string) (tracks : list Transcript) :
  (forall t, In t tracks -> ~ In (language_code t) languages) ->
  first_of_any languages tracks = None.
Proof.
  unfold first_of_any.
  induction tracks as [| t rest IH]; cbn [find]; intros H; [reflexivity |].
  destruct (existsb (String.eqb (language_code t)) languages) eqn:E.
  - exfalso. apply (H t); [left; reflexivity |]. apply requested_iff. exact E.
  - apply IH. intros t' Hin. apply H. right; exact Hin.
Qed.

Lemma first_of_any_first (languages : list string)
    (before : list Transcript) (t : Transcript) (after : list Transcript) :
  In (language_code t) languages ->
  (forall t', In t' before -> ~ In (language_code t') languages) ->
  first_of_any languages (before ++ t :: after) = Some t.
Proof.
  unfold first_of_any. intros Ht.
  induction before as [| t0 before IH]; cbn [app find]; intros H.
  - apply requested_iff in Ht. rewrite Ht. reflexivity.
  - destruct (existsb (String.eqb (language_code t0)) languages) eqn:E.
    + exfalso. apply (H t0); [left; reflexivity |]. apply requested_iff. exact E.
    + apply IH. intros t' Hin. apply H. right; exact Hin.
Qed.

Lemma transcript_error_message (video_id : string) (e : Exn) :
  exists msg,
    transcript_error video_id e = VDict [("error", VStr msg)] /\
    (msg = ("No transcript found for video " ++ video_id
              ++ " in requested languages")%string
     <-> ~ occurs_in "TranscriptsDisabled" e /\ occurs_in "NoTranscriptFound" e) /\
    (~ occurs_in "TranscriptsDisabled" e -> ~ occurs_in "NoTranscriptFound" e ->
     ~ occurs_in "VideoUnavailable" e ->
     msg = ("Failed to get transcript for " ++ video_id ++ ": " ++ e)%string).
Proof.
  unfold transcript_error.
  destruct (Py.str_contains "TranscriptsDisabled" e) eqn:E1;
    [| destruct (Py.str_contains "NoTranscriptFound" e) eqn:E2;
       [| destruct (Py.str_contains "VideoUnavailable" e) eqn:E3]];
    repeat match goal with
           | H : Py.str_contains _ _ = true |- _ => apply str_contains_occurs in H
           | H : Py.str_contains _ _ = false |- _ =>
               apply str_contains_not_occurs in H
           end;
    eexists; (split; [reflexivity |]); (split; [split |]);
    try (intros H; cbn in H; discriminate H);
    try tauto.
Qed.

(** C6, as the code has it.  With an explicit language list,
    [get_video_transcript] lists the tracks and asks for the requested
    languages only.  When a listed track has a requested language, the first
    such track in the order listed is downloaded, and the result is what
    that download gives.  When none has, nothing is downloaded and an error
    is returned, whatever else is on offer: there is no fallback.  Which
    error it is hangs on the text of the caption library's exception: the
    handler looks for the class name "NoTranscriptFound" in [str(e)], so the
    error is "No transcript found for video ... in requested languages" when
    that name occurs in the text (and "TranscriptsDisabled" does not), and
    only then; for a text that names none of the three classes, as the
    library's message does, it is the catch-all
    "Failed to get transcript for ...: " followed by the text. *)
Theorem get_video_transcript_requested_languages (c : ascii) (r : string)
    (languages : list string) (st : State) (tracks : list Transcript) (w1 : W) :
  let video_id := String c r in
  list_transcripts C video_id (world st) = (inr tracks, w1) ->
  ((forall t, In t tracks -> ~ In (language_code t) languages) ->
   exists msg,
     get_video_transcript C (Some video_id) (Some languages) st =
       (Return (VDict [("error", VStr msg)]), set_world st w1) /\
     (msg = ("No transcript found for video " ++ video_id
               ++ " in requested languages")%string
      <-> ~ occurs_in "TranscriptsDisabled" (NoTranscriptFound C languages) /\
          occurs_in "NoTranscriptFound" (NoTranscriptFound C languages)) /\
     (~ occurs_in "TranscriptsDisabled" (NoTranscriptFound C languages) ->
      ~ occurs_in "NoTranscriptFound" (NoTranscriptFound C languages) ->
      ~ occurs_in "VideoUnavailable" (NoTranscriptFound C languages) ->
      msg = ("Failed to get transcript for " ++ video_id ++ ": "
               ++ NoTranscriptFound C languages)%string)) /\
  (forall before t after,
      tracks = before ++ t :: after ->
      In (language_code t) languages ->
      (forall t', In t' before -> ~ In (language_code t') languages) ->
      get_video_transcript C (Some video_id) (Some languages) st =
        match fetch C t w1 with
        | (inr data, w2) =>
            (Return (transcript_result_of C video_id data), set_world st w2)
        | (inl e, w2) =>
            (Return (transcript_error video_id e), set_world st w2)
        end).
Proof.
  intros video_id Hlist. subst video_id.
  assert (Hrun : get_video_transcript C (Some (String c r)) (Some languages) st =
            match first_of_any languages tracks with
            | None =>
                (Return (transcript_error (String c r) (NoTranscriptFound C languages)),
                 set_world st w1)
            | Some t =>
                match fetch C t w1 with
                | (inr data, w2) =>
                    (Return (transcript_result_of C (String c r) data), set_world st w2)
                | (inl e, w2) =>
                    (Return (transcript_error (String c r) e), set_world st w2)
                end
            end).
  { unfold get_video_transcript. cbn [Py.truthy_str].
    unfold get_transcript. monad_simpl.
    rewrite call_run, Hlist. cbn [fst snd].
    unfold find_transcript, or_raise.
    destruct (first_of_any languages tracks) as [t |]; [| reflexivity].
    rewrite call_run. cbn [world set_world].
    destruct (fetch C t w1) as [[e | data] w2]; reflexivity. }
  split.
  - intros Hnone. rewrite Hrun, (first_of_any_none _ _ Hnone).
    destruct (transcript_error_message (String c r) (NoTranscriptFound C languages))
      as (msg & -> & Hiff & Hother).
    exists msg. split; [reflexivity |]. split; assumption.
  - intros before t after -> Ht Hbefore.
    rewrite Hrun, (first_of_any_first _ _ _ _ Ht Hbefore). reflexivity.
Qed.

Lemma track_with_manual_en (tracks : list Transcript) :
  track_with false "en" tracks = manual_en tracks.
Proof.
  unfold manual_en. induction tracks as [| t rest IH]; cbn [track_with find];
    [reflexivity |].
  rewrite IH. destruct (is_generated t); reflexivity.
Qed.

Lemma track_with_generated_en (tracks : list Transcript) :
  track_with true "en" tracks = generated_en tracks.
Proof.
  unfold generated_en. induction tracks as [| t rest IH]; cbn [track_with find];
    [reflexivity |].
  rewrite IH. destruct (is_generated t); reflexivity.
Qed.

(** C7.  Without a language list, [get_video_transcript] does what the
    resolver of the spec does: it lists the tracks, tries the first
    manually created "en" track, else the first auto-generated "en"
    track, else the first track listed whatever its language, and returns
    the first transcript it gets; with no track listed it returns the
    error "No transcripts available for video ..." and no transcript. *)
Theorem get_video_transcript_default_order (c : ascii) (r : string)
    (st : State) :
  let video_id := String c r in
  get_video_transcript C (Some video_id) None st =
    (Return (fst (resolve_spec C video_id (world st))),
     set_world st (snd (resolve_spec C video_id (world st)))) /\
  (forall tracks t,
      manual_en tracks = Some t ->
      In t tracks /\ language_code t = "en" /\ is_generated t = false) /\
  (forall tracks t,
      generated_en tracks = Some t ->
      In t tracks /\ language_code t = "en" /\ is_generated t = true) /\
  (forall w1,
      list_transcripts C video_id (world st) = (inr [], w1) ->
      get_video_transcript C (Some video_id) None st =
        (Return (VDict [("error",
           VStr ("No transcripts available for video " ++ video_id)%string)]),
         set_world st w1)).
Proof.
  intros video_id. subst video_id.
  assert (Hrun : get_video_transcript C (Some (String c r)) None st =
            (Return (fst (resolve_spec C (String c r) (world st))),
             set_world st (snd (resolve_spec C (String c r) (world st))))).
  { unfold get_video_transcript. cbn [Py.truthy_str].
    unfold default_transcript_data, resolve_spec, attempt.
    unfold find_manually_created_transcript, find_generated_transcript, or_raise.
    cbn [first_of_kind].
    monad_simpl. rewrite call_run.
    destruct (list_transcripts C (String c r) (world st)) as [[e | tracks] w1];
      cbn [fst snd]; [reflexivity |].
    rewrite track_with_manual_en, track_with_generated_en.
    destruct (manual_en tracks) as [tm |];
      [rewrite call_run; cbn [world set_world];
       destruct (fetch C tm w1) as [[e1 | d1] w2]; cbn [fst snd];
       [| reflexivity] |];
      (destruct (generated_en tracks) as [tg |];
       [rewrite call_run; cbn [world set_world];
        match goal with
        | |- context [fetch C tg ?w] =>
            destruct (fetch C tg w) as [[e2 | d2] w3]; cbn [fst snd];
            [| reflexivity]
        end |];
       (destruct tracks as [| first rest]; [reflexivity |];
        rewrite call_run; cbn [world set_world];
        match goal with
        | |- context [fetch C first ?w] =>
            destruct (fetch C first w) as [[e3 | d3] w4]; reflexivity
        end)). }
  split; [exact Hrun |]. split; [| split].
  - intros tracks t Ht. rewrite <- track_with_manual_en in Ht.
    exact (track_with_some _ _ _ _ Ht).
  - intros tracks t Ht. rewrite <- track_with_generated_en in Ht.
    exact (track_with_some _ _ _ _ Ht).
  - intros w1 Hlist. rewrite Hrun. unfold resolve_spec. rewrite Hlist.
    reflexivity.
Qed.

End Properties.

(** * The properties at work on the stub world *)

Section Instances.

Local Abbreviation K := Stub.collaborators.

Lemma stub_one_reachable : reachable K Stub.one.
Proof.
  exact (@reach_call _ K _ (CallIndexVideo "T" "hello world" None)
           (@reach_initial _ K 0%nat)).
Defined.

Lemma stub_two_reachable : reachable K Stub.two.
Proof.
  exact (@reach_call _ K _ (CallFetchAndIndex "A" None) stub_one_reachable).
Defined.

Lemma stub_older_reachable : reachable K Stub.older.
Proof.
  exact (@reach_call _ K _ (CallIndexVideo "S" "hello world" None)
           (@reach_initial _ K 0%nat)).
Defined.

Lemma index_and_store_stay_aligned_at_two :
  reachable K Stub.two /\
  List.length (Faiss.xb (index Stub.two)) = List.length (video_store Stub.two) /\
  List.length (video_store Stub.two) = 2%nat /\
  exists v transcript,
    nth_error (Faiss.xb (index Stub.two)) 1 = Some v /\
    Py.getitem (fetched_record "A" "Title of A" "words of A in en") "transcript"
      = inr (VStr transcript) /\
    encode K transcript = inr v.
Proof.
  destruct (index_and_store_stay_aligned K Stub.two stub_two_reachable)
    as (Hlen & Hrec & _).
  split; [exact stub_two_reachable |]. split; [exact Hlen |].
  split; [vm_compute; reflexivity |].
  apply (Hrec 1%nat). vm_compute. reflexivity.
Defined.

Lemma semantic_search_nearest_first_at_two :
  reachable K Stub.two /\
  video_store Stub.two <> [] /\
  encode K "hello world?" = inr (Stub.vector_of 12) /\
  List.length (Stub.vector_of 12) = dimension /\
  exists hits,
    semantic_search K "hello world?" 1 false Stub.two =
      (Return (VList (map (report false (video_store Stub.two)) hits)), Stub.two) /\
    Z.of_nat (List.length (map (report false (video_store Stub.two)) hits)) = 1.
Proof.
  assert (Hne : video_store Stub.two <> []) by (vm_compute; discriminate).
  assert (Henc : encode K "hello world?" = inr (Stub.vector_of 12))
    by (vm_compute; reflexivity).
  assert (Hdim : List.length (Stub.vector_of 12) = dimension)
    by (vm_compute; reflexivity).
  split; [exact stub_two_reachable |]. split; [exact Hne |].
  split; [exact Henc |]. split; [exact Hdim |].
  destruct (semantic_search_nearest_first K Stub.two "hello world?" 1 false
              (Stub.vector_of 12) stub_two_reachable Hne Henc Hdim)
    as (hits & E & Hlen & _).
  exists hits. split; [exact E |]. rewrite Hlen. vm_compute. reflexivity.
Defined.

Lemma semantic_search_join_is_total_at_two :
  reachable K Stub.two /\
  video_store Stub.two <> [] /\
  encode K "hello world?" = inr (Stub.vector_of 12) /\
  List.length (Stub.vector_of 12) = dimension /\
  exists hits,
    semantic_search K "hello world?" 5 true Stub.two =
      (Return (VList (map (report true (video_store Stub.two)) hits)), Stub.two).
Proof.
  assert (Hne : video_store Stub.two <> []) by (vm_compute; discriminate).
  assert (Henc : encode K "hello world?" = inr (Stub.vector_of 12))
    by (vm_compute; reflexivity).
  assert (Hdim : List.length (Stub.vector_of 12) = dimension)
    by (vm_compute; reflexivity).
  split; [exact stub_two_reachable |]. split; [exact Hne |].
  split; [exact Henc |]. split; [exact Hdim |].
  destruct (semantic_search_join_is_total K Stub.two "hello world?" 5 true
              (Stub.vector_of 12) stub_two_reachable Hne Henc Hdim)
    as (hits & E & _ & _).
  exists hits. exact E.
Defined.

Lemma index_video_then_search_on_fresh_index :
  reachable K Stub.start /\
  index_video K "T" "hello world" None Stub.start =
    (Return (VDict [("status", VStr "indexed"); ("title", VStr "T")]), Stub.one) /\
  1 <= 3 /\
  exists top rest,
    semantic_search K "hello world" 3 false Stub.one
      = (Return (VList (top :: rest)), Stub.one) /\
    Py.getitem top "similarity_score" = inr (VFloat 100%Q) /\
    Py.getitem top "title" = inr (VStr "T").
Proof.
  assert (Hidx : index_video K "T" "hello world" None Stub.start =
            (Return (VDict [("status", VStr "indexed"); ("title", VStr "T")]),
             Stub.one)) by (vm_compute; reflexivity).
  assert (Hk : 1 <= 3) by lia.
  split; [exact (@reach_initial _ K 0%nat) |]. split; [exact Hidx |].
  split; [exact Hk |].
  destruct (index_video_then_search K Stub.start "T" "hello world" None 3 false
              _ _ (@reach_initial _ K 0%nat) Hidx Hk)
    as ((top & rest & E & Hscore & Htitle) & _).
  exists top, rest. split; [exact E |]. split; [exact Hscore |].
  apply Htitle. intros vec old _ Hin. destruct Hin.
Defined.

Lemma get_video_transcript_french_asked_english_offered :
  list_transcripts K "A" (world Stub.start) = (inr [Stub.en_manual "A"], 1%nat) /\
  (forall t, In t [Stub.en_manual "A"] -> ~ In (language_code t) ["fr"]) /\
  ~ occurs_in "TranscriptsDisabled" (NoTranscriptFound K ["fr"]) /\
  ~ occurs_in "NoTranscriptFound" (NoTranscriptFound K ["fr"]) /\
  ~ occurs_in "VideoUnavailable" (NoTranscriptFound K ["fr"]) /\
  get_video_transcript K (Some "A") (Some ["fr"]) Stub.start =
    (Return (VDict [("error",
       VStr ("Failed to get transcript for A: "
             ++ "Could not retrieve a transcript for the video! This is most "
             ++ "likely caused by: No transcripts were found for any of the "
             ++ "requested language codes: fr"))]),
     set_world Stub.start 1%nat) /\
  fst (get_video_transcript K (Some "A") (Some ["fr"]) Stub.start) <>
    Return (VDict [("error",
      VStr "No transcript found for video A in requested languages")]).
Proof.
  assert (Hlist : list_transcripts K "A" (world Stub.start)
                  = (inr [Stub.en_manual "A"], 1%nat)) by reflexivity.
  assert (Hno : forall t, In t [Stub.en_manual "A"] ->
                          ~ In (language_code t) ["fr"]).
  { intros t [<- | []] [Hc | []]. discriminate Hc. }
  assert (H1 : ~ occurs_in "TranscriptsDisabled" (NoTranscriptFound K ["fr"]))
    by (apply str_contains_not_occurs; vm_compute; reflexivity).
  assert (H2 : ~ occurs_in "NoTranscriptFound" (NoTranscriptFound K ["fr"]))
    by (apply str_contains_not_occurs; vm_compute; reflexivity).
  assert (H3 : ~ occurs_in "VideoUnavailable" (NoTranscriptFound K ["fr"]))
    by (apply str_contains_not_occurs; vm_compute; reflexivity).
  split; [exact Hlist |]. split; [exact Hno |].
  split; [exact H1 |]. split; [exact H2 |]. split; [exact H3 |].
  destruct (get_video_transcript_requested_languages K "A"%char "" ["fr"]
              Stub.start [Stub.en_manual "A"] 1%nat Hlist) as [Hnone _].
  destruct (Hnone Hno) as (msg & E & _ & Hother).
  rewrite E, (Hother H1 H2 H3). split; [reflexivity |].
  cbn [fst]. intros Habs. injection Habs as Habs. vm_compute in Habs.
  discriminate Habs.
Defined.

Lemma get_video_transcript_default_order_no_tracks :
  list_transcripts K "B" (world Stub.start) = (inr [], 1%nat) /\
  get_video_transcript K (Some "B") None Stub.start =
    (Return (VDict [("error", VStr "No transcripts available for video B")]),
     set_world Stub.start 1%nat).
Proof.
  assert (Hlist : list_transcripts K "B" (world Stub.start) = (inr [], 1%nat))
    by reflexivity.
  split; [exact Hlist |].
  destruct (get_video_transcript_default_order K "B"%char "" Stub.start)
    as (_ & _ & _ & Hnone).
  exact (Hnone 1%nat Hlist).
Defined.

Lemma fetch_and_index_transcript_indexes_A_and_not_C :
  (get_video_details K "A" Stub.one
     = (Return (VDict [ ("title", VStr "Title of A"); ("description", VStr "");
                        ("channel", VStr "chan"); ("published", VStr "2024");
                        ("views", VStr "0"); ("likes", VStr "0");
                        ("comments", VStr "0");
                        ("url", VStr "https://www.youtube.com/watch?v=A") ]),
        set_world Stub.one 1%nat) /\
   get_video_transcript K (Some "A") None (set_world Stub.one 1%nat)
     = (Return (VDict [ ("video_id", VStr "A");
                        ("transcript", VStr "words of A in en");
                        ("length", VInt 16); ("segments", VInt 1) ]),
        set_world Stub.one 3%nat) /\
   fetch_and_index_transcript K "A" None Stub.one
     = (Return (VDict [ ("status", VStr "indexed"); ("video_id", VStr "A");
                        ("title", VStr "Title of A");
                        ("transcript_length", VInt 16);
                        ("segments", VInt 1) ]),
        Stub.two) /\
   video_store Stub.two
     = video_store Stub.one
         ++ [fetched_record "A" "Title of A" "words of A in en"]) /\
  (exists result st',
      fetch_and_index_transcript K "C" None Stub.one = (Return result, st') /\
      Py.contains_key "error" result = true /\
      same_db Stub.one st').
Proof.
  destruct (fetch_and_index_transcript_all_or_nothing K "A" None Stub.one)
    as (_ & _ & _ & _ & Hsteps).
  destruct (fetch_and_index_transcript_all_or_nothing K "C" None Stub.one)
    as ((result & st' & E & Hcase) & _).
  split.
  - assert (E1 : get_video_details K "A" Stub.one
       = (Return (VDict [ ("title", VStr "Title of A"); ("description", VStr "");
                          ("channel", VStr "chan"); ("published", VStr "2024");
                          ("views", VStr "0"); ("likes", VStr "0");
                          ("comments", VStr "0");
                          ("url", VStr "https://www.youtube.com/watch?v=A") ]),
          set_world Stub.one 1%nat)) by (vm_compute; reflexivity).
    assert (E2 : get_video_transcript K (Some "A") None (set_world Stub.one 1%nat)
       = (Return (VDict [ ("video_id", VStr "A");
                          ("transcript", VStr "words of A in en");
                          ("length", VInt 16); ("segments", VInt 1) ]),
          set_world Stub.one 3%nat)) by (vm_compute; reflexivity).
    split; [exact E1 |]. split; [exact E2 |].
    destruct (Hsteps _ _ _ _ E1 eq_refl E2 eq_refl)
      as (title & transcript & Htitle & Htr & Hrun).
    injection Htitle as <-. injection Htr as <-.
    split; [exact Hrun | vm_compute; reflexivity].
  - exists result, st'. split; [exact E |].
    destruct Hcase as [Herr | (title & tr & segs & vec & Hres & _)];
      [exact Herr | exfalso].
    rewrite Hres in E. vm_compute in E. discriminate E.
Defined.

(** With an earlier record of the same transcript, the query's top
    result is the earlier record: equal distances go to the lower id.  And
    the score is not always round(100 / (1 + distance), 2): at distance
    18315/1024 that is 5.29, and the code's single precision gives 5.3. *)
Lemma same_transcript_twice_ranks_the_older_first :
  (reachable K Stub.older /\
   index_video K "T" "hello world" None Stub.older =
     (Return (VDict [("status", VStr "indexed"); ("title", VStr "T")]), Stub.both) /\
   exists top rest,
     semantic_search K "hello world" 3 false Stub.both
       = (Return (VList (top :: rest)), Stub.both) /\
     Py.getitem top "title" = inr (VStr "S") /\
     Py.getitem top "title" <> inr (VStr "T")) /\
  (similarity_spec (18315 # 1024) = (529 # 100)%Q /\
   similarity_score (18315 # 1024) = Float32.round (53 # 10) /\
   similarity_score (18315 # 1024) <> similarity_spec (18315 # 1024)).
Proof.
  split.
  - split; [exact stub_older_reachable |].
    split; [vm_compute; reflexivity |].
    eexists; eexists. split; [vm_compute; reflexivity |].
    split; [reflexivity | discriminate].
  - split; [vm_compute; reflexivity |].
    split; [vm_compute; reflexivity |]. vm_compute. discriminate.
Qed.

(** On the candidates A (has a transcript), B (lists no track) and C
    (download fails) the report has indexed = 1 and total_attempted = 3
    with the three entries in order, and its only other count is
    failed = 2: the no_transcript entry is counted as failed. *)
Lemma bulk_report_counts_no_transcript_as_failed :
  exists report,
    fst (bulk_index_channel_videos K "chan" 10 Stub.start) = Return report /\
    report =
      VDict [ ("status", VStr "completed"); ("indexed", VInt 1);
              ("failed", VInt 2); ("total_attempted", VInt 3);
              ("details", VList
                 [ VDict [ ("video_id", VStr "A"); ("title", VStr "Video A");
                           ("status", VStr "indexed");
                           ("transcript_length", VInt 16) ];
                   VDict [ ("video_id", VStr "B"); ("title", VStr "Video B");
                           ("status", VStr "no_transcript");
                           ("error", VStr "No transcripts available") ];
                   VDict [ ("video_id", VStr "C"); ("title", VStr "Video C");
                           ("status", VStr "failed");
                           ("error", VStr
                              "Failed to get transcript for C: connection reset") ] ]) ] /\
    ~ separate_counts report.
Proof.
  eexists. split; [vm_compute; reflexivity |]. split; [reflexivity |].
  intros (details & Hd & Hf & _).
  cbn in Hd. injection Hd as <-. vm_compute in Hf. discriminate Hf.
Qed.

End Instances.

(** * Further properties of the server *)

Ltac tool_unfold :=
  unfold try_except, bind, lift, ret, raise, as_str, as_opt_str, as_list,
    get_state in *.

Ltac tool_simpl := repeat progress (tool_unfold; cbv beta iota).

(** ** The tools of the index, continued *)

Section IndexTools.

Context {W : Type}.
Variable C : Collaborators W.

Local Abbreviation State := (@State W).

(** X1.  [get_video_details] never raises and leaves the index and the
    store alone.  Its result has an "error" key exactly when the request
    failed (the key holds the failure's text) or answered without a video
    ("Video not found"); otherwise it describes the first item returned:
    the item's title, the watch URL of the id that was asked for, and for
    each of views, likes and comments the count the API sent, or the string
    "0" when the API sent none. *)
Theorem get_video_details_outcomes (video_id : string) (st : State) :
  exists v,
    get_video_details C video_id st =
      (Return v, set_world st (snd (videos_list C video_id (world st)))) /\
    match fst (videos_list C video_id (world st)) with
    | inl e => v = VDict [("error", VStr e)]
    | inr None | inr (Some []) => v = VDict [("error", VStr "Video not found")]
    | inr (Some (item :: _)) =>
        Py.contains_key "error" v = false /\
        Py.getitem v "title" = inr (VStr (snippet_title item)) /\
        Py.getitem v "url" = inr (VStr (watch_url video_id)) /\
        Py.getitem v "views" =
          inr (Py.get (VDict (statistics item)) "viewCount" (VStr "0")) /\
        Py.getitem v "likes" =
          inr (Py.get (VDict (statistics item)) "likeCount" (VStr "0")) /\
        Py.getitem v "comments" =
          inr (Py.get (VDict (statistics item)) "commentCount" (VStr "0"))
    end.
Proof.
  unfold get_video_details, try_except, bind, call, set_world.
  destruct (videos_list C video_id (world st)) as [[e | [[| item rest] |]] w'];
    cbn [fst snd]; unfold ret; eexists; (split; [reflexivity |]);
    try reflexivity.
  repeat split.
Qed.

(** X2.  [get_latest_videos_from_channel] never raises and leaves the index
    and the store alone.  A failed request gives {"error": text}; an answer
    gives a list with one entry per item, in the API's order, each entry
    carrying the item's video id, its title and the watch URL of that id; an
    answer without "items" gives the empty list, not an error. *)
Theorem get_latest_videos_from_channel_outcomes (channel_id : string)
    (max_results : Z) (st : State) :
  exists v,
    get_latest_videos_from_channel C channel_id max_results st =
      (Return v,
       set_world st (snd (search_list C channel_id max_results (world st)))) /\
    match fst (search_list C channel_id max_results (world st)) with
    | inl e => v = VDict [("error", VStr e)]
    | inr None => v = VList []
    | inr (Some items) =>
        exists entries,
          v = VList entries /\
          Forall2 (fun item entry =>
                     Py.contains_key "error" entry = false /\
                     Py.getitem entry "video_id" = inr (VStr (item_videoId item)) /\
                     Py.getitem entry "title" = inr (VStr (item_title item)) /\
                     Py.getitem entry "url"
                       = inr (VStr (watch_url (item_videoId item))))
                  items entries
    end.
Proof.
  eexists. split; [apply get_latest_videos_from_channel_returns |].
  destruct (fst (search_list C channel_id max_results (world st)))
    as [e | [items |]]; try reflexivity.
  exists (map video_data_of items). split; [reflexivity |].
  induction items as [| item items IH]; cbn [map]; constructor;
    [repeat split | exact IH].
Qed.

(** X3.  When listing the tracks fails, [get_video_transcript] (with or
    without a language list) downloads nothing and returns an error chosen
    by the text of the failure alone, the first rule that applies winning:
    "TranscriptsDisabled" occurs in the text: "Transcripts are disabled for
    video <id>"; else "NoTranscriptFound" occurs: "No transcript found for
    video <id> in requested languages"; else "VideoUnavailable" occurs:
    "Video <id> is unavailable"; else "Failed to get transcript for <id>: "
    followed by the text itself. *)
Theorem get_video_transcript_classifies_failures (c : ascii) (r : string)
    (languages : option (list string)) (st : State) (e : Exn) (w1 : W) :
  let video_id := String c r in
  list_transcripts C video_id (world st) = (inl e, w1) ->
  exists msg,
    get_video_transcript C (Some video_id) languages st =
      (Return (VDict [("error", VStr msg)]), set_world st w1) /\
    (occurs_in "TranscriptsDisabled" e ->
     msg = ("Transcripts are disabled for video " ++ video_id)%string) /\
    (~ occurs_in "TranscriptsDisabled" e -> occurs_in "NoTranscriptFound" e ->
     msg = ("No transcript found for video " ++ video_id
              ++ " in requested languages")%string) /\
    (~ occurs_in "TranscriptsDisabled" e -> ~ occurs_in "NoTranscriptFound" e ->
     occurs_in "VideoUnavailable" e ->
     msg = ("Video " ++ video_id ++ " is unavailable")%string) /\
    (~ occurs_in "TranscriptsDisabled" e -> ~ occurs_in "NoTranscriptFound" e ->
     ~ occurs_in "VideoUnavailable" e ->
     msg = ("Failed to get transcript for " ++ video_id ++ ": " ++ e)%string).
Proof.
  intros video_id Hlist. subst video_id.
  assert (Hrun : get_video_transcript C (Some (String c r)) languages st =
            (Return (transcript_error (String c r) e), set_world st w1)).
  { unfold get_video_transcript. cbn [Py.truthy_str].
    destruct languages as [ls |];
      unfold get_transcript, default_transcript_data; tool_simpl;
      unfold call; rewrite Hlist; reflexivity. }
  rewrite Hrun. unfold transcript_error.
  destruct (Py.str_contains "TranscriptsDisabled" e) eqn:E1;
    [| destruct (Py.str_contains "NoTranscriptFound" e) eqn:E2;
       [| destruct (Py.str_contains "VideoUnavailable" e) eqn:E3]];
    eexists; (split; [reflexivity |]);
    repeat match goal with
           | H : Py.str_contains _ _ = true |- _ => apply str_contains_occurs in H
           | H : Py.str_contains _ _ = false |- _ =>
               apply str_contains_not_occurs in H
           end;
    repeat split; intros; try reflexivity; contradiction.
Qed.

(** X4.  [get_video_transcript] never raises and leaves the index and the
    store alone.  Its result is either a dict with the single key "error"
    or a dict with the keys video_id, transcript, length and segments in
    which length is the number of characters of the transcript.  With no
    video id, or an empty one, the error is returned without any request:
    the whole state, world included, is as before. *)
Theorem get_video_transcript_outcomes (video_id : option string)
    (languages : option (list string)) (st : State) :
  (exists v w',
      get_video_transcript C video_id languages st = (Return v, set_world st w') /\
      ((exists msg, v = VDict [("error", VStr msg)]) \/
       (exists vid transcript segments,
           video_id = Some vid /\
           v = VDict [ ("video_id", VStr vid);
                       ("transcript", VStr transcript);
                       ("length", VInt (Py.len_str transcript));
                       ("segments", VInt segments) ]))) /\
  (Py.truthy_str video_id = None ->
   get_video_transcript C video_id languages st =
     (Return (VDict [("error",
        VStr "You must provide a video_id (e.g., 'rfscVS0vtbw')")]), st)).
Proof.
  split.
  - destruct (get_video_transcript_returns C video_id languages st)
      as (v & w' & E & Hcase).
    exists v, w'. split; [exact E |].
    destruct Hcase as [Herr | (vid & data & Hvid & ->)]; [left; exact Herr |].
    right. exists vid, (format_transcript C data), (Py.len_list data).
    split; [exact Hvid | reflexivity].
  - intros Hnone. unfold get_video_transcript. rewrite Hnone. reflexivity.
Qed.

(** X5.  The index and the store only ever grow at the end: whatever tool
    is called and whatever it returns, every record and every vector stays
    at its position, the dimension of the index stays, and as many vectors
    are appended as records. *)
Theorem tools_only_append (c : Call) (st : State) :
  let st' := snd (run C c st) in
  Faiss.d (index st') = Faiss.d (index st) /\
  (forall i record,
      nth_error (video_store st) i = Some record ->
      nth_error (video_store st') i = Some record) /\
  (forall i v,
      nth_error (Faiss.xb (index st)) i = Some v ->
      nth_error (Faiss.xb (index st')) i = Some v) /\
  exists vectors records,
    Faiss.xb (index st') = Faiss.xb (index st) ++ vectors /\
    video_store st' = video_store st ++ records /\
    List.length vectors = List.length records.
Proof.
  cbv zeta. destruct (run_grows C c st) as (Hd & vs & rs & Hx & Hs & _ & Hal).
  split; [exact Hd |]. split; [| split].
  - intros i record Hi. rewrite Hs. rewrite nth_error_app1; [exact Hi |].
    apply nth_error_Some. congruence.
  - intros i v Hi. rewrite Hx. rewrite nth_error_app1; [exact Hi |].
    apply nth_error_Some. congruence.
  - exists vs, rs. split; [exact Hx |]. split; [exact Hs |].
    eapply Forall2_length; exact Hal.
Qed.

Lemma index_video_run (title transcript : string)
    (video_id : option string) (st : State) :
  match encode C transcript with
  | inl e => index_video C title transcript video_id st = (Raise e, st)
  | inr v =>
      if Nat.eqb (List.length v) (Faiss.d (index st)) then
        index_video C title transcript video_id st =
          (Return (VDict [("status", VStr "indexed"); ("title", VStr title)]),
           mkState
             (Faiss.mkIndex (Faiss.d (index st)) (Faiss.xb (index st) ++ [v]))
             (video_store st
                ++ [VDict [ ("title", VStr title);
                            ("transcript", VStr transcript);
                            ("video_id",
                               match video_id with
                               | Some s => VStr s
                               | None => VNone
                               end) ]])
             (world st))
      else
        index_video C title transcript video_id st = (Raise Py.AssertionError, st)
  end.
Proof.
  unfold index_video. tool_simpl.
  destruct (encode C transcript) as [e | v]; [reflexivity |].
  unfold index_add, Faiss.add.
  destruct (Nat.eqb (List.length v) (Faiss.d (index st))); reflexivity.
Qed.

Lemma semantic_search_run (st : State) (query : string) (top_k : Z)
    (full : bool) :
  paired C st ->
  video_store st <> [] ->
  semantic_search C query top_k full st =
    (match encode C query with
     | inl e => Raise e
     | inr v =>
         if Nat.eqb (List.length v) dimension
         then Return (VList (map (report full (video_store st))
                               (search_hits (index st) v
                                  (Z.min top_k (Py.len_list (video_store st))))))
         else Raise Py.AssertionError
     end, st).
Proof.
  intros Hp Hne.
  assert (Hlen : (Py.len_list (video_store st) =? 0) = false).
  { apply Z.eqb_neq. unfold Py.len_list.
    destruct (video_store st); [congruence | cbn; lia]. }
  destruct (encode C query) as [e | v] eqn:Henc.
  - unfold semantic_search. tool_simpl. rewrite Hlen, Henc. reflexivity.
  - destruct (Nat.eqb (List.length v) dimension) eqn:Hdim.
    + apply Nat.eqb_eq in Hdim.
      apply semantic_search_cases; assumption.
    + unfold semantic_search. tool_simpl. rewrite Hlen, Henc.
      unfold Faiss.search. destruct Hp as (Hd & _). rewrite Hd, Hdim.
      reflexivity.
Qed.

(** X6.  [index_video] and [semantic_search] fail together.  On a reachable
    state with at least one record, if [index_video] of a text raises, then
    [semantic_search] for that text raises with the same text, and nothing
    was stored; if [index_video] returns, [semantic_search] for that text
    returns a list: a text that can be indexed can be searched for. *)
Theorem index_video_and_search_fail_together (st : State)
    (title transcript : string) (video_id : option string)
    (top_k : Z) (full : bool) :
  reachable C st ->
  video_store st <> [] ->
  match fst (index_video C title transcript video_id st) with
  | Raise e =>
      fst (semantic_search C transcript top_k full st) = Raise e /\
      snd (index_video C title transcript video_id st) = st
  | Return r =>
      r = VDict [("status", VStr "indexed"); ("title", VStr title)] /\
      exists results,
        fst (semantic_search C transcript top_k full st) = Return (VList results)
  end.
Proof.
  intros Hreach Hne. pose proof (reachable_paired C st Hreach) as Hp.
  rewrite (semantic_search_run st transcript top_k full Hp Hne).
  pose proof (index_video_run title transcript video_id st) as Hrun.
  destruct Hp as (Hd & _). rewrite Hd in Hrun.
  destruct (encode C transcript) as [e | v].
  - rewrite Hrun. split; reflexivity.
  - destruct (Nat.eqb (List.length v) dimension); rewrite Hrun; cbn [fst snd].
    + split; [reflexivity | eexists; reflexivity].
    + split; reflexivity.
Qed.

(** X7.  [semantic_search] changes nothing, not even the world.  On a
    reachable state with at least one record it fails in two ways only, both
    by raising: the encoder raised (the text is passed on), or the embedding
    of the query has not the dimension of the index; in every other case it
    returns a list. *)
Theorem semantic_search_failure_modes (st : State) (query : string)
    (top_k : Z) (full : bool) :
  reachable C st ->
  video_store st <> [] ->
  snd (semantic_search C query top_k full st) = st /\
  match encode C query with
  | inl e => fst (semantic_search C query top_k full st) = Raise e
  | inr v =>
      if Nat.eqb (List.length v) dimension
      then exists results,
             fst (semantic_search C query top_k full st) = Return (VList results)
      else fst (semantic_search C query top_k full st) = Raise Py.AssertionError
  end.
Proof.
  intros Hreach Hne. split; [apply semantic_search_keeps_state |].
  rewrite (semantic_search_run st query top_k full
             (reachable_paired C st Hreach) Hne).
  destruct (encode C query) as [e | v]; [reflexivity |].
  destruct (Nat.eqb (List.length v) dimension);
    [eexists; reflexivity | reflexivity].
Qed.

Lemma report_score_of (full : bool) (store : list value) (h : Z * Q) :
  score_of (report full store h) = similarity_score (snd h).
Proof. unfold score_of, report, video_data. destruct full; reflexivity. Qed.

Lemma reports_sorted (full : bool) (store : list value) (q : Vector)
    (vs : list Vector) (hits : list (Z * Q)) :
  StronglySorted hit_before hits ->
  Forall (hit_of q vs) hits ->
  StronglySorted (fun a b => (score_of b <= score_of a)%Q)
    (map (report full store) hits).
Proof.
  induction hits as [| h hits IH]; cbn [map]; intros Hs Hh; [constructor |].
  apply StronglySorted_inv in Hs. destruct Hs as [Hs Hall].
  apply Forall_cons_iff in Hh. destruct Hh as [(_ & v & _ & Hd) Hh].
  constructor; [apply IH; assumption |].
  apply Forall_map. eapply Forall_impl; [| exact Hall].
  intros h' Hb. rewrite !report_score_of.
  apply similarity_score_antitone; [| apply hit_before_le; exact Hb].
  rewrite Hd. apply l2sqr_nonneg.
Qed.

(** X8.  The similarity scores that [semantic_search] reports lie between 0
    and 100 and never increase along the list: the best match comes first. *)
Theorem semantic_search_scores (st : State) (query : string) (top_k : Z)
    (full : bool) (v : Vector) :
  reachable C st ->
  video_store st <> [] ->
  encode C query = inr v ->
  List.length v = dimension ->
  exists results,
    semantic_search C query top_k full st = (Return (VList results), st) /\
    Forall (fun r => Py.contains_key "similarity_score" r = true /\
                     (0 <= score_of r)%Q /\ (score_of r <= 100)%Q) results /\
    StronglySorted (fun a b => (score_of b <= score_of a)%Q) results.
Proof.
  intros Hreach Hne Henc Hdim.
  pose proof (reachable_paired C st Hreach) as Hp.
  destruct (semantic_search_hits C st query top_k full v Hp Hne Henc Hdim)
    as (hits & E & Hnear).
  destruct (nearest_hits _ _ _ _ Hnear) as [Hs Hhits].
  assert (Hof : Forall (hit_of v (Faiss.xb (index st))) hits)
    by (eapply Forall_impl; [| exact Hhits]; cbn beta; tauto).
  exists (map (report full (video_store st)) hits). split; [exact E |].
  split; [| eapply reports_sorted; eassumption].
  apply Forall_map. eapply Forall_impl; [| exact Hof].
  intros h (_ & v' & _ & Hd). rewrite report_score_of.
  split; [unfold report, video_data; destruct full; reflexivity |].
  apply similarity_score_bounds. rewrite Hd. apply l2sqr_nonneg.
Qed.

Lemma all_hits_ids (q : Vector) (vs : list Vector) :
  forall next_id,
    map fst (all_hits q vs next_id) =
    map (fun i => next_id + Z.of_nat i) (seq 0 (List.length vs)).
Proof.
  induction vs as [| v vs IH]; intros next_id; cbn [all_hits map List.length seq];
    [reflexivity |].
  rewrite Z.add_0_r, IH, <- seq_shift, map_map. f_equal.
  apply map_ext. intros i. lia.
Qed.

Lemma NoDup_map_of_nat (l : list nat) :
  NoDup l -> NoDup (map (fun i => 0 + Z.of_nat i) l).
Proof.
  induction 1 as [| i l Hnotin _ IH]; cbn [map]; constructor; [| exact IH].
  intros Hin. apply in_map_iff in Hin. destruct Hin as (j & Hj & Hin).
  assert (j = i) by lia. subst j. exact (Hnotin Hin).
Qed.

Lemma all_hits_ids_NoDup (q : Vector) (vs : list Vector) :
  NoDup (map fst (all_hits q vs 0)).
Proof.
  rewrite all_hits_ids. apply NoDup_map_of_nat, seq_NoDup.
Qed.

(** X9.  [semantic_search] reports no record twice, and only records that
    are stored; when [top_k] is at least the number of records it reports
    every record exactly once. *)
Theorem semantic_search_reports_each_record_once (st : State) (query : string)
    (top_k : Z) (full : bool) (v : Vector) :
  reachable C st ->
  video_store st <> [] ->
  encode C query = inr v ->
  List.length v = dimension ->
  exists hits,
    semantic_search C query top_k full st =
      (Return (VList (map (report full (video_store st)) hits)), st) /\
    NoDup (map fst hits) /\
    Forall (fun h => exists record,
                nth_error (video_store st) (Z.to_nat (fst h)) = Some record /\
                0 <= fst h /\
                report full (video_store st) h = video_data full record (snd h))
           hits /\
    (Py.len_list (video_store st) <= top_k ->
     Permutation (map fst hits)
       (map Z.of_nat (seq 0 (List.length (video_store st))))).
Proof.
  intros Hreach Hne Henc Hdim.
  pose proof (reachable_paired C st Hreach) as Hp.
  pose proof (paired_same_length C st Hp) as Hsame.
  destruct (semantic_search_hits C st query top_k full v Hp Hne Henc Hdim)
    as (hits & E & Hnear).
  exists hits. split; [exact E |].
  destruct (nearest_hits _ _ _ _ Hnear) as [_ Hhits].
  destruct Hnear as (Hlen & others & Hperm & _).
  assert (Hids : Permutation (map fst (hits ++ others))
                   (map fst (all_hits v (Faiss.xb (index st)) 0)))
    by (apply Permutation_map; exact Hperm).
  split; [| split].
  - apply (NoDup_app_remove_r _ (map fst others)). rewrite <- map_app.
    eapply Permutation_NoDup; [apply Permutation_sym; exact Hids |].
    apply all_hits_ids_NoDup.
  - eapply Forall_impl; [| exact Hhits].
    intros h ((H0 & _) & Hlt). rewrite Hsame in Hlt.
    exists (nth (Z.to_nat (fst h)) (video_store st) VNone).
    split; [apply nth_error_nth'; lia |]. split; [exact H0 | reflexivity].
  - intros Hk.
    assert (Hall : List.length hits = List.length (hits ++ others)).
    { rewrite (Permutation_length Hperm), all_hits_length, Hlen, Hsame.
      unfold Py.len_list in *. lia. }
    rewrite length_app in Hall.
    assert (others = []) by (apply length_zero_iff_nil; lia). subst others.
    rewrite app_nil_r in Hids.
    eapply perm_trans; [exact Hids |].
    rewrite all_hits_ids, Hsame.
    replace (map (fun i => 0 + Z.of_nat i)) with (map Z.of_nat);
      [apply Permutation_refl |].
    f_equal.
Qed.

(** X10.  The flag [return_full_transcript] changes neither which records
    [semantic_search] reports nor their order nor any other field: with the
    flag, each entry is the entry without the flag with one more key,
    "transcript", holding the transcript stored with the record. *)
Theorem semantic_search_flag_only_adds_transcript (st : State)
    (query : string) (top_k : Z) (v : Vector) :
  reachable C st ->
  video_store st <> [] ->
  encode C query = inr v ->
  List.length v = dimension ->
  exists hits,
    semantic_search C query top_k false st =
      (Return (VList (map (report false (video_store st)) hits)), st) /\
    semantic_search C query top_k true st =
      (Return (VList (map (report true (video_store st)) hits)), st) /\
    Forall
      (fun h =>
         exists fields record transcript,
           nth_error (video_store st) (Z.to_nat (fst h)) = Some record /\
           Py.getitem record "transcript" = inr (VStr transcript) /\
           report false (video_store st) h = VDict fields /\
           Py.contains_key "transcript" (VDict fields) = false /\
           report true (video_store st) h
             = VDict (fields ++ [("transcript", VStr transcript)]))
      hits.
Proof.
  intros Hreach Hne Henc Hdim.
  pose proof (reachable_paired C st Hreach) as Hp.
  exists (search_hits (index st) v (Z.min top_k (Py.len_list (video_store st)))).
  split; [apply semantic_search_cases; assumption |].
  split; [apply semantic_search_cases; assumption |].
  eapply Forall_impl; [| apply (search_hits_stored C st v _ Hp)].
  intros h ((H0 & Hlt) & tr & Hrec). unfold Py.len_list in Hlt.
  assert (Hn : nth_error (video_store st) (Z.to_nat (fst h))
               = Some (nth (Z.to_nat (fst h)) (video_store st) VNone))
    by (apply nth_error_nth'; lia).
  unfold report, video_data. revert Hn Hrec.
  generalize (nth (Z.to_nat (fst h)) (video_store st) VNone) as record.
  intros record Hn Hrec.
  destruct Hrec; eexists; eexists; eexists; (split; [exact Hn |]); repeat split.
Qed.

(** X11.  Asking [semantic_search] for fewer neighbours gives a prefix of
    what asking for more gives: the results for [top_k = k] are the first
    [k] results for any [top_k >= k]. *)
Theorem semantic_search_top_k_prefix (st : State) (query : string)
    (k k' : Z) (full : bool) (v : Vector) :
  reachable C st ->
  video_store st <> [] ->
  encode C query = inr v ->
  List.length v = dimension ->
  k <= k' ->
  exists results results',
    semantic_search C query k full st = (Return (VList results), st) /\
    semantic_search C query k' full st = (Return (VList results'), st) /\
    results = firstn (Z.to_nat k) results'.
Proof.
  intros Hreach Hne Henc Hdim Hk.
  pose proof (reachable_paired C st Hreach) as Hp.
  eexists; eexists.
  split; [apply semantic_search_cases; eassumption |].
  split; [apply semantic_search_cases; eassumption |].
  unfold search_hits. rewrite firstn_map, firstn_firstn. do 2 f_equal.
  unfold Py.len_list. lia.
Qed.

Lemma search_after_append (st : State) (vec : Vector) (record : value)
    (text : string) (w : W) (k : Z) (full : bool) :
  paired C st ->
  List.length vec = Faiss.d (index st) ->
  stored_record record text ->
  encode C text = inr vec ->
  1 <= k ->
  let st' := mkState
               (Faiss.mkIndex (Faiss.d (index st)) (Faiss.xb (index st) ++ [vec]))
               (video_store st ++ [record]) w in
  exists h0 hits,
    semantic_search C text k full st' =
      (Return (VList (map (report full (video_store st')) (h0 :: hits))), st') /\
    (snd h0 == 0)%Q /\
    ((forall old, In old (Faiss.xb (index st)) -> ~ (Faiss.l2sqr vec old == 0)%Q) ->
     fst h0 = Z.of_nat (List.length (video_store st))).
Proof.
  intros Hp Hlen Hrec Henc Hk st'.
  pose proof (paired_same_length C st Hp) as Hsame.
  assert (Hg : grows C st st').
  { apply grows_one; [exact Hlen |]. exists text. split; assumption. }
  pose proof (paired_grows C st st' Hp Hg) as Hp'.
  assert (Hdim : List.length vec = dimension).
  { destruct Hp as (Hd & _). congruence. }
  assert (Hne : video_store st' <> []).
  { subst st'; cbn [video_store]. intros Habs.
    apply app_eq_nil in Habs. destruct Habs; discriminate. }
  destruct (semantic_search_hits C st' text k full vec Hp' Hne Henc Hdim)
    as (hits & Esearch & Hnear).
  pose proof Hnear as (Hlen' & others & Hperm & Hs).
  destruct hits as [| h0 hits].
  { exfalso. cbn [List.length] in Hlen'. subst st'; cbn [video_store] in Hlen'.
    unfold Py.len_list in Hlen'. rewrite length_app in Hlen'.
    cbn [List.length] in Hlen'. lia. }
  exists h0, hits. split; [exact Esearch |].
  assert (Hxb : Faiss.xb (index st') = Faiss.xb (index st) ++ [vec])
    by reflexivity.
  rewrite Hxb in Hperm.
  assert (Hlast : In (Z.of_nat (List.length (Faiss.xb (index st))),
                      Faiss.l2sqr vec vec)
                     (h0 :: hits ++ others)).
  { apply (Permutation_in _ (Permutation_sym Hperm)).
    rewrite all_hits_app. apply in_or_app; right. left. reflexivity. }
  assert (Hh0 : In h0 (all_hits vec (Faiss.xb (index st) ++ [vec]) 0)).
  { apply (Permutation_in _ Hperm). left; reflexivity. }
  destruct (all_hits_in _ _ _ _ Hh0) as (i & v' & Hi & Hnth & Hd0).
  assert (Hzero : (snd h0 == 0)%Q).
  { apply Qle_antisym.
    - destruct Hlast as [Heq | Hin].
      + rewrite Heq. cbn [snd]. rewrite l2sqr_self. apply Qle_refl.
      + cbn [app] in Hs. apply StronglySorted_inv in Hs. destruct Hs as [_ Hall].
        rewrite Forall_forall in Hall. specialize (Hall _ Hin).
        apply hit_before_le in Hall. cbn [snd] in Hall.
        rewrite l2sqr_self in Hall. exact Hall.
    - rewrite Hd0. apply l2sqr_nonneg. }
  split; [exact Hzero |].
  intros Hfresh.
  assert (Hlt : (i < List.length (Faiss.xb (index st) ++ [vec]))%nat)
    by (apply nth_error_Some; congruence).
  rewrite length_app in Hlt; cbn [List.length] in Hlt.
  destruct (Nat.eq_dec i (List.length (Faiss.xb (index st)))) as [-> | Hneq];
    [rewrite Hi, Hsame; lia | exfalso].
  rewrite nth_error_app1 in Hnth by lia.
  apply nth_error_In in Hnth.
  apply (Hfresh v' Hnth). rewrite <- Hd0. exact Hzero.
Qed.

(** X12.  What [fetch_and_index_transcript] stores can be found again.
    After a call that returned without "error" on a reachable state, the
    record it appended holds a transcript, of the length the result reports,
    such that
    [semantic_search] for that text with the full-transcript flag and
    [top_k >= 1] returns a first entry with similarity_score 100.0; and when
    no vector stored before the call is at distance 0 from the embedding of
    the transcript, that entry carries the video id of the call, the watch
    URL of that id, the transcript itself and the title the call returned. *)
Theorem fetch_and_index_transcript_then_search (st : State) (video_id : string)
    (languages : option (list string)) (top_k : Z) (r : value) (st' : State) :
  reachable C st ->
  fetch_and_index_transcript C video_id languages st = (Return r, st') ->
  Py.contains_key "error" r = false ->
  1 <= top_k ->
  exists title transcript vec top rest,
    video_store st' =
      video_store st ++ [fetched_record video_id title transcript] /\
    encode C transcript = inr vec /\
    Py.getitem r "transcript_length" = inr (VInt (Py.len_str transcript)) /\
    semantic_search C transcript top_k true st'
      = (Return (VList (top :: rest)), st') /\
    Py.getitem top "similarity_score" = inr (VFloat 100%Q) /\
    ((forall old, In old (Faiss.xb (index st)) -> ~ (Faiss.l2sqr vec old == 0)%Q) ->
     Py.getitem top "video_id" = inr (VStr video_id) /\
     Py.getitem top "url" = inr (VStr (watch_url video_id)) /\
     Py.getitem top "transcript" = inr (VStr transcript) /\
     Py.getitem top "title" = Py.getitem r "title").
Proof.
  intros Hreach Hrun Hok Hk.
  pose proof (reachable_paired C st Hreach) as Hp.
  destruct (fetch_and_index_transcript_cases C video_id languages st)
    as (v & st1 & E & Hcase).
  rewrite E in Hrun. injection Hrun as -> ->.
  destruct Hcase as [(Herr & _) | (title & data & vec & w' & -> & Henc & Hlen & ->)];
    [congruence |].
  set (text := format_transcript C data) in *.
  destruct (search_after_append st vec (fetched_record video_id title text) text
              w' top_k true Hp Hlen (stored_by_fetch title text video_id) Henc Hk)
    as (h0 & hits & Esearch & Hzero & Hid).
  cbn [map] in Esearch.
  exists title, text, vec. eexists; eexists.
  split; [reflexivity |].
  split; [exact Henc |]. split; [reflexivity |]. split; [exact Esearch |].
  split; [rewrite report_score, (similarity_score_zero _ Hzero); reflexivity |].
  intros Hfresh. specialize (Hid Hfresh).
  unfold report. rewrite Hid, Nat2Z.id. cbn [video_store].
  rewrite app_nth2, Nat.sub_diag by lia. cbn [nth].
  repeat split.
Qed.

(** ** Bulk ingestion, continued *)

Lemma bulk_step_records (item : SearchItem) (acc : Tally) (st : State) :
  exists detail acc' st' records,
    bulk_step C (video_data_of item) acc st = (Return acc', st') /\
    results acc' = results acc ++ [detail] /\
    detail_for item detail /\
    video_store st' = video_store st ++ records /\
    map video_id_of records
      = map video_id_of (filter (has_status "indexed") [detail]) /\
    Forall (fun record => exists vid title transcript,
                record = fetched_record vid title transcript) records.
Proof.
  unfold bulk_step, video_data_of.
  cbn [Py.getitem Py.assoc_find String.eqb Ascii.eqb Bool.eqb].
  tool_simpl.
  destruct (check_transcript_availability_returns C (Some (item_videoId item)) st)
    as (av & w1 & ->).
  cbv beta iota.
  destruct (truthy (Py.get av "has_transcripts" (VBool false))).
  - destruct (fetch_and_index_transcript_cases C (item_videoId item) None
                (set_world st w1))
      as (v & st' & -> & Hcase).
    cbv beta iota.
    destruct Hcase as [(Herr & w' & ->)
                      | (title & data & vec & w' & -> & Henc & Hlen & ->)].
    + rewrite Herr.
      destruct (contains_key_getitem "error" v Herr) as (err & ->).
      eexists; eexists; eexists; exists [].
      split; [reflexivity |]. cbn [results].
      split; [reflexivity |]. split; [apply (detail_failed item err) |].
      split; [cbn [video_store set_world]; rewrite app_nil_r; reflexivity |].
      split; [reflexivity | constructor].
    + cbn [indexed_result Py.contains_key Py.assoc_mem String.eqb Ascii.eqb
             Bool.eqb Py.get Py.assoc_find].
      eexists; eexists; eexists;
        exists [fetched_record (item_videoId item) title (format_transcript C data)].
      split; [reflexivity |]. cbn [results].
      split; [reflexivity |]. split; [apply detail_indexed |].
      split; [reflexivity |]. split; [reflexivity |].
      constructor; [| constructor]. eexists; eexists; eexists; reflexivity.
  - eexists; eexists; eexists; exists [].
    split; [reflexivity |]. cbn [results].
    split; [reflexivity |]. split; [apply detail_no_transcript |].
    split; [cbn [video_store set_world]; rewrite app_nil_r; reflexivity |].
    split; [reflexivity | constructor].
Qed.

Lemma bulk_loop_records (items : list SearchItem) :
  forall (acc : Tally) (st : State),
  exists details acc' st' records,
    bulk_loop C (map video_data_of items) acc st = (Return acc', st') /\
    results acc' = results acc ++ details /\
    Forall2 detail_for items details /\
    video_store st' = video_store st ++ records /\
    map video_id_of records
      = map video_id_of (filter (has_status "indexed") details) /\
    Forall (fun record => exists vid title transcript,
                record = fetched_record vid title transcript) records.
Proof.
  induction items as [| item items IH]; intros acc st.
  - exists [], acc, st, []. cbn [map bulk_loop]. unfold ret.
    rewrite !app_nil_r. repeat split; constructor.
  - cbn [map bulk_loop]. unfold bind at 1.
    destruct (bulk_step_records item acc st)
      as (detail & acc1 & st1 & recs1 & -> & Hr1 & Hd1 & Hs1 & Hm1 & Hf1).
    cbv beta iota.
    destruct (IH acc1 st1) as (details & acc' & st' & recs & -> & Hr & Hd & Hs & Hm & Hf).
    exists (detail :: details), acc', st', (recs1 ++ recs).
    split; [reflexivity |].
    split; [rewrite Hr, Hr1, <- app_assoc; reflexivity |].
    split; [constructor; assumption |].
    split; [rewrite Hs, Hs1, <- app_assoc; reflexivity |].
    split; [| apply Forall_app; split; assumption].
    change (detail :: details) with ([detail] ++ details).
    rewrite filter_app, !map_app, Hm1, Hm. reflexivity.
Qed.

(** X13.  A bulk run appends a record for exactly the candidates it reports
    as "indexed", in the candidates' order, each record being one that
    [fetch_and_index_transcript] builds; the candidates reported as "failed"
    or "no_transcript" add nothing, and when discovery fails nothing is
    appended and the error is returned. *)
Theorem bulk_index_channel_videos_appends_the_indexed (channel_id : string)
    (max_videos : Z) (st : State) :
  exists report st',
    bulk_index_channel_videos C channel_id max_videos st = (Return report, st') /\
    match fst (search_list C channel_id max_videos (world st)) with
    | inl e => report = VDict [("error", VStr e)] /\ same_db st st'
    | inr response =>
        exists details records,
          Py.getitem report "details" = inr (VList details) /\
          Forall2 detail_for
            match response with Some l => l | None => [] end details /\
          video_store st' = video_store st ++ records /\
          map video_id_of records
            = map video_id_of (filter (has_status "indexed") details) /\
          Forall (fun record => exists vid title transcript,
                      record = fetched_record vid title transcript) records
    end.
Proof.
  unfold bulk_index_channel_videos, try_except, bind.
  rewrite get_latest_videos_from_channel_returns.
  destruct (search_list C channel_id max_videos (world st)) as [[e | response] w1];
    cbn [fst snd Py.is_dict Py.contains_key Py.assoc_mem String.eqb Ascii.eqb
           Bool.eqb andb as_list].
  - eexists; eexists. split; [reflexivity |].
    split; [reflexivity | apply same_db_set_world].
  - unfold ret at 1. cbv beta iota.
    destruct (bulk_loop_records match response with Some l => l | None => [] end
                (mkTally 0 0 []) (set_world st w1))
      as (details & acc' & st' & recs & -> & Hr & Hds & Hs & Hm & Hf).
    unfold ret. eexists; exists st'. split; [reflexivity |].
    exists details, recs. cbn [results app] in Hr. rewrite Hr.
    split; [reflexivity |]. split; [exact Hds |].
    split; [exact Hs |]. split; assumption.
Qed.

End IndexTools.

(** ** The YouTube wrappers *)

Section YouTubeTools.

Context {W : Type}.
Variable C : Collaborators W.
Variable Y : YouTubeApi W.

Local Abbreviation State := (@State W).

Lemma call_outcome {A} (f : W -> (Exn + A) * W) (st : State) :
  call f st =
    (match fst (f (world st)) with inl e => Raise e | inr a => Return a end,
     set_world st (snd (f (world st)))).
Proof.
  unfold call, set_world. destruct (f (world st)) as [[e | a] w']; reflexivity.
Qed.

(** X14.  How the lookups treat a failed request.  [get_channel_stats],
    [search_youtube] and [get_video_comments] have no handler: the failure
    escapes as an exception with its text.  [get_video_stats] and
    [get_channel_id_by_username] return {"error": text} instead.  A channel
    or video that is not found gives an error result in both kinds; a count
    the API did not send is reported as None; a missing "items" gives the
    empty list for searches and comments.  None of the five touches the
    index or the store. *)
Theorem lookups_on_failure (st : State) :
  (forall channel_id,
      get_channel_stats Y channel_id st =
        (match fst (channels_list Y channel_id (world st)) with
         | inl e => Raise e
         | inr None | inr (Some []) =>
             Return (VDict [("error", VStr "Channel not found")])
         | inr (Some (statistics :: _)) =>
             Return (VDict
               [ ("subscribers", Py.get (VDict statistics) "subscriberCount" VNone);
                 ("views", Py.get (VDict statistics) "viewCount" VNone);
                 ("videos", Py.get (VDict statistics) "videoCount" VNone) ])
         end,
         set_world st (snd (channels_list Y channel_id (world st))))) /\
  (forall query max_results,
      search_youtube Y query max_results st =
        (match fst (search_list_query Y query max_results (world st)) with
         | inl e => Raise e
         | inr None => Return (VList [])
         | inr (Some items) => Return (VList (map search_result_of items))
         end,
         set_world st (snd (search_list_query Y query max_results (world st))))) /\
  (forall video_id max_results,
      get_video_comments Y video_id max_results st =
        (match fst (comment_threads_list Y video_id max_results (world st)) with
         | inl e => Raise e
         | inr None => Return (VList [])
         | inr (Some items) => Return (VList (map comment_of items))
         end,
         set_world st (snd (comment_threads_list Y video_id max_results (world st))))) /\
  (forall video_id,
      get_video_stats Y video_id st =
        (Return
           match fst (videos_list_statistics Y video_id (world st)) with
           | inl e => VDict [("error", VStr e)]
           | inr None | inr (Some []) => VDict [("error", VStr "Video not found")]
           | inr (Some (statistics :: _)) =>
               VDict [ ("views", Py.get (VDict statistics) "viewCount" VNone);
                       ("likes", Py.get (VDict statistics) "likeCount" VNone);
                       ("comments", Py.get (VDict statistics) "commentCount" VNone) ]
           end,
         set_world st (snd (videos_list_statistics Y video_id (world st))))) /\
  (forall username,
      get_channel_id_by_username Y username st =
        (Return
           match fst (search_list_channels Y username (world st)) with
           | inl e => VDict [("error", VStr e)]
           | inr (Some (hit :: _)) =>
               VDict [ ("channel_id", VStr (hit_channelId hit));
                       ("channel_title", VStr (hit_title hit)) ]
           | inr _ =>
               VDict [("error",
                 VStr ("Channel '" ++ username ++ "' not found")%string)]
           end,
         set_world st (snd (search_list_channels Y username (world st))))).
Proof.
  repeat split; intros.
  - unfold get_channel_stats, bind. rewrite call_outcome.
    destruct (channels_list Y channel_id (world st)) as [[e | [[| s l] |]] w'];
      reflexivity.
  - unfold search_youtube, bind. rewrite call_outcome.
    destruct (search_list_query Y query max_results (world st))
      as [[e | [items |]] w']; reflexivity.
  - unfold get_video_comments, bind. rewrite call_outcome.
    destruct (comment_threads_list Y video_id max_results (world st))
      as [[e | [items |]] w']; reflexivity.
  - unfold get_video_stats, try_except, bind. rewrite call_outcome.
    destruct (videos_list_statistics Y video_id (world st))
      as [[e | [[| s l] |]] w']; reflexivity.
  - unfold get_channel_id_by_username, try_except, bind. rewrite call_outcome.
    destruct (search_list_channels Y username (world st))
      as [[e | [[| h l] |]] w']; reflexivity.
Qed.

(** *** compare_video_stats *)

Lemma subsequence_refl {A} (l : list A) : subsequence l l.
Proof. induction l; constructor; assumption. Qed.

Lemma subsequence_app {A} (s1 l1 s2 l2 : list A) :
  subsequence s1 l1 -> subsequence s2 l2 -> subsequence (s1 ++ s2) (l1 ++ l2).
Proof.
  induction 1; intros H2; cbn [app]; [exact H2 | |]; constructor; auto.
Qed.

Lemma subsequence_length {A} (s l : list A) :
  subsequence s l -> (List.length s <= List.length l)%nat.
Proof. induction 1; cbn [List.length]; lia. Qed.

(** What one pass of the loop of [compare_video_stats] appends, given the
    answer to its request. *)
Lemma compare_step (video_id : string) (st : State) :
  exists entries,
    (forall acc,
        try_except
          (bind (compare_entry C Y video_id)
             (fun entry => ret match entry with
                               | Some e => acc ++ [e]
                               | None => acc
                               end))
          (fun e => ret (acc ++ [compare_error video_id e])) st
        = (Return (acc ++ entries),
           set_world st (snd (videos_list C video_id (world st))))) /\
    entries =
      match fst (videos_list C video_id (world st)) with
      | inl e => [compare_error video_id e]
      | inr (Some (item :: _)) =>
          let stats := VDict (statistics item) in
          match int_of Y (Py.get stats "viewCount" (VInt 0)),
                int_of Y (Py.get stats "likeCount" (VInt 0)),
                int_of Y (Py.get stats "commentCount" (VInt 0)) with
          | inr views, inr likes, inr comments =>
              [compare_stats video_id (snippet_title item) views likes comments]
          | inl e, _, _ | inr _, inl e, _ | inr _, inr _, inl e =>
              [compare_error video_id e]
          end
      | inr _ => []
      end /\
    subsequence (map video_id_of entries) [VStr video_id] /\
    Forall (fun entry =>
              (exists title views likes comments,
                  entry = compare_stats video_id title views likes comments) \/
              (exists e, entry = compare_error video_id e)) entries.
Proof.
  unfold compare_entry. tool_simpl. rewrite call_outcome.
  destruct (videos_list C video_id (world st)) as [[e | [[| item rest] |]] w'];
    cbn [fst snd].
  - exists [compare_error video_id e]. split; [reflexivity |].
    split; [reflexivity |]. split; [apply subsequence_refl |].
    constructor; [right; eexists; reflexivity | constructor].
  - exists []. split; [intros acc; rewrite app_nil_r; reflexivity |].
    split; [reflexivity |]. split; [repeat constructor | constructor].
  - cbv zeta.
    destruct (int_of Y (Py.get (VDict (statistics item)) "viewCount" (VInt 0)))
      as [e1 | views].
    { exists [compare_error video_id e1]. split; [reflexivity |].
      split; [reflexivity |]. split; [apply subsequence_refl |].
      constructor; [right; eexists; reflexivity | constructor]. }
    destruct (int_of Y (Py.get (VDict (statistics item)) "likeCount" (VInt 0)))
      as [e2 | likes].
    { exists [compare_error video_id e2]. split; [reflexivity |].
      split; [reflexivity |]. split; [apply subsequence_refl |].
      constructor; [right; eexists; reflexivity | constructor]. }
    destruct (int_of Y (Py.get (VDict (statistics item)) "commentCount" (VInt 0)))
      as [e3 | comments].
    { exists [compare_error video_id e3]. split; [reflexivity |].
      split; [reflexivity |]. split; [apply subsequence_refl |].
      constructor; [right; eexists; reflexivity | constructor]. }
    exists [compare_stats video_id (snippet_title item) views likes comments].
    split; [reflexivity |]. split; [reflexivity |].
    split; [apply subsequence_refl |].
    constructor; [left; do 4 eexists; reflexivity | constructor].
  - exists []. split; [intros acc; rewrite app_nil_r; reflexivity |].
    split; [reflexivity |]. split; [repeat constructor | constructor].
Qed.

Lemma compare_loop_spec (video_ids : list string) :
  forall (st : State),
  exists entries w',
    (forall acc,
        compare_loop C Y video_ids acc st
          = (Return (acc ++ entries), set_world st w')) /\
    subsequence (map video_id_of entries) (map VStr video_ids) /\
    Forall (fun entry =>
              exists video_id,
                In video_id video_ids /\
                ((exists title views likes comments,
                     entry = compare_stats video_id title views likes comments) \/
                 (exists e, entry = compare_error video_id e))) entries.
Proof.
  induction video_ids as [| video_id rest IH]; intros st.
  - exists [], (world st). split; [| split; constructor].
    intros acc. cbn [compare_loop]. unfold ret. rewrite app_nil_r.
    destruct st; reflexivity.
  - destruct (compare_step video_id st) as (e1 & E1 & _ & Hs1 & Hf1).
    destruct (IH (set_world st (snd (videos_list C video_id (world st)))))
      as (es & w2 & E2 & Hs & Hf).
    exists (e1 ++ es), w2. split; [| split].
    + intros acc. cbn [compare_loop]. unfold bind at 1.
      unfold compare_error in E1. rewrite (E1 acc). cbv beta iota.
      rewrite (E2 (acc ++ e1)), <- app_assoc. reflexivity.
    + rewrite map_app. change (map VStr (video_id :: rest))
        with ([VStr video_id] ++ map VStr rest).
      apply subsequence_app; assumption.
    + apply Forall_app; split.
      * eapply Forall_impl; [| exact Hf1]. intros entry H.
        exists video_id. split; [left; reflexivity | exact H].
      * eapply Forall_impl; [| exact Hf]. intros entry (vid & Hin & H).
        exists vid. split; [right; exact Hin | exact H].
Qed.

Lemma compare_loop_app (ids1 ids2 : list string) :
  forall (acc : list value) (st : State),
    compare_loop C Y (ids1 ++ ids2) acc st =
      match compare_loop C Y ids1 acc st with
      | (Return acc', st') => compare_loop C Y ids2 acc' st'
      | (Raise e, st') => (Raise e, st')
      end.
Proof.
  induction ids1 as [| video_id rest IH]; intros acc st; cbn [app compare_loop].
  - reflexivity.
  - unfold bind at 1 3.
    destruct (try_except _ _ st) as [[acc' | e] st']; [apply IH | reflexivity].
Qed.

(** X15.  [compare_video_stats] never raises and leaves the index and the
    store alone.  It answers for each requested id in turn, one request
    each, and the list returned is the answers put end to end: the list
    for [ids1 ++ ids2] is the list for [ids1] followed by the list that
    [ids2] gives in the state [ids1] left.  The answer for one id is an
    entry with the title, the three counts as integers and the watch URL of
    the id; or, when the request or a conversion raised, an entry
    {video_id, error} with the text raised; or nothing at all, for an id
    that the API does not know.  So the list has at most one entry per id,
    in the order of the ids. *)
Theorem compare_video_stats_outcomes (video_ids : list string) (st : State) :
  (exists entries w',
      compare_video_stats C Y video_ids st = (Return (VList entries), set_world st w') /\
      subsequence (map video_id_of entries) (map VStr video_ids) /\
      (List.length entries <= List.length video_ids)%nat /\
      Forall (fun entry =>
                exists video_id,
                  In video_id video_ids /\
                  ((exists title views likes comments,
                       entry = compare_stats video_id title views likes comments) \/
                   (exists e, entry = compare_error video_id e))) entries) /\
  (forall video_id,
      compare_video_stats C Y [video_id] st =
        (Return (VList
           match fst (videos_list C video_id (world st)) with
           | inl e => [compare_error video_id e]
           | inr (Some (item :: _)) =>
               let stats := VDict (statistics item) in
               match int_of Y (Py.get stats "viewCount" (VInt 0)),
                     int_of Y (Py.get stats "likeCount" (VInt 0)),
                     int_of Y (Py.get stats "commentCount" (VInt 0)) with
               | inr views, inr likes, inr comments =>
                   [compare_stats video_id (snippet_title item) views likes comments]
               | inl e, _, _ | inr _, inl e, _ | inr _, inr _, inl e =>
                   [compare_error video_id e]
               end
           | inr _ => []
           end),
         set_world st (snd (videos_list C video_id (world st))))) /\
  compare_video_stats C Y [] st = (Return (VList []), st) /\
  (forall ids1 ids2,
      let r1 := compare_video_stats C Y ids1 st in
      let r2 := compare_video_stats C Y ids2 (snd r1) in
      exists entries1 entries2,
        fst r1 = Return (VList entries1) /\
        fst r2 = Return (VList entries2) /\
        compare_video_stats C Y (ids1 ++ ids2) st
          = (Return (VList (entries1 ++ entries2)), snd r2)).
Proof.
  split; [| split; [| split]].
  - unfold compare_video_stats, bind.
    destruct (compare_loop_spec video_ids st) as (entries & w' & E & Hs & Hf).
    rewrite (E []). cbn [app]. unfold ret. exists entries, w'.
    split; [reflexivity |].
    split; [exact Hs |]. split; [| exact Hf].
    apply subsequence_length in Hs. rewrite !length_map in Hs. exact Hs.
  - intros video_id.
    destruct (compare_step video_id st) as (entries & E & -> & _).
    unfold compare_video_stats, bind at 1. cbn [compare_loop].
    unfold bind at 1. unfold compare_error in E. rewrite (E []).
    reflexivity.
  - reflexivity.
  - intros ids1 ids2 r1 r2. subst r1 r2.
    unfold compare_video_stats, bind.
    rewrite compare_loop_app.
    destruct (compare_loop_spec ids1 st) as (e1 & w1 & E1 & _).
    rewrite (E1 []). cbn [app]. unfold ret. cbn [snd].
    destruct (compare_loop_spec ids2 (set_world st w1)) as (e2 & w2 & E2 & _).
    rewrite (E2 e1), (E2 []). cbn [app fst snd].
    exists e1, e2. repeat split.
Qed.

(** *** find_videos_with_transcripts *)

Lemma assoc_find_set_other (k k' : string) (v : value) (d : list (string * value)) :
  k <> k' ->
  Py.assoc_find k (PyMore.assoc_set k' v d) = Py.assoc_find k d.
Proof.
  intros Hne. induction d as [| [k0 x] d IH]; cbn [PyMore.assoc_set Py.assoc_find].
  - replace (String.eqb k k') with false
      by (symmetry; apply String.eqb_neq; exact Hne). reflexivity.
  - destruct (String.eqb k' k0) eqn:E; cbn [Py.assoc_find].
    + apply String.eqb_eq in E. subst k0.
      replace (String.eqb k k') with false
        by (symmetry; apply String.eqb_neq; exact Hne). reflexivity.
    + rewrite IH. reflexivity.
Qed.

Lemma assoc_find_set_same (k : string) (v : value) (d : list (string * value)) :
  Py.assoc_find k (PyMore.assoc_set k v d) = Some v.
Proof.
  induction d as [| [k0 x] d IH]; cbn [PyMore.assoc_set Py.assoc_find].
  - rewrite String.eqb_refl. reflexivity.
  - destruct (String.eqb k k0) eqn:E; cbn [Py.assoc_find]; rewrite E;
      [reflexivity | exact IH].
Qed.

Lemma find_step_spec (d : list (string * value)) (vid : string)
    (acc : list value) (st : State) :
  Py.assoc_find "video_id" d = Some (VStr vid) ->
  exists w',
    (find_step C (VDict d) acc st = (Return acc, set_world st w') \/
     exists info,
       find_step C (VDict d) acc st =
         (Return (acc ++ [VDict (PyMore.assoc_set "transcript_info" info d)]),
          set_world st w')).
Proof.
  intros Hvid. unfold find_step, Py.getitem. rewrite Hvid. tool_simpl.
  unfold check_transcript_availability.
  destruct (Py.truthy_str (Some vid)) as [v |].
  - unfold try_except, bind. rewrite call_outcome.
    destruct (list_transcripts C v (world st)) as [[e | tracks] w'];
      cbn [fst snd]; unfold ret; cbv beta iota;
      cbn [Py.get Py.assoc_find String.eqb Ascii.eqb Bool.eqb truthy];
      exists w'; [left; reflexivity |].
    destruct (0 <? Py.len_list (map transcript_info tracks));
      [right; eexists; reflexivity | left; reflexivity].
  - exists (world st). left. unfold ret. cbv beta iota.
    cbn [Py.get Py.assoc_find String.eqb Ascii.eqb Bool.eqb truthy].
    destruct st; reflexivity.
Qed.

Lemma find_loop_spec (videos : list value) :
  Forall (fun video => exists d vid,
              video = VDict d /\ Py.assoc_find "video_id" d = Some (VStr vid))
         videos ->
  forall (acc : list value) (st : State),
  exists kept found w',
    find_loop C videos acc st = (Return (acc ++ found), set_world st w') /\
    subsequence kept videos /\
    Forall2 with_transcript_info kept found.
Proof.
  induction 1 as [| video videos (d & vid & -> & Hvid) _ IH]; intros acc st.
  - exists [], [], (world st). cbn [find_loop]. unfold ret. rewrite app_nil_r.
    split; [destruct st; reflexivity |]. split; constructor.
  - cbn [find_loop]. unfold bind at 1.
    destruct (find_step_spec d vid acc st Hvid) as (w1 & [-> | (info & ->)]);
      cbv beta iota.
    + destruct (IH acc (set_world st w1)) as (kept & found & w2 & -> & Hs & Hf).
      exists kept, found, w2. split; [reflexivity |].
      split; [constructor; exact Hs | exact Hf].
    + destruct (IH (acc ++ [VDict (PyMore.assoc_set "transcript_info" info d)])
                  (set_world st w1))
        as (kept & found & w2 & -> & Hs & Hf).
      exists (VDict d :: kept),
             (VDict (PyMore.assoc_set "transcript_info" info d) :: found), w2.
      rewrite <- app_assoc. split; [reflexivity |].
      split; [constructor; exact Hs |].
      constructor; [exists d, info; split; reflexivity | exact Hf].
Qed.

Lemma search_results_are_videos (items : list QueryItem) :
  Forall (fun video => exists d vid,
              video = VDict d /\ Py.assoc_find "video_id" d = Some (VStr vid))
         (map search_result_of items).
Proof.
  apply Forall_map, Forall_forall. intros item _.
  eexists; eexists; split; reflexivity.
Qed.

Lemma latest_videos_are_videos (items : list SearchItem) :
  Forall (fun video => exists d vid,
              video = VDict d /\ Py.assoc_find "video_id" d = Some (VStr vid))
         (map video_data_of items).
Proof.
  apply Forall_map, Forall_forall. intros item _.
  eexists; eexists; split; reflexivity.
Qed.

(** X16.  [find_videos_with_transcripts] never raises and leaves the index
    and the store alone.  A non-empty query decides the videos checked (the
    keyword search), else the channel given, else the default channel; when
    that discovery fails the result is {"error": text}.  Otherwise
    total_checked is the number of videos checked, the videos returned are
    some of the videos checked, in their order, each with every field it had
    and the field "transcript_info" added, and videos_with_transcripts is
    their number, so at most total_checked. *)
Theorem find_videos_with_transcripts_outcomes (query channel_id : option string)
    (max_results : Z) (st : State) :
  (exists v w',
      find_videos_with_transcripts C Y query channel_id max_results st
        = (Return v, set_world st w') /\
      match discovered C Y query channel_id max_results (world st) with
      | inl e => v = VDict [("error", VStr e)]
      | inr candidates =>
          exists kept found,
            v = VDict [ ("total_checked", VInt (Py.len_list candidates));
                        ("videos_with_transcripts", VInt (Py.len_list found));
                        ("videos", VList found) ] /\
            subsequence kept candidates /\
            Forall2 with_transcript_info kept found /\
            Py.len_list found <= Py.len_list candidates
      end) /\
  (forall video found,
      with_transcript_info video found ->
      Py.contains_key "transcript_info" found = true /\
      forall key, key <> "transcript_info" ->
                  Py.getitem found key = Py.getitem video key).
Proof.
  split.
  - unfold find_videos_with_transcripts, discovered, try_except, bind.
    assert (Hloop : forall videos st0,
               Forall (fun video => exists d vid,
                           video = VDict d /\
                           Py.assoc_find "video_id" d = Some (VStr vid)) videos ->
               exists v w',
                 (let (o, st') := as_list (VList videos) st0 in
                  match o with
                  | Return a =>
                      let (o0, st'0) := find_loop C a [] st' in
                      match o0 with
                      | Return a0 =>
                          ret (VDict [ ("total_checked", VInt (Py.len_list a));
                                       ("videos_with_transcripts",
                                          VInt (Py.len_list a0));
                                       ("videos", VList a0) ]) st'0
                      | Raise e => (Raise e, st'0)
                      end
                  | Raise e => (Raise e, st')
                  end) = (Return v, set_world st0 w') /\
                 exists kept found,
                   v = VDict [ ("total_checked", VInt (Py.len_list videos));
                               ("videos_with_transcripts", VInt (Py.len_list found));
                               ("videos", VList found) ] /\
                   subsequence kept videos /\
                   Forall2 with_transcript_info kept found /\
                   Py.len_list found <= Py.len_list videos).
    { intros videos st0 Hv. cbn [as_list]. unfold ret at 1.
      destruct (find_loop_spec videos Hv [] st0) as (kept & found & w' & -> & Hs & Hf).
      cbn [app]. unfold ret. eexists; exists w'. split; [reflexivity |].
      exists kept, found. split; [reflexivity |]. split; [exact Hs |].
      split; [exact Hf |].
      apply subsequence_length in Hs. apply Forall2_length in Hf.
      unfold Py.len_list. lia. }
    destruct (Py.truthy_str query) as [q |].
    + unfold search_youtube, bind. rewrite call_outcome.
      destruct (search_list_query Y q max_results (world st))
        as [[e | response] w1]; cbn [fst snd].
      * eexists; exists w1. split; reflexivity.
      * unfold ret at 1. cbv beta iota.
        cbn [Py.is_dict andb].
        destruct (Hloop _ (set_world st w1) (search_results_are_videos
                    match response with Some l => l | None => [] end))
          as (v & w' & E & Hrest).
        rewrite E. exists v, w'. split; [reflexivity | exact Hrest].
    + destruct (Py.truthy_str channel_id) as [c |]; cbv zeta;
        rewrite get_latest_videos_from_channel_returns;
        match goal with
        | |- context [search_list C ?ch max_results (world st)] =>
            destruct (search_list C ch max_results (world st))
              as [[e | response] w1]; cbn [fst snd]
        end;
        try (cbn [Py.is_dict Py.contains_key Py.assoc_mem String.eqb Ascii.eqb
                    Bool.eqb andb]; unfold ret;
             eexists; exists w1; split; reflexivity);
        cbn [Py.is_dict andb];
        destruct (Hloop _ (set_world st w1) (latest_videos_are_videos
                    match response with Some l => l | None => [] end))
          as (v & w' & E & Hrest);
        rewrite E; exists v, w'; (split; [reflexivity | exact Hrest]).
  - intros video found (d & info & -> & ->). split.
    + cbn [Py.contains_key].
      assert (H := assoc_find_set_same "transcript_info" info d).
      revert H. generalize (PyMore.assoc_set "transcript_info" info d) as l.
      induction l as [| [k x] l IH]; cbn [Py.assoc_find Py.assoc_mem];
        [discriminate |].
      destruct (String.eqb "transcript_info" k); [reflexivity | exact IH].
    + intros key Hne. unfold Py.getitem.
      rewrite (assoc_find_set_other key "transcript_info" info d Hne). reflexivity.
Qed.

(** *** search_and_analyze_videos *)

Lemma sorted_desc_snoc (l : list (Z * value)) (x : Z * value) :
  PyMore.sorted_desc (l ++ [x]) = PyMore.insert_desc x (PyMore.sorted_desc l).
Proof. unfold PyMore.sorted_desc. rewrite fold_left_app. reflexivity. Qed.

Lemma sorted_desc_head (l : list (Z * value)) :
  match PyMore.sorted_desc l with
  | [] => l = []
  | m :: _ =>
      exists before after,
        l = before ++ m :: after /\
        Forall (fun x => fst x < fst m) before /\
        Forall (fun x => fst x <= fst m) after
  end.
Proof.
  induction l as [| x l IH] using rev_ind; [reflexivity |].
  rewrite sorted_desc_snoc.
  destruct (PyMore.sorted_desc l) as [| m s]; cbn [PyMore.insert_desc].
  - subst l. exists [], []. repeat split; constructor.
  - destruct IH as (before & after & -> & Hb & Ha).
    destruct (fst x <=? fst m) eqn:E.
    + apply Z.leb_le in E. exists before, (after ++ [x]).
      rewrite <- app_assoc. split; [reflexivity |]. split; [exact Hb |].
      apply Forall_app; split; [exact Ha | constructor; [exact E | constructor]].
    + apply Z.leb_gt in E. exists (before ++ m :: after), [].
      split; [reflexivity |]. split; [| constructor].
      apply Forall_app; split.
      * eapply Forall_impl; [| exact Hb]. cbn beta. intros; lia.
      * constructor; [exact E |].
        eapply Forall_impl; [| exact Ha]. cbn beta. intros; lia.
Qed.

Lemma keyed_spec (field : string) (videos : list value) :
  forall ks,
    keyed Y field videos = inr ks ->
    videos = map snd ks /\
    Forall (fun kx => int_of Y (Py.get (snd kx) field (VInt 0)) = inr (fst kx)) ks.
Proof.
  induction videos as [| x videos IH]; cbn [keyed]; intros ks H.
  - injection H as <-. split; [reflexivity | constructor].
  - destruct (int_of Y (Py.get x field (VInt 0))) as [e | k] eqn:Ek;
      [discriminate |].
    destruct (keyed Y field videos) as [e | l]; [discriminate |].
    injection H as <-. destruct (IH l eq_refl) as [-> Hf].
    split; [reflexivity | constructor; [exact Ek | exact Hf]].
Qed.

Lemma sorted_by_top (field : string) (videos : list value) (ks : list (Z * value)) :
  keyed Y field videos = inr ks ->
  top_by (int_of Y) field videos (PyMore.first_or_none (PyMore.sorted_desc ks)).
Proof.
  intros Hk. destruct (keyed_spec field videos ks Hk) as [-> Hf].
  pose proof (sorted_desc_head ks) as Hh.
  destruct (PyMore.sorted_desc ks) as [| m s]; cbn [PyMore.first_or_none].
  - subst ks. reflexivity.
  - destruct Hh as (before & after & -> & Hb & Ha).
    rewrite map_app. cbn [map].
    apply Forall_app in Hf. destruct Hf as [Hfb Hfa].
    apply Forall_cons_iff in Hfa. destruct Hfa as [Hm Hfa].
    assert (Hshape : top_by (int_of Y) field (map snd before ++ snd m :: map snd after)
                       (snd m) =
                     exists before' after' k,
                       map snd before ++ snd m :: map snd after
                         = before' ++ snd m :: after' /\
                       int_of Y (Py.get (snd m) field (VInt 0)) = inr k /\
                       Forall (fun x => exists kx,
                                 int_of Y (Py.get x field (VInt 0)) = inr kx /\ kx < k)
                              before' /\
                       Forall (fun x => exists kx,
                                 int_of Y (Py.get x field (VInt 0)) = inr kx /\ kx <= k)
                              after').
    { unfold top_by. destruct (map snd before); reflexivity. }
    rewrite Hshape.
    exists (map snd before), (map snd after), (fst m).
    split; [reflexivity |]. split; [exact Hm |]. split.
    + apply Forall_map. rewrite Forall_forall in *. intros x Hx.
      exists (fst x). split; [apply Hfb, Hx | apply Hb, Hx].
    + apply Forall_map. rewrite Forall_forall in *. intros x Hx.
      exists (fst x). split; [apply Hfa, Hx | apply Ha, Hx].
Qed.

Lemma keyed_cases (field : string) (videos : list value) :
  match keyed Y field videos with
  | inr _ => Forall (convertible (int_of Y) field) videos
  | inl e => first_rejected (int_of Y) field videos e
  end.
Proof.
  induction videos as [| x videos IH]; cbn [keyed]; [constructor |].
  destruct (int_of Y (Py.get x field (VInt 0))) as [e | k] eqn:Ek.
  - exists [], x, videos. split; [reflexivity |]. split; [constructor | exact Ek].
  - destruct (keyed Y field videos) as [e | l].
    + destruct IH as (before & y & after & -> & Hb & Hy).
      exists (x :: before), y, after. split; [reflexivity |].
      split; [| exact Hy]. constructor; [exists k; exact Ek | exact Hb].
    + constructor; [exists k; exact Ek | exact IH].
Qed.

Lemma analyze_loop_spec (items : list QueryItem) :
  forall (acc : list value) (st : State),
  exists all w',
    analyze_loop C (map search_result_of items) acc st
      = (Return (acc ++ all), set_world st w') /\
    analyzed C items st all (set_world st w') /\
    Forall (fun d => Py.contains_key "error" d = false) all /\
    (List.length all <= List.length items)%nat.
Proof.
  induction items as [| item items IH]; intros acc st.
  - exists [], (world st). cbn [map analyze_loop]. unfold ret. rewrite app_nil_r.
    replace (set_world st (world st)) with st by (destruct st; reflexivity).
    split; [reflexivity |]. split; [constructor |].
    split; [constructor | cbn; lia].
  - cbn [map analyze_loop]. unfold search_result_of at 1.
    cbn [Py.getitem Py.assoc_find String.eqb Ascii.eqb Bool.eqb].
    tool_simpl.
    destruct (get_video_details_returns C (q_videoId item) st)
      as (v & w1 & E & Hcase).
    rewrite E. cbv beta iota.
    destruct Hcase as [Herr | (title & Hok & _)].
    + rewrite Herr. cbn [negb].
      destruct (IH acc (set_world st w1)) as (an & w2 & -> & Ha & Hf & Hl).
      exists an, w2. split; [reflexivity |].
      split; [eapply analyzed_dropped; eassumption |].
      split; [exact Hf | cbn; lia].
    + rewrite Hok. cbn [negb].
      destruct (IH (acc ++ [v]) (set_world st w1)) as (an & w2 & -> & Ha & Hf & Hl).
      exists (v :: an), w2. rewrite <- app_assoc.
      split; [reflexivity |].
      split; [eapply analyzed_kept; eassumption |].
      split; [constructor; assumption | cbn; lia].
Qed.

(** X17.  [search_and_analyze_videos] never raises and leaves the index and
    the store alone.  A failed search gives {"error": text}.  Otherwise it
    asks [get_video_details] for every search result in turn and keeps, in
    order, the details that came without an "error" key.  If [int()] takes
    every views, likes and comments count of the details kept, the result
    holds them as all_videos with total_videos their number, and
    most_viewed, most_liked and most_commented are each the first of them
    among those with the greatest count, or None when none was kept.  If
    not, the result is {"error": text} with the text of the first
    conversion that raised: views before likes before comments, and within
    one of them the first of the details whose count is refused. *)
Theorem search_and_analyze_videos_outcomes (query : string) (max_results : Z)
    (st : State) :
  exists v w',
    search_and_analyze_videos C Y query max_results st
      = (Return v, set_world st w') /\
    match fst (search_list_query Y query max_results (world st)) with
    | inl e => v = VDict [("error", VStr e)]
    | inr response =>
        let items := match response with Some l => l | None => [] end in
        exists all,
          analyzed C items
            (set_world st (snd (search_list_query Y query max_results (world st))))
            all (set_world st w') /\
          Forall (fun d => Py.contains_key "error" d = false) all /\
          Py.len_list all <= Py.len_list items /\
          ((exists most_viewed most_liked most_commented,
               v = VDict [ ("query", VStr query);
                           ("total_videos", VInt (Py.len_list all));
                           ("most_viewed", most_viewed);
                           ("most_liked", most_liked);
                           ("most_commented", most_commented);
                           ("all_videos", VList all) ] /\
               top_by (int_of Y) "views" all most_viewed /\
               top_by (int_of Y) "likes" all most_liked /\
               top_by (int_of Y) "comments" all most_commented) \/
           (exists e,
               v = VDict [("error", VStr e)] /\
               (first_rejected (int_of Y) "views" all e \/
                (Forall (convertible (int_of Y) "views") all /\
                 first_rejected (int_of Y) "likes" all e) \/
                (Forall (convertible (int_of Y) "views") all /\
                 Forall (convertible (int_of Y) "likes") all /\
                 first_rejected (int_of Y) "comments" all e))))
    end.
Proof.
  unfold search_and_analyze_videos, try_except, bind at 1.
  unfold search_youtube, bind at 1. rewrite call_outcome.
  destruct (search_list_query Y query max_results (world st))
    as [[e | response] w1]; cbn [fst snd].
  - eexists; exists w1. split; reflexivity.
  - unfold ret at 1. cbv beta iota. unfold bind at 1. cbn [as_list].
    unfold ret at 1. cbv beta iota. unfold bind at 1.
    destruct (analyze_loop_spec match response with Some l => l | None => [] end
                [] (set_world st w1)) as (all & w2 & -> & Ha & Hf & Hl).
    cbn [app]. unfold sorted_by. tool_simpl.
    pose proof (keyed_cases "views" all) as K1.
    pose proof (keyed_cases "likes" all) as K2.
    pose proof (keyed_cases "comments" all) as K3.
    destruct (keyed Y "views" all) as [e1 | k1] eqn:E1.
    { eexists; exists w2. split; [reflexivity |]. exists all.
      split; [exact Ha |]. split; [exact Hf |].
      split; [unfold Py.len_list; lia |].
      right. exists e1. split; [reflexivity | left; exact K1]. }
    destruct (keyed Y "likes" all) as [e2 | k2] eqn:E2.
    { eexists; exists w2. split; [reflexivity |]. exists all.
      split; [exact Ha |]. split; [exact Hf |].
      split; [unfold Py.len_list; lia |].
      right. exists e2. split; [reflexivity | right; left; split; assumption]. }
    destruct (keyed Y "comments" all) as [e3 | k3] eqn:E3.
    { eexists; exists w2. split; [reflexivity |]. exists all.
      split; [exact Ha |]. split; [exact Hf |].
      split; [unfold Py.len_list; lia |].
      right. exists e3. split; [reflexivity |]. right; right.
      split; [| split]; assumption. }
    eexists; exists w2. split; [reflexivity |]. exists all.
    split; [exact Ha |]. split; [exact Hf |].
    split; [unfold Py.len_list; lia |].
    left. do 3 eexists. split; [reflexivity |].
    split; [apply sorted_by_top; exact E1 |].
    split; [apply sorted_by_top; exact E2 | apply sorted_by_top; exact E3].
Qed.

End YouTubeTools.

(** ** The further properties at work on the stub world *)

Section MoreInstances.

Local Abbreviation K := Stub.collaborators.
Local Abbreviation K' := StubApi.collaborators.

Lemma stub_two_not_empty : video_store Stub.two <> [].
Proof. vm_compute. discriminate. Defined.

Lemma stub_query_encodes : encode K "hello world?" = inr (Stub.vector_of 12).
Proof. vm_compute. reflexivity. Defined.

Lemma stub_query_dimension : List.length (Stub.vector_of 12) = dimension.
Proof. vm_compute. reflexivity. Defined.

Lemma get_video_transcript_classifies_failures_disabled :
  list_transcripts K' "D" (world Stub.start)
    = (inl "TranscriptsDisabled for D", 1%nat) /\
  get_video_transcript K' (Some "D") None Stub.start =
    (Return (VDict [("error", VStr "Transcripts are disabled for video D")]),
     set_world Stub.start 1%nat).
Proof.
  assert (Hlist : list_transcripts K' "D" (world Stub.start)
                  = (inl "TranscriptsDisabled for D", 1%nat)) by reflexivity.
  split; [exact Hlist |].
  destruct (get_video_transcript_classifies_failures K' "D"%char "" None
              Stub.start _ _ Hlist) as (msg & E & Hdisabled & _).
  rewrite E, Hdisabled; [reflexivity |].
  exists ""%string, " for D"%string. reflexivity.
Defined.

Lemma get_video_transcript_outcomes_empty_id :
  Py.truthy_str (Some "") = None /\
  get_video_transcript K (Some "") (Some ["en"]) Stub.two =
    (Return (VDict [("error",
       VStr "You must provide a video_id (e.g., 'rfscVS0vtbw')")]), Stub.two).
Proof.
  split; [reflexivity |].
  exact (proj2 (get_video_transcript_outcomes K (Some "") (Some ["en"]) Stub.two)
           eq_refl).
Defined.

Lemma index_video_and_search_fail_together_at_two :
  reachable K Stub.two /\
  video_store Stub.two <> [] /\
  exists results,
    fst (semantic_search K "a new text" 2 false Stub.two) = Return (VList results).
Proof.
  split; [exact stub_two_reachable |]. split; [exact stub_two_not_empty |].
  pose proof (index_video_and_search_fail_together K Stub.two "N" "a new text"
                None 2 false stub_two_reachable stub_two_not_empty) as H.
  assert (E : fst (index_video K "N" "a new text" None Stub.two)
              = Return (VDict [("status", VStr "indexed"); ("title", VStr "N")]))
    by (vm_compute; reflexivity).
  rewrite E in H. exact (proj2 H).
Defined.

Lemma semantic_search_failure_modes_at_two :
  reachable K Stub.two /\
  video_store Stub.two <> [] /\
  snd (semantic_search K "hello world?" 2 false Stub.two) = Stub.two.
Proof.
  split; [exact stub_two_reachable |]. split; [exact stub_two_not_empty |].
  exact (proj1 (semantic_search_failure_modes K Stub.two "hello world?" 2 false
                  stub_two_reachable stub_two_not_empty)).
Defined.

Lemma semantic_search_scores_at_two :
  reachable K Stub.two /\
  video_store Stub.two <> [] /\
  encode K "hello world?" = inr (Stub.vector_of 12) /\
  List.length (Stub.vector_of 12) = dimension /\
  exists results,
    semantic_search K "hello world?" 5 false Stub.two
      = (Return (VList results), Stub.two) /\
    StronglySorted (fun a b => (score_of b <= score_of a)%Q) results.
Proof.
  split; [exact stub_two_reachable |]. split; [exact stub_two_not_empty |].
  split; [exact stub_query_encodes |]. split; [exact stub_query_dimension |].
  destruct (semantic_search_scores K Stub.two "hello world?" 5 false
              (Stub.vector_of 12) stub_two_reachable stub_two_not_empty
              stub_query_encodes stub_query_dimension)
    as (results & E & _ & Hs).
  exists results. split; assumption.
Defined.

Lemma semantic_search_reports_each_record_once_at_two :
  reachable K Stub.two /\
  video_store Stub.two <> [] /\
  encode K "hello world?" = inr (Stub.vector_of 12) /\
  List.length (Stub.vector_of 12) = dimension /\
  exists hits,
    semantic_search K "hello world?" 5 false Stub.two =
      (Return (VList (map (report false (video_store Stub.two)) hits)), Stub.two) /\
    Permutation (map fst hits) [0; 1].
Proof.
  split; [exact stub_two_reachable |]. split; [exact stub_two_not_empty |].
  split; [exact stub_query_encodes |]. split; [exact stub_query_dimension |].
  destruct (semantic_search_reports_each_record_once K Stub.two "hello world?" 5
              false (Stub.vector_of 12) stub_two_reachable stub_two_not_empty
              stub_query_encodes stub_query_dimension)
    as (hits & E & _ & _ & Hall).
  exists hits. split; [exact E |].
  apply Hall. vm_compute. discriminate.
Defined.

Lemma semantic_search_flag_only_adds_transcript_at_two :
  reachable K Stub.two /\
  video_store Stub.two <> [] /\
  encode K "hello world?" = inr (Stub.vector_of 12) /\
  List.length (Stub.vector_of 12) = dimension /\
  exists hits,
    semantic_search K "hello world?" 5 false Stub.two =
      (Return (VList (map (report false (video_store Stub.two)) hits)), Stub.two) /\
    semantic_search K "hello world?" 5 true Stub.two =
      (Return (VList (map (report true (video_store Stub.two)) hits)), Stub.two).
Proof.
  split; [exact stub_two_reachable |]. split; [exact stub_two_not_empty |].
  split; [exact stub_query_encodes |]. split; [exact stub_query_dimension |].
  destruct (semantic_search_flag_only_adds_transcript K Stub.two "hello world?" 5
              (Stub.vector_of 12) stub_two_reachable stub_two_not_empty
              stub_query_encodes stub_query_dimension)
    as (hits & E1 & E2 & _).
  exists hits. split; assumption.
Defined.

Lemma semantic_search_top_k_prefix_at_two :
  reachable K Stub.two /\
  video_store Stub.two <> [] /\
  encode K "hello world?" = inr (Stub.vector_of 12) /\
  List.length (Stub.vector_of 12) = dimension /\
  1 <= 2 /\
  exists results results',
    semantic_search K "hello world?" 1 false Stub.two
      = (Return (VList results), Stub.two) /\
    semantic_search K "hello world?" 2 false Stub.two
      = (Return (VList results'), Stub.two) /\
    results = firstn 1 results'.
Proof.
  assert (Hk : 1 <= 2) by lia.
  split; [exact stub_two_reachable |]. split; [exact stub_two_not_empty |].
  split; [exact stub_query_encodes |]. split; [exact stub_query_dimension |].
  split; [exact Hk |].
  exact (semantic_search_top_k_prefix K Stub.two "hello world?" 1 2 false
           (Stub.vector_of 12) stub_two_reachable stub_two_not_empty
           stub_query_encodes stub_query_dimension Hk).
Defined.

Lemma fetch_and_index_transcript_then_search_from_one :
  reachable K Stub.one /\
  fetch_and_index_transcript K "A" None Stub.one =
    (Return (indexed_result "A" "Title of A" "words of A in en" 1), Stub.two) /\
  Py.contains_key "error" (indexed_result "A" "Title of A" "words of A in en" 1)
    = false /\
  1 <= 1 /\
  exists title transcript,
    video_store Stub.two =
      video_store Stub.one ++ [fetched_record "A" title transcript] /\
    exists top rest,
      semantic_search K transcript 1 true Stub.two
        = (Return (VList (top :: rest)), Stub.two) /\
      Py.getitem top "similarity_score" = inr (VFloat 100%Q).
Proof.
  assert (Hrun : fetch_and_index_transcript K "A" None Stub.one =
            (Return (indexed_result "A" "Title of A" "words of A in en" 1),
             Stub.two)) by (vm_compute; reflexivity).
  assert (Hok : Py.contains_key "error"
                  (indexed_result "A" "Title of A" "words of A in en" 1) = false)
    by reflexivity.
  assert (Hk : 1 <= 1) by lia.
  split; [exact stub_one_reachable |]. split; [exact Hrun |].
  split; [exact Hok |]. split; [exact Hk |].
  destruct (fetch_and_index_transcript_then_search K Stub.one "A" None 1 _ _
              stub_one_reachable Hrun Hok Hk)
    as (title & transcript & vec & top & rest & Hstore & _ & _ & E & Hscore & _).
  exists title, transcript. split; [exact Hstore |].
  exists top, rest. split; assumption.
Defined.

Lemma find_videos_with_transcripts_outcomes_keeps_fields :
  with_transcript_info
    (VDict [("title", VStr "Video A"); ("video_id", VStr "A")])
    (VDict [("title", VStr "Video A"); ("video_id", VStr "A");
            ("transcript_info", VList [])]) /\
  Py.contains_key "transcript_info"
    (VDict [("title", VStr "Video A"); ("video_id", VStr "A");
            ("transcript_info", VList [])]) = true.
Proof.
  assert (H : with_transcript_info
                (VDict [("title", VStr "Video A"); ("video_id", VStr "A")])
                (VDict [("title", VStr "Video A"); ("video_id", VStr "A");
                        ("transcript_info", VList [])])).
  { exists [("title", VStr "Video A"); ("video_id", VStr "A")], (VList []).
    split; reflexivity. }
  split; [exact H |].
  exact (proj1 (proj2 (find_videos_with_transcripts_outcomes K StubApi.api
                         (Some "q") None 5 Stub.start) _ _ H)).
Defined.

Lemma compare_video_stats_outcomes_at_four :
  compare_video_stats K' StubApi.api ["A"; "X"; "Y"; "B"] Stub.start =
    (Return (VList [ compare_stats "A" "Title of A" 5 0 0;
                     compare_error "Y" "quota exceeded";
                     compare_stats "B" "Title of B" 9 0 0 ]),
     set_world Stub.start 4%nat).
Proof.
  destruct (compare_video_stats_outcomes K' StubApi.api [] Stub.start)
    as (_ & _ & _ & Happ).
  destruct (Happ ["A"; "X"] ["Y"; "B"]) as (e1 & e2 & E1 & E2 & E).
  vm_compute in E1. injection E1 as <-.
  vm_compute in E2. injection E2 as <-.
  change (["A"; "X"] ++ ["Y"; "B"]) with ["A"; "X"; "Y"; "B"] in E.
  rewrite E. vm_compute. reflexivity.
Defined.

Lemma search_and_analyze_videos_outcomes_at_three :
  exists all most_viewed most_liked most_commented,
    analyzed K'
      [ mkQueryItem "Video A" "A" "chan" "2024" "";
        mkQueryItem "Video B" "B" "chan" "2024" "";
        mkQueryItem "Video E" "E" "chan" "2024" "" ]
      (set_world Stub.start 1%nat) all (set_world Stub.start 4%nat) /\
    map (fun d => Py.get d "title" VNone) all
      = [VStr "Title of A"; VStr "Title of B"; VStr "Title of E"] /\
    map (fun d => Py.get d "views" VNone) all
      = [VStr "5"; VStr "9"; VStr "9"] /\
    Py.get most_viewed "title" VNone = VStr "Title of B" /\
    Py.get most_liked "title" VNone = VStr "Title of A" /\
    search_and_analyze_videos K' StubApi.api "q" 5 Stub.start =
      (Return (VDict [ ("query", VStr "q"); ("total_videos", VInt 3);
                       ("most_viewed", most_viewed);
                       ("most_liked", most_liked);
                       ("most_commented", most_commented);
                       ("all_videos", VList all) ]),
       set_world Stub.start 4%nat).
Proof.
  destruct (search_and_analyze_videos_outcomes K' StubApi.api "q" 5 Stub.start)
    as (v & w' & E & H).
  cbn [fst snd StubApi.api search_list_query StubApi.stub_search_query world
         Stub.start initial] in H.
  cbv zeta in H. destruct H as (all & Ha & _ & _ & Hv).
  destruct Hv as [(mv & ml & mc & -> & _) | (e & -> & _)];
    [| vm_compute in E; discriminate E].
  exists all, mv, ml, mc.
  pose proof E as E'. vm_compute in E'.
  inversion E'. subst. clear E'.
  split; [exact Ha |]. repeat (split; [reflexivity |]).
  exact E.
Defined.

End MoreInstances.
